(** * pynbody: Gadget-HDF snapshot reader ([pynbody/snapshot/gadgethdf.py])

    A shallow embedding of the multi-file manager, the family/group index
    layout, the description-string unit parser, the array loader and the
    array write-back of [gadgethdf.py], followed by the properties proved
    about them.

    Conventions.
    - Python exceptions are values of [exn]; a call that may raise returns a
      [result].  Code that mutates the file manager or the files returns the
      final state next to the result, so the state survives an exception the
      way it does in Python.
    - Python [float]s (numpy [float64] scalars) are Rocq's primitive binary64
      floats.
    - [str] values are [string]s, compared byte by byte (the names and the
      descriptions handled here are ASCII).
    - [dict]s whose iteration order is not observed are [gmap]s; the ordered
      ones ([_family_to_group_map], [_hdf_unitvar]) are association lists in
      insertion order. *)

From Stdlib Require Import ZArith String Ascii List Lia Bool.
From Stdlib Require Import PrimFloat.
From stdpp Require Import gmap strings list sorting pretty.

#[local] Set Warnings "-register-all".
#[local] Open Scope string_scope.

(* ================================================================= *)
(** ** Exceptions and results *)

Inductive exn : Type :=
| KeyError
| IndexError
| ValueError
| TypeError
| AttributeError
| StopIteration
| AssertionError
| UnboundLocalError
| OverflowError
| ZeroDivisionError
| OSError (msg : string)
| UnitsException.

#[global] Instance exn_eq_dec : EqDecision exn.
Proof. solve_decision. Defined.

Inductive result (A : Type) : Type :=
| Ok (a : A)
| Raise (e : exn).
Arguments Ok {A} a.
Arguments Raise {A} e.

#[global] Instance result_ret : MRet result := @Ok.
#[global] Instance result_bind : MBind result :=
  λ A B k r, match r with Ok a => k a | Raise e => Raise e end.
#[global] Instance result_fmap : FMap result :=
  λ A B f r, match r with Ok a => Ok (f a) | Raise e => Raise e end.

Definition is_Ok {A} (r : result A) : bool :=
  match r with Ok _ => true | Raise _ => false end.

(** [try: r except e: h] for a single exception class. *)
Definition try_except {A} (r : result A) (e : exn) (h : result A) : result A :=
  match r with
  | Ok a => Ok a
  | Raise e' => if decide (e' = e) then h else Raise e'
  end.

(** Python's [l[i]] on a list. *)
Definition py_index {A} (l : list A) (i : nat) : result A :=
  match l !! i with Some a => Ok a | None => Raise IndexError end.

(** [range(n)] for a Python integer [n]. *)
Definition py_range (n : Z) : list Z := Z.of_nat <$> seq 0 (Z.to_nat n).

(* ================================================================= *)
(** ** HDF5 objects as h5py shows them *)

(** Attribute values met in Gadget headers and dataset annotations. *)
Inductive attr : Type :=
| AFloat (x : float)
| AInt (z : Z)
| AInts (l : list Z)
| AFloats (l : list float)
| AStr (s : string).

(** Access modes handed to [h5py.File] by this module: ['r'] and ['r+']. *)
Inductive hmode : Type := ModeR | ModeRW.

#[global] Instance hmode_eq_dec : EqDecision hmode.
Proof. solve_decision. Defined.

Section Hdf.
Context {V dtype : Type}.

(** A file is a tree of groups with datasets at the leaves.  A dataset
    keeps its element type, its shape and its elements in C order. *)
Inductive node : Type :=
| Dataset (dt : dtype) (shape : list nat) (data : list V)
          (ds_attrs : gmap string attr)
| Group (g_attrs : gmap string attr) (kids : gmap string node).

(** The files on disk, by file name. *)
Definition disk : Type := gmap string node.

(** An h5py object is a reference into an open file: the file, the mode
    it was opened in and the path of the object below the root. *)
Record ref : Type := Ref {
  r_file : string;
  r_mode : hmode;
  r_path : list string
}.

Fixpoint node_at (p : list string) (n : node) : option node :=
  match p with
  | [] => Some n
  | k :: p' =>
      match n with
      | Group _ kids => kids !! k ≫= node_at p'
      | Dataset _ _ _ _ => None
      end
  end.

Definition resolve (d : disk) (r : ref) : option node :=
  d !! r_file r ≫= node_at (r_path r).

(** [h5py.File(name, mode)] for the modes ['r'] and ['r+']: the file has
    to exist. *)
Definition h5py_File (d : disk) (name : string) (mode : hmode) : result ref :=
  match d !! name with
  | Some _ => Ok (Ref name mode [])
  | None => Raise (OSError "Unable to open file")
  end.

Definition is_hdf5 (d : disk) (name : string) : bool :=
  bool_decide (is_Some (d !! name)).

(** [key in obj] *)
Definition h5_contains (d : disk) (r : ref) (key : string) : bool :=
  match resolve d r with
  | Some (Group _ kids) => bool_decide (is_Some (kids !! key))
  | _ => false
  end.

(** [obj[key]] for a name [key] *)
Definition h5_getitem (d : disk) (r : ref) (key : string) : result ref :=
  match resolve d r with
  | Some (Group _ kids) =>
      match kids !! key with
      | Some _ => Ok (Ref (r_file r) (r_mode r) (r_path r ++ [key]))
      | None => Raise KeyError
      end
  | Some (Dataset _ _ _ _) => Raise ValueError
  | None => Raise KeyError
  end.

(** [obj.parent] *)
Definition h5_parent (r : ref) : ref :=
  Ref (r_file r) (r_mode r) (removelast (r_path r)).

(** [obj.name]: the absolute path, ["/"] for the root. *)
Definition h5_name (r : ref) : string :=
  match r_path r with
  | [] => "/"
  | p => foldl (λ name k, name ++ "/" ++ k) "" p
  end.

(** [obj.attrs] *)
Definition h5_attrs (d : disk) (r : ref) : gmap string attr :=
  match resolve d r with
  | Some (Dataset _ _ _ a) => a
  | Some (Group a _) => a
  | None => ∅
  end.

Definition shape_size (shape : list nat) : nat := foldr Nat.mul 1 shape.

(** [dset.size]; a group has no such attribute. *)
Definition h5_size (d : disk) (r : ref) : result nat :=
  match resolve d r with
  | Some (Dataset _ shape _ _) => Ok (shape_size shape)
  | _ => Raise AttributeError
  end.

(** [len(obj)]: the first dimension of a dataset, the number of members of
    a group. *)
Definition h5_len (d : disk) (r : ref) : result nat :=
  match resolve d r with
  | Some (Dataset _ (n :: _) _ _) => Ok n
  | Some (Group _ kids) => Ok (size kids)
  | _ => Raise TypeError
  end.

Definition h5_shape (d : disk) (r : ref) : result (list nat) :=
  match resolve d r with
  | Some (Dataset _ shape _ _) => Ok shape
  | _ => Raise AttributeError
  end.

Definition h5_dtype (d : disk) (r : ref) : result dtype :=
  match resolve d r with
  | Some (Dataset dt _ _ _) => Ok dt
  | _ => Raise AttributeError
  end.

Definition h5_data (d : disk) (r : ref) : result (list V) :=
  match resolve d r with
  | Some (Dataset _ _ data _) => Ok data
  | _ => Raise AttributeError
  end.

(** Replace the object at path [p] below [n] by [f] of it; a path that
    leaves the tree changes nothing. *)
Fixpoint node_alter (f : node → node) (p : list string) (n : node) : node :=
  match p with
  | [] => f n
  | k :: p' =>
      match n with
      | Group a kids => Group a (alter (node_alter f p') k kids)
      | Dataset _ _ _ _ => n
      end
  end.

Definition disk_alter (f : node → node) (r : ref) (d : disk) : disk :=
  alter (node_alter f (r_path r)) (r_file r) d.

End Hdf.

Arguments node : clear implicits.
Arguments disk : clear implicits.

(* ================================================================= *)
(** ** [_GadgetHdfMultiFileManager] *)

(** The class attributes that tell the two managers apart. *)
Record manager_class : Type := {
  _nfiles_groupname : string;
  _nfiles_attrname : string;
  _size_from_hdf5_key : string;
  _subgroup_name : option string
}.

Definition _GadgetHdfMultiFileManager : manager_class :=
  {| _nfiles_groupname := "Header";
     _nfiles_attrname := "NumFilesPerSnapshot";
     _size_from_hdf5_key := "ParticleIDs";
     _subgroup_name := None |}.

Definition _SubfindHdfMultiFileManager : manager_class :=
  {| _nfiles_groupname := "FOF";
     _nfiles_attrname := "NTask";
     _size_from_hdf5_key := "ParticleIDs";
     _subgroup_name := Some "FOF" |}.

(** The instance attributes. *)
Record manager : Type := Manager {
  m_class : manager_class;
  _mode : hmode;
  _filenames : list string;
  _numfiles : Z;
  _open_files : gmap Z ref
}.

Definition set_open_files (o : gmap Z ref) (m : manager) : manager :=
  Manager (m_class m) (_mode m) (_filenames m) (_numfiles m) o.

(** [sys.maxsize] of a 64-bit CPython. *)
Definition sys_maxsize : Z := 2 ^ 63 - 1.

Section Manager.
Context {V dtype : Type}.
Implicit Types (d : disk V dtype) (m : manager).

(** [_get_num_files] *)
Definition _get_num_files (cls : manager_class) d (first_file : ref)
  : result attr :=
  g ← h5_getitem d first_file (_nfiles_groupname cls);
  match h5_attrs d g !! _nfiles_attrname cls with
  | Some a => Ok a
  | None => Raise KeyError
  end.

(** [__init__].  A file count that has a length (an array, a [str]) has
    to have length 1 and stands for its only element; a count that is not
    an integer cannot be given to [range]. *)
Definition manager_init (cls : manager_class) d (filename : string)
    (mode : hmode) : result manager :=
  if is_hdf5 d filename then
    Ok (Manager cls mode [filename] 1 ∅)
  else
    h1 ← h5py_File d (filename ++ ".0.hdf5") mode;
    a ← _get_num_files cls d h1;
    n ← match a with
        | AInt n => Ok n
        | AInts [n] => Ok n
        | AInts _ | AFloats [] | AFloats (_ :: _ :: _) => Raise AssertionError
        | AFloat _ | AFloats [_] => Raise TypeError
        | AStr s =>
            if decide (String.length s = 1%nat) then Raise TypeError
            else Raise AssertionError
        end;
    Ok (Manager cls mode
          ((λ i : Z, filename ++ "." ++ pretty i ++ ".hdf5") <$> py_range n)
          n ∅).

(** [__len__] *)
Definition manager_len m : Z := _numfiles m.

(** One turn of the loop of [__iter__], up to its [yield], for the loop
    index [i].  The freshly opened file is stored before the sub-group is
    looked up, as in the source. *)
Definition iter_yield d (i : Z) m : result ref * manager :=
  match _open_files m !! i with
  | Some h => (Ok h, m)
  | None =>
      match py_index (_filenames m) (Z.to_nat i) with
      | Raise e => (Raise e, m)
      | Ok fn =>
          match h5py_File d fn (_mode m) with
          | Raise e => (Raise e, m)
          | Ok f =>
              let m1 := set_open_files (<[i := f]> (_open_files m)) m in
              match _subgroup_name (m_class m) with
              | None => (Ok f, m1)
              | Some sg =>
                  match h5_getitem d f sg with
                  | Raise e => (Raise e, m1)
                  | Ok g =>
                      (Ok g, set_open_files (<[i := g]> (_open_files m1)) m1)
                  end
              end
          end
      end
  end.

(** [next(itertools.islice(self, i, i+1))] on a fresh iterator: the
    generator runs over the indices [js], the first [skip] items are
    dropped and the next one is returned; an exhausted generator makes
    [next] raise [StopIteration]. *)
Fixpoint islice_next d (js : list Z) (skip : nat) m : result ref * manager :=
  match js with
  | [] => (Raise StopIteration, m)
  | j :: js' =>
      match iter_yield d j m with
      | (Raise e, m') => (Raise e, m')
      | (Ok h, m') =>
          match skip with
          | O => (Ok h, m')
          | S k => islice_next d js' k m'
          end
      end
  end.

(** [__getitem__].  [itertools.islice] refuses a start or stop outside
    [0 .. sys.maxsize] with [ValueError] before the generator runs. *)
Definition __getitem__ d (i : Z) m : result ref * manager :=
  match _open_files m !! i with
  | Some h => (Ok h, m)
  | None =>
      if (i <? 0)%Z || (sys_maxsize <? i + 1)%Z then (Raise ValueError, m)
      else
        match islice_next d (py_range (_numfiles m)) (Z.to_nat i) m with
        | (Ok h, m') => (Ok h, set_open_files (<[i := h]> (_open_files m')) m')
        | (Raise e, m') => (Raise e, m')
        end
  end.

(** [reopen_in_mode] *)
Definition reopen_in_mode (mode : hmode) m : manager :=
  if decide (mode ≠ _mode m) then
    Manager (m_class m) mode (_filenames m) (_numfiles m) ∅
  else m.

(** The invariant of a manager: one file name per shard, and the cache
    holds handles of shards only, each on its own file and in the current
    mode. *)
Definition manager_wf m : Prop :=
  (_numfiles m ≤ sys_maxsize)%Z ∧
  length (_filenames m) = Z.to_nat (_numfiles m) ∧
  map_Forall (λ i h, (0 ≤ i < _numfiles m)%Z ∧
                     _filenames m !! Z.to_nat i = Some (r_file h) ∧
                     r_mode h = _mode m) (_open_files m).

(** The parts of a manager that iteration never touches. *)
Definition same_shards m m' : Prop :=
  m_class m' = m_class m ∧ _mode m' = _mode m ∧
  _filenames m' = _filenames m ∧ _numfiles m' = _numfiles m.

(** Shard [j] can be opened: its file exists and holds the sub-group the
    manager class asks for. *)
Definition shard_openable d m (j : Z) : bool :=
  match _filenames m !! Z.to_nat j with
  | Some fn =>
      match h5py_File d fn (_mode m) with
      | Ok f =>
          match _subgroup_name (m_class m) with
          | None => true
          | Some sg => is_Ok (h5_getitem d f sg)
          end
      | Raise _ => false
      end
  | None => false
  end.

(** The handle iterating the manager yields for shard [i], when the shard
    opens: on the file of the shard, in the manager's mode, at the
    sub-group the class asks for. *)
Definition shard_ref m (i : Z) : ref :=
  Ref (default "" (_filenames m !! Z.to_nat i)) (_mode m)
      (match _subgroup_name (m_class m) with Some sg => [sg] | None => [] end).

(** What iterating the manager yields. *)
Definition manager_views m : list ref :=
  shard_ref m <$> py_range (_numfiles m).

(** The cache holds nothing but such handles. *)
Definition manager_fresh m : Prop :=
  map_Forall (λ i h, h = shard_ref m i) (_open_files m).

(** A manager ready to be iterated: well formed, its cache fresh, every
    shard openable. *)
Definition manager_ready d m : Prop :=
  manager_wf m ∧ manager_fresh m ∧
  Forall (λ j, shard_openable d m j = true) (py_range (_numfiles m)).

End Manager.

(* ================================================================= *)
(** ** Loops and ordered dictionaries *)

(** A [for] loop whose body updates the loop state and may raise. *)
Fixpoint for_each {S X : Type} (body : X → S → result S) (xs : list X) (s : S)
  : result S :=
  match xs with
  | [] => Ok s
  | x :: xs' => s' ← body x s; for_each body xs' s'
  end.

(** [m[k]] on a dict kept in insertion order. *)
Fixpoint dict_get {A : Type} (m : list (string * A)) (k : string) : result A :=
  match m with
  | [] => Raise KeyError
  | (k', a) :: m' => if decide (k' = k) then Ok a else dict_get m' k
  end.

(** [sorted(l, key=...)] on items paired with their string keys.  Python's
    sort is stable and compares [str] keys code point by code point; an
    item is put in front of the first item whose key is not smaller. *)
Fixpoint sorted_insert {A : Type} (x : string * A) (l : list (string * A))
  : list (string * A) :=
  match l with
  | [] => [x]
  | y :: l' => if String.leb x.1 y.1 then x :: l else y :: sorted_insert x l'
  end.

Definition py_sorted {A : Type} (l : list (string * A)) : list (string * A) :=
  foldr sorted_insert [] l.

(** The order of the keys: Python's [<=] on [str]. *)
Definition key_le {A : Type} (x y : string * A) : Prop :=
  String.leb x.1 y.1 = true.

(* ================================================================= *)
(** ** Families, native groups and the flat index layout *)

(** A family is known by its name (gas, dm, star, ...). *)
Abbreviation family := string (only parsing).

(** [GadgetHDFSnap._size_from_hdf5_key] *)
Definition snap_size_from_hdf5_key : string := "ParticleIDs".
(** [GadgetHDFSnap._mass_pynbody_name] and [_eps_pynbody_name] *)
Definition _mass_pynbody_name : string := "mass".
Definition _eps_pynbody_name : string := "eps".

(** [slice(start, stop)] *)
Abbreviation slice := (nat * nat)%type (only parsing).

(** What [__init_file_map] leaves in the snapshot. *)
Record file_map : Type := FileMap {
  _gadget_ptype_slice : gmap string slice;
  _family_slice : gmap family slice;
  _num_particles : nat
}.

Section Layout.
Context {V dtype : Type}.
Variable cls : manager_class.
(** The files, and the shard objects that iterating the file manager
    yields, in order (reading the layout changes neither). *)
Variable d : disk V dtype.
Variable hdf_files : list ref.

(** What the loop of [iter_particle_groups_with_name] yields for one shard:
    the group of that name, if the shard has it and it holds the size
    marker. *)
Definition particle_group_in (hdf_family_name : string) (hdf : ref) : list ref :=
  if h5_contains d hdf hdf_family_name then
    match h5_getitem d hdf hdf_family_name with
    | Ok g => if h5_contains d g (_size_from_hdf5_key cls) then [g] else []
    | Raise _ => []
    end
  else [].

(** [_GadgetHdfMultiFileManager.iter_particle_groups_with_name] *)
Definition iter_particle_groups_with_name (hdf_family_name : string)
  : list ref :=
  hdf_files ≫= particle_group_in hdf_family_name.

(** [__init_family_map], from the configured [_default_type_map]. *)
Definition __init_family_map (_default_type_map : list (family * list string))
  : list (family * list string) :=
  omap (λ '(fam, g_types),
          let my_types :=
            filter (λ x, Exists (λ hdf, h5_contains d hdf x = true) hdf_files)
                   g_types in
          match my_types with
          | [] => None
          | _ => Some (fam, my_types)
          end) _default_type_map.

Variable _family_to_group_map : list (family * list string).

(** [_all_hdf_groups_in_family] *)
Definition _all_hdf_groups_in_family (fam : family) : result (list ref) :=
  names ← dict_get _family_to_group_map fam;
  Ok (names ≫= iter_particle_groups_with_name).

(** [_families_ordered] *)
Definition _families_ordered : result (list family) :=
  keyed ← mapM (λ v, names ← dict_get _family_to_group_map v;
                     key ← py_index names 0;
                     Ok (key, v))
               (_family_to_group_map.*1);
  Ok ((py_sorted keyed).*2).

(** The innermost loop of [__init_file_map]: the particles of one native
    group over all shards. *)
Definition ptype_slice_len (particle_type : string) : result nat :=
  for_each (λ hdf_group len,
              ids ← h5_getitem d hdf_group snap_size_from_hdf5_key;
              n ← h5_size d ids;
              Ok (len + n))
           (iter_particle_groups_with_name particle_type) 0.

(** The body of the loop over the native groups of a family; the state is
    [_gadget_ptype_slice], [family_length] and [ptype_slice_start]. *)
Definition file_map_ptype (particle_type : string)
    (st : gmap string slice * nat * nat)
  : result (gmap string slice * nat * nat) :=
  let '(ptype_slice, family_length, ptype_slice_start) := st in
  len ← ptype_slice_len particle_type;
  Ok (<[particle_type := (ptype_slice_start, ptype_slice_start + len)]>
        ptype_slice,
      family_length + len,
      ptype_slice_start + len).

(** The body of the loop over the families; the state is
    [_gadget_ptype_slice], [_family_slice] and [family_slice_start]. *)
Definition file_map_family (fam : family)
    (st : gmap string slice * gmap family slice * nat)
  : result (gmap string slice * gmap family slice * nat) :=
  let '(ptype_slice, family_slice, family_slice_start) := st in
  names ← dict_get _family_to_group_map fam;
  '(ptype_slice', family_length, _) ←
    for_each file_map_ptype names (ptype_slice, 0, family_slice_start);
  Ok (ptype_slice',
      <[fam := (family_slice_start, family_slice_start + family_length)]>
        family_slice,
      family_slice_start + family_length).

(** [__init_file_map]; [family_slice0] is the [_family_slice] dict the
    snapshot holds on entry. *)
Definition __init_file_map (family_slice0 : gmap family slice)
  : result file_map :=
  all_families_sorted ← _families_ordered;
  '(ptype_slice, family_slice, family_slice_start) ←
    for_each file_map_family all_families_sorted (∅, family_slice0, 0);
  Ok (FileMap ptype_slice family_slice family_slice_start).

(** Every size-marker entry met while building the layout is a dataset. *)
Definition sizes_are_datasets (names : list string) : bool :=
  forallb (λ name,
    forallb (λ g,
      match h5_getitem d g snap_size_from_hdf5_key with
      | Ok ids => is_Ok (h5_size d ids)
      | Raise _ => false
      end) (iter_particle_groups_with_name name)) names.

End Layout.

(** *** What an exact partition is *)

Definition in_slice (i : nat) (s : slice) : Prop := (s.1 ≤ i < s.2)%nat.

(** The slices follow one another from [a] to [b] without a gap. *)
Inductive chain : nat → nat → list slice → Prop :=
| chain_nil (a : nat) : chain a a []
| chain_cons (a b c : nat) (l : list slice) :
    (a ≤ b)%nat → chain b c l → chain a c ((a, b) :: l).

(** The slices [l] are an exact partition of [[a, b)]: contiguous, jointly
    covering [[a, b)] and nothing else, and pairwise disjoint. *)
Definition exact_partition (a b : nat) (l : list slice) : Prop :=
  chain a b l ∧
  (∀ i, (a ≤ i < b)%nat ↔ ∃ k s, l !! k = Some s ∧ in_slice i s) ∧
  (∀ i j k s t, l !! j = Some s → l !! k = Some t →
                in_slice i s → in_slice i t → j = k).

(** [_family_to_group_map[fam][0]], the sort key of [_families_ordered]
    (the empty string where the code would raise). *)
Definition first_group (fmap : list (family * list string)) (fam : family)
  : string :=
  match dict_get fmap fam with
  | Ok (g :: _) => g
  | _ => ""
  end.

(** The groups of a family, as the layout loop reads them. *)
Definition groups_of (fmap : list (family * list string)) (fam : family)
  : list string :=
  match dict_get fmap fam with Ok gs => gs | Raise _ => [] end.

(** The numeric type index of a native group name: the decimal number
    after [PartType]. *)
Fixpoint digits_value (acc : N) (s : string) : option N :=
  match s with
  | EmptyString => Some acc
  | String c s' =>
      let n := N_of_ascii c in
      if (48 <=? n)%N && (n <=? 57)%N
      then digits_value (acc * 10 + (n - 48)) s'
      else None
  end.

Definition type_index (name : string) : option N :=
  if String.prefix "PartType" name then
    match substring 8 (String.length name - 8) name with
    | EmptyString => None
    | digits => digits_value 0 digits
    end
  else None.

(** A native group name made of [PartType] and one decimal digit. *)
Definition single_digit_type (name : string) : Prop :=
  ∃ c : ascii, name = "PartType" ++ String c "" ∧
               (48 ≤ N_of_ascii c ≤ 57)%N.

(** [n] is the numeric type index of [name]. *)
Definition numeric_key (name : string) : N :=
  default 0%N (type_index name).

(* ================================================================= *)
(** ** Unit inference from a description string *)

(** What the parser takes from outside this module: [pynbody.units],
    [fractions.Fraction] and the built-in [float]. *)
Class UnitAlgebra (U Frac : Type) : Type := {
  (** [units.Unit('1.0')] *)
  unit_one : U;
  (** [u * v] and [u ** q] on units *)
  unit_mul : U → U → U;
  unit_pow : U → Frac → U;
  (** [u.in_units(s)] for the name [s] of a cgs unit *)
  in_units : U → string → result float;
  (** [util.fractions.Fraction.from_float(float(x)).limit_denominator()] *)
  limit_fraction : float → result Frac;
  (** [x ** q] on a float [x] *)
  float_pow : float → Frac → float;
  (** [float(s)] on a [str] *)
  py_float : string → result float
}.

(** [np.allclose(a, b, rtol, atol)] on two scalars: numpy tests
    [|a - b| <= atol + rtol * |b|] for a finite [b], and equality
    otherwise. *)
Definition np_allclose (a b rtol atol : float) : bool :=
  (PrimFloat.leb (PrimFloat.abs (a - b)) (atol + rtol * PrimFloat.abs b)
   && PrimFloat.is_finite b)
  || PrimFloat.eqb a b.

(** numpy's default tolerances, [rtol=1e-05] and [atol=1e-08]. *)
Definition np_default_rtol : float := 0x1.4f8b588e368f1p-17%float.
Definition np_default_atol : float := 0x1.5798ee2308c3ap-27%float.
(** The literal [1e-3]. *)
Definition rtol_1e_3 : float := 0x1.0624dd2f1a9fcp-10%float.

(** [s[i]] on a [str] and a non-negative [i] *)
Definition py_str_index (s : string) (i : nat) : result ascii :=
  match String.get i s with
  | Some c => Ok c
  | None => Raise IndexError
  end.

(** [s[k:-1]] for [0 <= k]: from [k] up to, not including, the last
    character. *)
Definition py_slice_to_last (s : string) (k : nat) : string :=
  substring k (String.length s - 1 - k) s.

(** The ASCII characters [str.split()] splits at. *)
Definition is_space (c : ascii) : bool :=
  let n := nat_of_ascii c in
  ((9 <=? n)%nat && (n <=? 13)%nat) || ((28 <=? n)%nat && (n <=? 32)%nat).

(** [s.split()]: the maximal runs without white space; [cur] is the run
    being read. *)
Fixpoint py_split_from (cur : string) (s : string) : list string :=
  match s with
  | EmptyString => match cur with EmptyString => [] | _ => [cur] end
  | String c s' =>
      if is_space c then
        match cur with
        | EmptyString => py_split_from "" s'
        | _ => cur :: py_split_from "" s'
        end
      else py_split_from (cur ++ String c "") s'
  end.

Definition py_split (s : string) : list string := py_split_from "" s.

(** The fixed symbols of [_hdf_unitvar], in the order [_init_unit_information]
    puts them into the dict. *)
Definition hdf_unit_symbols : list string :=
  ["U_V"; "U_L"; "U_M"; "U_T"; "[K]"; "SEC_PER_YEAR"; "SOLAR_MASS";
   "solar masses / yr"; "BH smoothing"].

Section Description.
Context `{UnitAlgebra U Frac}.
(** The tables [_init_unit_information] leaves in the snapshot. *)
Variable _hdf_unitvar : list (string * U).
Variable _hdf_cgsvar : list (string * string).

(** The exponent of [unitname], whose first occurrence in [description]
    starts at [sstart = description.find(unitname)]. *)
Definition symbol_power_at (description unitname : string) (sstart : nat)
  : result float :=
  let power := 1%float in
  power ← (if (0 <? sstart)%nat then
             c ← py_str_index description (sstart - 1);
             if Ascii.eqb c "/" then Ok (power * -1)%float else Ok power
           else Ok power);
  let after := (sstart + String.length unitname)%nat in
  if (after <? String.length description)%nat then
    c ← py_str_index description after;
    if Ascii.eqb c "^" then
      c' ← py_str_index description (after + 1);
      if Ascii.eqb c' "-" then
        let power := (power * -1)%float in
        tok ← py_index (py_split (py_slice_to_last description (after + 2))) 0;
        x ← py_float tok;
        Ok (power * x)%float
      else
        tok ← py_index (py_split (py_slice_to_last description (after + 1))) 0;
        x ← py_float tok;
        Ok (power * x)%float
    else Ok power
  else Ok power.

(** The same for a symbol that is in the description ([None] when it is
    not, where the code does not look for an exponent). *)
Definition symbol_power (description unitname : string)
  : option (result float) :=
  symbol_power_at description unitname <$> String.index 0 unitname description.

(** One turn of the loop over the symbols; the state is [arr_units] and
    [conversion]. *)
Definition description_step (description unitname : string) (st : U * float)
  : result (U * float) :=
  let '(arr_units, conversion) := st in
  match symbol_power description unitname with
  | None => Ok st
  | Some r =>
      power ← r;
      arr_units ←
        (if negb (np_allclose power 0 np_default_rtol np_default_atol) then
           u ← dict_get _hdf_unitvar unitname;
           q ← limit_fraction power;
           Ok (unit_mul arr_units (unit_pow u q))
         else Ok arr_units);
      conversion ←
        (if negb (np_allclose power 0 np_default_rtol np_default_atol) then
           u ← dict_get _hdf_unitvar unitname;
           cgs ← dict_get _hdf_cgsvar unitname;
           x ← in_units u cgs;
           q ← limit_fraction power;
           Ok (conversion * float_pow x q)%float
         else Ok conversion);
      Ok (arr_units, conversion)
  end.

(** The loop of [_get_units_from_description]: the inferred unit and the
    pure-cgs conversion factor. *)
Definition description_units (description : string) : result (U * float) :=
  for_each (description_step description) _hdf_unitvar.*1 (unit_one, 1%float).

(** [_get_units_from_description] *)
Definition _get_units_from_description (description : string)
    (expectedCgsConversionFactor : option float) : result U :=
  '(arr_units, conversion) ← description_units description;
  match expectedCgsConversionFactor with
  | Some expected =>
      if negb (np_allclose conversion expected rtol_1e_3 np_default_atol)
      then Raise UnitsException
      else Ok arr_units
  | None => Ok arr_units
  end.

End Description.

(** The last character of a string. *)
Fixpoint last_char (s : string) : option ascii :=
  match s with
  | EmptyString => None
  | String c EmptyString => Some c
  | String _ s' => last_char s'
  end.

(** A token of [str.split()]: not empty, no white space in it. *)
Fixpoint no_space (s : string) : bool :=
  match s with
  | EmptyString => true
  | String c s' => negb (is_space c) && no_space s'
  end.

Definition is_token (s : string) : Prop := s ≠ "" ∧ no_space s = true.

(** The exponent a leading slash leaves: [1.] times [-1.], or [1.]. *)
Definition slash_power (pre : string) : float :=
  match last_char pre with
  | Some c => if Ascii.eqb c "/" then (1 * -1)%float else 1%float
  | None => 1%float
  end.

(** The two numbers differ by more than the relative tolerance [rtol]:
    [|a - b| > rtol * |b|]. *)
Definition differs_beyond (rtol a b : float) : bool :=
  PrimFloat.ltb (rtol * PrimFloat.abs b) (PrimFloat.abs (a - b)).

(* ================================================================= *)
(** ** What the snapshot takes from its surroundings *)

(** Modelled from the spec: the NameTranslator (section 4.3), built by
    [namemapper.AdaptiveNameMapper(..., return_all_format_names=True)]:
    [to_native] gives the candidate native names of a canonical name in
    priority order, [to_canonical] the canonical name of a native one. *)
Class NameMapper : Type := {
  _translate_array_name : string → list string;
  _translate_array_name_reverse : string → string
}.

(** A number read from an attribute: a float or an integer. *)
Inductive scalar : Type :=
| SFloat (x : float)
| SInt (z : Z).

(** [x > 0] *)
Definition scalar_positive (x : scalar) : bool :=
  match x with
  | SFloat x => PrimFloat.ltb 0 x
  | SInt z => (0 <? z)%Z
  end.

(** numpy's element types and conversions: [np.float64], the zero a fresh
    array or dataset is filled with, storing a number into an array of a
    given element type, and converting a stored element on a read into
    such an array. *)
Class ArrayModel (V dtype : Type) : Type := {
  np_float64 : dtype;
  zero : V;
  cast_scalar : dtype → scalar → V;
  cast : dtype → V → V
}.

(** An in-memory array: element type, shape, elements in C order. *)
Record ndarray (V dtype : Type) : Type := NdArray {
  a_dtype : dtype;
  a_shape : list nat;
  a_data : list V
}.
Arguments NdArray {V dtype} a_dtype a_shape a_data.
Arguments a_dtype {V dtype} n.
Arguments a_shape {V dtype} n.
Arguments a_data {V dtype} n.

(** [s.split(sep)] for a one-character separator: never empty. *)
Fixpoint py_split_on_from (sep : ascii) (cur : string) (s : string) : list string :=
  match s with
  | EmptyString => [cur]
  | String c s' =>
      if Ascii.eqb c sep then cur :: py_split_on_from sep "" s'
      else py_split_on_from sep (cur ++ String c "") s'
  end.

Definition py_split_on (sep : ascii) (s : string) : list string :=
  py_split_on_from sep "" s.

(** [l[-1]] *)
Definition py_last {A : Type} (l : list A) : result A :=
  match last l with Some a => Ok a | None => Raise IndexError end.

Section Arrays.
Context {V dtype : Type}.

(** [a[i0:i1]] along the first axis; the bounds are clipped as numpy does. *)
Definition nd_slice (a : ndarray V dtype) (i0 i1 : nat) : result (ndarray V dtype) :=
  match a_shape a with
  | [] => Raise IndexError
  | n :: inner =>
      let lo := i0 `min` n in
      let hi := lo `max` (i1 `min` n) in
      let row := shape_size inner in
      Ok (NdArray (a_dtype a) ((hi - lo) :: inner)
                  (take ((hi - lo) * row) (drop (lo * row) (a_data a))))
  end.

(** [a.size] *)
Definition nd_size (a : ndarray V dtype) : nat := shape_size (a_shape a).

(** [a.reshape(shape)] *)
Definition nd_reshape (a : ndarray V dtype) (shape : list nat)
  : result (ndarray V dtype) :=
  if decide (shape_size shape = nd_size a)
  then Ok (NdArray (a_dtype a) shape (a_data a))
  else Raise ValueError.

End Arrays.

(* ================================================================= *)
(** ** Writing an array back: [write_array] *)

(** The message of the error that refuses the mass block. *)
Definition mass_block_message : string :=
  "Unable to write the mass block due to Gadget header format".

(** The state [write_array] works on: the file manager and the files. *)
Record world (V dtype : Type) : Type := World {
  w_files : manager;
  w_disk : disk V dtype
}.
Arguments World {V dtype} w_files w_disk.
Arguments w_files {V dtype} w.
Arguments w_disk {V dtype} w.

Section Write.
Context {V dtype : Type} `{EqDecision dtype} `{NameMapper} `{ArrayModel V dtype}.

(** A statement that may raise and may change the state; the state it
    leaves is there in either case. *)
Definition W (A : Type) : Type := world V dtype → result A * world V dtype.

Definition wret {A} (a : A) : W A := λ w, (Ok a, w).
Definition wraise {A} (e : exn) : W A := λ w, (Raise e, w).
Definition wlift {A} (r : result A) : W A := λ w, (r, w).
Definition wbind {A B} (m : W A) (k : A → W B) : W B :=
  λ w, match m w with
       | (Ok a, w') => k a w'
       | (Raise e, w') => (Raise e, w')
       end.

(** [try: body finally: cleanup], for a cleanup that cannot raise. *)
Definition try_finally {A} (body : W A) (cleanup : world V dtype → world V dtype)
  : W A :=
  λ w, let '(r, w') := body w in (r, cleanup w').

(** A [for] loop in [W]. *)
Fixpoint wfor {S X : Type} (body : X → S → W S) (xs : list X) (s : S) : W S :=
  match xs with
  | [] => wret s
  | x :: xs' => wbind (body x s) (wfor body xs')
  end.

(** The manager's methods on the state. *)
Definition w_reopen_in_mode (mode : hmode) (w : world V dtype) : world V dtype :=
  World (reopen_in_mode mode (w_files w)) (w_disk w).

Definition w_iter_yield (i : Z) : W ref :=
  λ w, let '(r, m) := iter_yield (w_disk w) i (w_files w) in
       (r, World m (w_disk w)).

(** [group.require_dataset(name, shape, dtype, exact=True)]: the dataset of
    that name if it is there with this very shape and element type, a new
    zero-filled one if the name is free.  A file opened read-only refuses
    the creation. *)
Definition require_dataset (g : ref) (name : string) (shape : list nat)
    (dt : dtype) : W ref :=
  λ w,
    match resolve (w_disk w) g with
    | Some (Group _ kids) =>
        let r := Ref (r_file g) (r_mode g) (r_path g ++ [name]) in
        match kids !! name with
        | None =>
            match r_mode g with
            | ModeR => (Raise ValueError, w)
            | ModeRW =>
                let fresh := Dataset dt shape (replicate (shape_size shape) zero) ∅ in
                let add n := match n with
                             | Group a kids => Group a (<[name := fresh]> kids)
                             | Dataset _ _ _ _ => n
                             end in
                (Ok r, World (w_files w) (disk_alter add g (w_disk w)))
            end
        | Some (Dataset dt' shape' _ _) =>
            if decide (shape = shape') then
              if decide (dt = dt') then (Ok r, w) else (Raise TypeError, w)
            else (Raise TypeError, w)
        | Some (Group _ _) => (Raise TypeError, w)
        end
    | Some (Dataset _ _ _ _) => (Raise AttributeError, w)
    | None => (Raise KeyError, w)
    end.

(** [dataset.write_direct(source)] for a source of the dataset's shape. *)
Definition write_direct (ds : ref) (source : ndarray V dtype) : W unit :=
  λ w,
    match resolve (w_disk w) ds with
    | Some (Dataset dt shape _ _) =>
        match r_mode ds with
        | ModeR => (Raise (OSError "Can't write data"), w)
        | ModeRW =>
            if decide (a_shape source = shape) then
              let put n := match n with
                           | Dataset dt shape _ a =>
                               Dataset dt shape (cast dt <$> a_data source) a
                           | Group _ _ => n
                           end in
              (Ok (), World (w_files w) (disk_alter put ds (w_disk w)))
            else (Raise TypeError, w)
        end
    | _ => (Raise AttributeError, w)
    end.

(** [_get_or_create_hdf_dataset] *)
Definition _get_or_create_hdf_dataset (particle_group : ref) (hdf_name : string)
    (shape : list nat) (dt : dtype) : W ref :=
  if decide (_translate_array_name_reverse hdf_name = _mass_pynbody_name) then
    wraise (OSError mass_block_message)
  else
    let parts := py_split_on "/" hdf_name in
    wbind (λ w, (for_each (λ tpart ret, h5_getitem (w_disk w) ret tpart)
                          (removelast parts) particle_group, w))
          (λ ret,
             wbind (wlift (py_last parts))
                   (λ dataset_name, require_dataset ret dataset_name shape dt)).

(** The part of the snapshot held in memory: [self.families()] and the
    arrays [self[fam][name]] (a lookup that fails raises). *)
Record memory : Type := Memory {
  families : list family;
  family_array : family → string → result (ndarray V dtype)
}.

Variable cls : manager_class.
Variable _family_to_group_map : list (family * list string).

(** The generator [_all_hdf_groups_in_family(fam)] driving a loop body:
    for every group name of the family, for every shard the manager
    yields, the body runs on the group if the shard has it and the group
    has the size marker.  The shards are opened, and the files looked at,
    as the loop goes. *)
Definition for_hdf_groups_in_family {S : Type} (body : ref → S → W S)
    (fam : family) (s : S) : W S :=
  wbind (wlift (dict_get _family_to_group_map fam))
        (λ names,
           wfor (λ hdf_family_name s w,
                   wfor (λ i s,
                           wbind (w_iter_yield i)
                                 (λ hdf w,
                                    wfor body
                                      (particle_group_in cls (w_disk w)
                                         hdf_family_name hdf) s w))
                        (py_range (_numfiles (w_files w))) s w)
                names s).

(** The body of the loop over the groups in [write_array]; the state is
    [i0]. *)
Definition write_group (translated_name : string)
    (target_array : ndarray V dtype) (hdf : ref) (i0 : nat) : W nat :=
  wbind (λ w, (ids ← h5_getitem (w_disk w) hdf "ParticleIDs";
               h5_size (w_disk w) ids, w))
        (λ npart,
           let i1 := (i0 + npart)%nat in
           wbind (wlift (nd_slice target_array i0 i1))
                 (λ target_array_this,
                    wbind (_get_or_create_hdf_dataset hdf translated_name
                             (a_shape target_array_this)
                             (a_dtype target_array_this))
                          (λ dataset,
                             wbind (λ w, (shape ← h5_shape (w_disk w) dataset;
                                          nd_reshape target_array_this shape, w))
                                   (λ source,
                                      wbind (write_direct dataset source)
                                            (λ _, wret i1))))).

(** The [try] block of [write_array]. *)
Definition write_array_body (mem : memory) (array_name translated_name : string)
    (fam : option family) : W unit :=
  let all_fams_to_write :=
    match fam with
    | None => families mem
    | Some fam => [fam]
    end in
  wfor (λ writing_fam (_ : unit),
          wbind (wlift (family_array mem writing_fam array_name))
                (λ target_array,
                   wbind (for_hdf_groups_in_family
                            (write_group translated_name target_array)
                            writing_fam 0%nat)
                         (λ _, wret ())))
       all_fams_to_write ().

(** [write_array] *)
Definition write_array (mem : memory) (array_name : string)
    (fam : option family) : W unit :=
  wbind (wlift (py_index (_translate_array_name array_name) 0))
        (λ translated_name w,
           try_finally (write_array_body mem array_name translated_name fam)
                       (w_reopen_in_mode ModeR)
                       (w_reopen_in_mode ModeRW w)).

(** A statement keeps the relation [R] between the state it starts in and
    the state it leaves, whatever it returns or raises. *)
Definition preserves {A} (R : relation (world V dtype)) (m : W A) : Prop :=
  ∀ w r w', m w = (r, w') → R w w'.

(** The manager keeps its class, mode, file names and file count. *)
Definition same_files : relation (world V dtype) :=
  λ w w', same_shards (w_files w) (w_files w').

(** The files are untouched. *)
Definition same_disk : relation (world V dtype) :=
  λ w w', w_disk w' = w_disk w.

(** Both relations together. *)
Definition same_files_and_disk : relation (world V dtype) :=
  λ w w', same_files w w' ∧ same_disk w w'.

End Write.

(* ================================================================= *)
(** ** Loading an array: [_load_array] *)

(** [_DummyHDFData] *)
Record _DummyHDFData (dtype : Type) : Type := DummyHDFData {
  dummy_value : scalar;
  dummy_length : nat;
  dummy_size : nat;
  dummy_shape : list nat;
  dummy_dtype : dtype
}.
Arguments DummyHDFData {dtype} dummy_value dummy_length dummy_size dummy_shape
  dummy_dtype.
Arguments dummy_value {dtype} _.
Arguments dummy_length {dtype} _.
Arguments dummy_size {dtype} _.
Arguments dummy_shape {dtype} _.
Arguments dummy_dtype {dtype} _.

(** [_DummyHDFData.__init__] *)
Definition new_DummyHDFData {dtype : Type} (value : scalar) (length : nat)
    (dt : dtype) : _DummyHDFData dtype :=
  DummyHDFData value length length [length] dt.

(** What [_get_hdf_dataset] returns: a stand-in for a header value, or an
    object of a file. *)
Inductive hdf_data (dtype : Type) : Type :=
| Dummy (dummy : _DummyHDFData dtype)
| OnDisk (r : ref).
Arguments Dummy {dtype} dummy.
Arguments OnDisk {dtype} r.

(** [int(c)] for a one-character string. *)
Definition py_int_of_char (c : ascii) : result nat :=
  let n := nat_of_ascii c in
  if (48 <=? n)%nat && (n <=? 57)%nat then Ok (n - 48)%nat else Raise ValueError.

(** [a[i]] for an attribute value [a]: an array gives its element, a scalar
    cannot be indexed, a string gives a character (which then cannot be
    compared with a number). *)
Definition attr_index (a : attr) (i : nat) : result scalar :=
  match a with
  | AFloats l => SFloat <$> py_index l i
  | AInts l => SInt <$> py_index l i
  | AFloat _ | AInt _ => Raise IndexError
  | AStr s => _ ← py_str_index s i; Raise TypeError
  end.

(** The fields of the snapshot that loading reads. *)
Record snapshot (dtype : Type) : Type := Snapshot {
  snap_family_to_group_map : list (family * list string);
  snap_file_map : file_map;
  _mass_dtype : dtype;
  _loadable_keys : list string;
  _loadable_family_keys : list (family * list string);
  (** [self.families()] *)
  snap_families : list family
}.
Arguments Snapshot {dtype} _ _ _ _ _ _.
Arguments snap_family_to_group_map {dtype} _.
Arguments snap_file_map {dtype} _.
Arguments _mass_dtype {dtype} _.
Arguments _loadable_keys {dtype} _.
Arguments _loadable_family_keys {dtype} _.
Arguments snap_families {dtype} _.

(** What [_load_array] leaves: the array it created and filled, and the
    unit attached to it. *)
Record loaded (V dtype U : Type) : Type := Loaded {
  l_array : ndarray V dtype;
  l_units : U
}.
Arguments Loaded {V dtype U} l_array l_units.
Arguments l_array {V dtype U} _.
Arguments l_units {V dtype U} _.

Section Load.
Context {V dtype U : Type} `{NameMapper} `{ArrayModel V dtype}.
Variable cls : manager_class.
(** The files, and the shard objects that iterating the file manager
    yields, in order (loading changes neither). *)
Variable d : disk V dtype.
Variable hdf_files : list ref.
(** [_get_softening_for_particle_group]: the softening length of a group,
    from the parameter attributes of the first shard and the scale factor
    among the snapshot properties; [None] when the parameters have none. *)
Variable _get_softening_for_particle_group : ref → result (option scalar).
(** [_get_units_from_hdf_attr], which the snapshot classes override, and
    [units.NoUnit()]. *)
Variable _get_units_from_hdf_attr : gmap string attr → result U.
Variable no_unit : U.

Variable self : snapshot dtype.

(** [ret = particle_group; for tpart in hdf_name.split("/"): ret = ret[tpart]] *)
Definition hdf_path (particle_group : ref) (hdf_name : string) : result ref :=
  for_each (λ tpart ret, h5_getitem d ret tpart) (py_split_on "/" hdf_name)
           particle_group.

(** The size the stand-ins take: [particle_group[self._size_from_hdf5_key].size] *)
Definition group_size (particle_group : ref) : result nat :=
  ids ← h5_getitem d particle_group snap_size_from_hdf5_key;
  h5_size d ids.

(** [particle_group.parent['Header'].attrs['MassTable'][pgid]] for
    [pgid = int(particle_group.name[-1])] *)
Definition mass_table_entry (particle_group : ref) : result scalar :=
  c ← py_last (list_ascii_of_string (h5_name particle_group));
  pgid ← py_int_of_char c;
  header ← h5_getitem d (h5_parent particle_group) "Header";
  table ← match h5_attrs d header !! "MassTable" with
          | Some a => Ok a
          | None => Raise KeyError
          end;
  attr_index table pgid.

(** The [try] block of [_get_hdf_dataset] for the mass: the stand-in for a
    positive header mass, [None] when the header entry is not positive. *)
Definition header_mass (particle_group : ref)
  : result (option (_DummyHDFData dtype)) :=
  mtab ← mass_table_entry particle_group;
  if scalar_positive mtab then
    n ← group_size particle_group;
    Ok (Some (new_DummyHDFData mtab n (_mass_dtype self)))
  else Ok None.

(** [_get_hdf_dataset] *)
Definition _get_hdf_dataset (particle_group : ref) (hdf_name : string)
  : result (hdf_data dtype) :=
  if decide (_translate_array_name_reverse hdf_name = _mass_pynbody_name) then
    match header_mass particle_group with
    | Ok (Some dummy) => Ok (Dummy dummy)
    | Ok None => OnDisk <$> hdf_path particle_group hdf_name
    | Raise e =>
        if decide (e = IndexError ∨ e = KeyError)
        then OnDisk <$> hdf_path particle_group hdf_name
        else Raise e
    end
  else if decide (_translate_array_name_reverse hdf_name = _eps_pynbody_name) then
    eps ← _get_softening_for_particle_group particle_group;
    match eps with
    | Some eps =>
        n ← group_size particle_group;
        Ok (Dummy (new_DummyHDFData eps n (_mass_dtype self)))
    | None => OnDisk <$> hdf_path particle_group hdf_name
    end
  else OnDisk <$> hdf_path particle_group hdf_name.

(** Attributes of what [_get_hdf_dataset] returned. *)
Definition data_size (x : hdf_data dtype) : result nat :=
  match x with
  | Dummy dummy => Ok (dummy_size dummy)
  | OnDisk r => h5_size d r
  end.

Definition data_len (x : hdf_data dtype) : result nat :=
  match x with
  | Dummy dummy => Ok (dummy_length dummy)
  | OnDisk r => h5_len d r
  end.

Definition data_shape (x : hdf_data dtype) : result (list nat) :=
  match x with
  | Dummy dummy => Ok (dummy_shape dummy)
  | OnDisk r => h5_shape d r
  end.

Definition data_dtype (x : hdf_data dtype) : result dtype :=
  match x with
  | Dummy dummy => Ok (dummy_dtype dummy)
  | OnDisk r => h5_dtype d r
  end.

(** [dataset.read_direct(target)] for a target of [n] elements of type
    [dt]: the elements the target holds afterwards.  The stand-in assigns
    its value to every element. *)
Definition read_direct (x : hdf_data dtype) (dt : dtype) (n : nat)
  : result (list V) :=
  match x with
  | Dummy dummy => Ok (replicate n (cast_scalar dt (dummy_value dummy)))
  | OnDisk r => fmap (M := list) (cast dt) <$> h5_data d r
  end.

(** [_all_hdf_groups], over the group names of the configured type map. *)
Definition _all_hdf_groups (_all_hdf_particle_groups : list string) : list ref :=
  _all_hdf_particle_groups ≫= iter_particle_groups_with_name cls d hdf_files.

(** [__infer_mass_dtype] *)
Definition __infer_mass_dtype (_all_hdf_particle_groups : list string)
  : result dtype :=
  for_each (λ hdf mass_dtype,
              if h5_contains d hdf "Coordinates" then
                c ← h5_getitem d hdf "Coordinates";
                h5_dtype d c
              else Ok mass_dtype)
           (_all_hdf_groups _all_hdf_particle_groups) np_float64.

(** [loadable_keys] and [_family_has_loadable_array] *)
Definition loadable_keys (fam : option family) : result (list string) :=
  match fam with
  | None => Ok (_loadable_keys self)
  | Some fam => dict_get (_loadable_family_keys self) fam
  end.

Definition _family_has_loadable_array (fam : option family) (name : string)
  : result bool :=
  keys ← loadable_keys fam;
  Ok (bool_decide (name ∈ keys)).

(** The inner loop of [__get_dtype_dims_and_units] for the shard [hdf0]:
    the candidate names are tried in turn until one resolves; the state is
    [representative_dset] and the loop variable [translated_name]. *)
Fixpoint probe_names (fam : family) (hdf0 : ref) (translated_names : list string)
    (st : option (hdf_data dtype) * option string)
  : result (option (hdf_data dtype) * option string) :=
  match translated_names with
  | [] => Ok st
  | translated_name :: rest =>
      match (names ← dict_get (snap_family_to_group_map self) fam;
             name ← py_index names 0;
             g ← h5_getitem d hdf0 name;
             _get_hdf_dataset g translated_name) with
      | Ok x => Ok (Some x, Some translated_name)
      | Raise e =>
          if decide (e = KeyError)
          then probe_names fam hdf0 rest (st.1, Some translated_name)
          else Raise e
      end
  end.

(** The state of the outer loop: [representative_dset], [representative_hdf],
    [inferred_units] and [translated_name]. *)
Record probe_state : Type := ProbeState {
  representative_dset : option (hdf_data dtype);
  representative_hdf : option ref;
  inferred_units : U;
  last_translated_name : option string
}.

(** The loop of [__get_dtype_dims_and_units] over the shards. *)
Fixpoint probe_shards (fam : family) (translated_names : list string)
    (hdfs : list ref) (st : probe_state) : result probe_state :=
  match hdfs with
  | [] => Ok st
  | hdf0 :: rest =>
      '(dset, name) ← probe_names fam hdf0 translated_names
                        (representative_dset st, last_translated_name st);
      match dset with
      | None =>
          probe_shards fam translated_names rest
            (ProbeState dset (representative_hdf st) (inferred_units st) name)
      | Some x =>
          units ← match x with
                  | OnDisk r => _get_units_from_hdf_attr (h5_attrs d r)
                  | Dummy _ => Ok (inferred_units st)
                  end;
          n ← data_len x;
          let st' := ProbeState dset (Some hdf0) units name in
          if decide (n ≠ 0%nat) then Ok st'
          else probe_shards fam translated_names rest st'
      end
  end.

(** [__get_dtype_dims_and_units] *)
Definition __get_dtype_dims_and_units (fam : option family)
    (translated_names : list string) : result (dtype * nat * U) :=
  fam ← match fam with
        | None => py_index (snap_families self) 0
        | Some fam => Ok fam
        end;
  st ← probe_shards fam translated_names hdf_files
         (ProbeState None None no_unit None);
  match representative_dset st, representative_hdf st with
  | Some x, Some hdf =>
      shape ← data_shape x;
      if decide (2 < length shape)%nat then Raise AssertionError else
      dy ← match shape with
           | _ :: dy :: _ => Ok dy
           | _ => Ok 1%nat
           end;
      npart ← (names ← dict_get (snap_family_to_group_map self) fam;
               name ← py_index names 0;
               g ← h5_getitem d hdf name;
               ids ← h5_getitem d g "ParticleIDs";
               h5_len d ids);
      n ← data_len x;
      dy ← (if decide (n ≠ npart) then
              if decide (npart = 0%nat) then Raise ZeroDivisionError
              else Ok (n `div` npart)%nat
            else Ok dy);
      dt ← data_dtype x;
      name ← match last_translated_name st with
             | Some name => Ok name
             | None => Raise UnboundLocalError
             end;
      let dt := if decide (name = "Mass") then _mass_dtype self else dt in
      Ok (dt, dy, inferred_units st)
  | _, _ => Raise KeyError
  end.

(** The candidates loop of [_load_array] on one particle group: every
    candidate name is tried, [dataset] is assigned at each one that
    resolves, a [KeyError] moves on to the next.  The loop has no [break];
    [dataset] is the value the variable has when the loop starts. *)
Definition resolve_candidates (hdf : ref) (translated_names : list string)
    (dataset : option (hdf_data dtype)) : result (option (hdf_data dtype)) :=
  for_each (λ translated_name dataset,
              match _get_hdf_dataset hdf translated_name with
              | Ok x => Ok (Some x)
              | Raise e => if decide (e = KeyError) then Ok dataset else Raise e
              end)
           translated_names dataset.

(** Modelled from the spec: the array container of [SimSnap] (out of
    scope, "assumed to behave like a unit-aware N-d array with slicing").
    [_create_array(name, dy, dtype)] makes a zero array of [rows] rows and
    [dy] elements per row; [self[fam][name]] is the view of the rows in
    the slice of [fam] when the array belongs to the whole snapshot, and
    the whole array when it belongs to [fam]; a row slice of a view is a
    view again, so that what [read_direct] stores is stored in the
    array. *)
Definition family_rows (fam : family) : slice :=
  default (0, 0)%nat (_family_slice (snap_file_map self) !! fam).

Definition create_array (rows dy : nat) (dt : dtype) : ndarray V dtype :=
  NdArray dt (if decide (dy = 1%nat) then [rows] else [rows; dy])
          (replicate (rows * dy) zero).

(** The rows the view of [loading_fam] starts at and has. *)
Definition family_view (fam : option family) (loading_fam : family) : nat * nat :=
  let '(start, stop) := family_rows loading_fam in
  match fam with
  | None => (start, stop - start)%nat
  | Some _ => (0, stop - start)%nat
  end.

(** Store [new] from the element at [pos] on. *)
Definition store_elements (data : list V) (pos : nat) (new : list V) : list V :=
  take pos data ++ new ++ drop (pos + length new) data.

(** The state of the loops that fill the array: the variable [dataset],
    the offset [i0] and the elements of the array. *)
Record fill_state : Type := FillState {
  fill_dataset : option (hdf_data dtype);
  fill_i0 : nat;
  fill_data : list V
}.

(** The body of the loop over the particle groups of [loading_fam]. *)
Definition load_group (dt : dtype) (dy : nat) (view : nat * nat)
    (translated_names : list string) (hdf : ref) (st : fill_state)
  : result fill_state :=
  npart ← (ids ← h5_getitem d hdf "ParticleIDs"; h5_size d ids);
  if decide (npart = 0%nat) then Ok st
  else
    let i0 := fill_i0 st in
    let i1 := (i0 + npart)%nat in
    dataset ← resolve_candidates hdf translated_names (fill_dataset st);
    let lo := i0 `min` view.2 in
    let hi := lo `max` (i1 `min` view.2) in
    let target_size := ((hi - lo) * dy)%nat in
    match dataset with
    | None => Raise UnboundLocalError
    | Some x =>
        n ← data_size x;
        if decide (target_size = n) then
          new ← read_direct x dt n;
          Ok (FillState dataset i1
                (store_elements (fill_data st) ((view.1 + lo) * dy) new))
        else Raise AssertionError
    end.

(** The body of the loop over the families to load. *)
Definition load_family (dt : dtype) (dy : nat) (fam : option family)
    (translated_names : list string) (loading_fam : family) (st : fill_state)
  : result fill_state :=
  groups ← _all_hdf_groups_in_family cls d hdf_files
              (snap_family_to_group_map self) loading_fam;
  for_each (load_group dt dy (family_view fam loading_fam) translated_names)
           groups (FillState (fill_dataset st) 0 (fill_data st)).

(** [_load_array] *)
Definition _load_array (array_name : string) (fam : option family)
  : result (loaded V dtype U) :=
  loadable ← _family_has_loadable_array fam array_name;
  if negb loadable then Raise (OSError "No such array on disk")
  else
    let translated_names := _translate_array_name array_name in
    '(dt, dy, units) ← __get_dtype_dims_and_units fam translated_names;
    let dt := if decide (array_name = _mass_pynbody_name)
              then _mass_dtype self else dt in
    let all_fams_to_load :=
      match fam with
      | None => snap_families self
      | Some fam => [fam]
      end in
    let rows :=
      match fam with
      | None => _num_particles (snap_file_map self)
      | Some fam => ((family_rows fam).2 - (family_rows fam).1)%nat
      end in
    let target := create_array rows dy dt in
    st ← for_each (load_family dt dy fam translated_names) all_fams_to_load
           (FillState None 0 (a_data target));
    Ok (Loaded (NdArray (a_dtype target) (a_shape target) (fill_data st)) units).

(** The number of particles of a group, as the loader counts them (0 where
    the count cannot be read). *)
Definition npart_of (hdf : ref) : nat :=
  match group_size hdf with Ok n => n | Raise _ => 0%nat end.

(** A group the loader can fill from, for an array of one element per
    particle: its count can be read and, unless it is zero, a candidate
    name resolves in it to data of that many elements. *)
Definition group_loads (dt : dtype) (translated_names : list string) (hdf : ref)
  : bool :=
  match group_size hdf with
  | Ok npart =>
      if decide (npart = 0%nat) then true
      else
        match resolve_candidates hdf translated_names None with
        | Ok (Some x) =>
            match data_size x with
            | Ok n =>
                bool_decide (npart = n) &&
                match read_direct x dt n with
                | Ok new => bool_decide (length new = n)
                | Raise _ => false
                end
            | Raise _ => false
            end
        | _ => false
        end
  | Raise _ => false
  end.

End Load.

(* ================================================================= *)
(** ** The file manager: whole iterations and the attribute getters *)

Section ManagerAccess.
Context {V dtype : Type}.
Implicit Types (d : disk V dtype) (m : manager).

(** The loop of [__iter__] over the indices [js], run to its end: the
    handles it yields.  An exception ends it, the cache staying as it is
    by then. *)
Fixpoint iter_from d (js : list Z) m : result (list ref) * manager :=
  match js with
  | [] => (Ok [], m)
  | j :: js' =>
      match iter_yield d j m with
      | (Raise e, m') => (Raise e, m')
      | (Ok h, m') =>
          match iter_from d js' m' with
          | (Ok hs, m'') => (Ok (h :: hs), m'')
          | (Raise e, m'') => (Raise e, m'')
          end
      end
  end.

(** [__iter__], consumed by a [for] loop that runs to its end. *)
Definition __iter__ d m : result (list ref) * manager :=
  iter_from d (py_range (_numfiles m)) m.

(** [get_file0_root] *)
Definition get_file0_root d m : result ref * manager :=
  match __getitem__ d 0 m with
  | (Ok h, m') => (Ok (h5_parent h), m')
  | (Raise e, m') => (Raise e, m')
  end.

(** [root[name].attrs] *)
Definition group_attrs d (root : ref) (name : string)
  : result (gmap string attr) :=
  g ← h5_getitem d root name;
  Ok (h5_attrs d g).

(** [get_header_attrs] *)
Definition get_header_attrs d m : result (gmap string attr) * manager :=
  match get_file0_root d m with
  | (Ok root, m') => (group_attrs d root "Header", m')
  | (Raise e, m') => (Raise e, m')
  end.

(** [get_parameter_attrs]: the [try] block covers [self[0]] as well as the
    lookup of the group; only a [KeyError] is caught, and stands for an
    empty set of attributes. *)
Definition get_parameter_attrs d m : result (gmap string attr) * manager :=
  let '(root, m1) := get_file0_root d m in
  match try_except (root ≫= λ root, group_attrs d root "Parameters")
                   KeyError (Ok ∅) with
  | Ok attrs =>
      if decide (size attrs = 0%nat) then get_header_attrs d m1
      else (Ok attrs, m1)
  | Raise e => (Raise e, m1)
  end.

(** [get_unit_attrs] *)
Definition get_unit_attrs d m : result (gmap string attr) * manager :=
  match get_file0_root d m with
  | (Ok root, m') => (group_attrs d root "Units", m')
  | (Raise e, m') => (Raise e, m')
  end.

(** [iterroot], consumed to its end. *)
Definition iterroot d m : result (list ref) * manager :=
  match __iter__ d m with
  | (Ok items, m') => (Ok (h5_parent <$> items), m')
  | (Raise e, m') => (Raise e, m')
  end.

End ManagerAccess.

(* ================================================================= *)
(** ** Recognising a file: [_can_load] *)

(** The class attributes of [GadgetHDFSnap] that its subclasses override. *)
Record snap_class : Type := {
  _multifile_manager_class : manager_class;
  _readable_hdf5_test_key : string;
  (** [None], or a location and the name of an attribute there *)
  _readable_hdf5_test_attr : option (string * string);
  _softening_class_key : string;
  _softening_comoving_key : string;
  _softening_max_phys_key : string
}.

Definition GadgetHDFSnap : snap_class :=
  {| _multifile_manager_class := _GadgetHdfMultiFileManager;
     _readable_hdf5_test_key := "PartType?";
     _readable_hdf5_test_attr := None;
     _softening_class_key := "SofteningClassOfPartType";
     _softening_comoving_key := "SofteningComovingClass";
     _softening_max_phys_key := "SofteningMaxPhysClass" |}.

Definition ArepoHDFSnap : snap_class :=
  {| _multifile_manager_class := _GadgetHdfMultiFileManager;
     _readable_hdf5_test_key := "PartType?";
     _readable_hdf5_test_attr := Some ("Config", "VORONOI");
     _softening_class_key := "SofteningTypeOfPartType";
     _softening_comoving_key := "SofteningComovingType";
     _softening_max_phys_key := "SofteningMaxPhysType" |}.

Definition SubFindHDFSnap : snap_class :=
  {| _multifile_manager_class := _SubfindHdfMultiFileManager;
     _readable_hdf5_test_key := "FOF";
     _readable_hdf5_test_attr := None;
     _softening_class_key := "SofteningClassOfPartType";
     _softening_comoving_key := "SofteningComovingClass";
     _softening_max_phys_key := "SofteningMaxPhysClass" |}.

Definition EagleLikeHDFSnap : snap_class :=
  {| _multifile_manager_class := _GadgetHdfMultiFileManager;
     _readable_hdf5_test_key := "PartType1/SubGroupNumber";
     _readable_hdf5_test_attr := None;
     _softening_class_key := "SofteningClassOfPartType";
     _softening_comoving_key := "SofteningComovingClass";
     _softening_max_phys_key := "SofteningMaxPhysClass" |}.

(** [s[:-1]] *)
Fixpoint py_drop_last (s : string) : string :=
  match s with
  | EmptyString => EmptyString
  | String _ EmptyString => EmptyString
  | String c s' => String c (py_drop_last s')
  end.

Section CanLoad.
Context {V dtype : Type}.
Implicit Types (d : disk V dtype).

(** [name in obj] for a name that may be a path of names joined by ["/"]:
    every step of the path has to exist. *)
Definition h5_contains_path d (r : ref) (name : string) : bool :=
  bool_decide (is_Some (resolve d (Ref (r_file r) (r_mode r)
                                       (r_path r ++ py_split_on "/" name)))).

(** The loop over the particle numbers in [_test_for_hdf5_key]; the state
    is [test_key] and [found]. *)
Definition test_key_step d (h5test : ref) (p : Z) (st : string * bool)
  : string * bool :=
  let test_key := py_drop_last st.1 ++ pretty p in
  (test_key, if h5_contains_path d h5test test_key then true else st.2).

(** [_test_for_hdf5_key] *)
Definition _test_for_hdf5_key (cls : snap_class) d (f : string) : result bool :=
  h5test ← h5py_File d f ModeR;
  let test_key := _readable_hdf5_test_key cls in
  c ← py_last (list_ascii_of_string test_key);
  let found :=
    if Ascii.eqb c "?" then
      (foldl (λ st p, test_key_step d h5test p st) (test_key, false)
             (py_range 6)).2
    else h5_contains_path d h5test test_key in
  if negb found then Ok false
  else
    match _readable_hdf5_test_attr cls with
    | None => Ok found
    | Some (location, attrname) =>
        if h5_contains_path d h5test location then
          g ← for_each (λ tpart ret, h5_getitem d ret tpart)
                       (py_split_on "/" location) h5test;
          Ok (bool_decide (is_Some (h5_attrs d g !! attrname)))
        else Ok false
    end.

(** [pathlib]'s [f.with_suffix(suffix)], taken from outside this module. *)
Variable with_suffix : string → string → string.

(** [_can_load], with [h5py] installed. *)
Definition _can_load (cls : snap_class) d (f : string) : result bool :=
  if is_hdf5 d f then _test_for_hdf5_key cls d f
  else if is_hdf5 d (with_suffix f ".0.hdf5")
       then _test_for_hdf5_key cls d (with_suffix f ".0.hdf5")
       else Ok false.

End CanLoad.

(* ================================================================= *)
(** ** What a load copies from a group *)

Section LoadReads.
Context {V dtype : Type} `{NameMapper} `{ArrayModel V dtype}.
Variable d : disk V dtype.
Variable _get_softening_for_particle_group : ref → result (option scalar).
Variable self : snapshot dtype.

(** The elements [new] are what loading an array of element type [dt] with
    [dy] elements per particle copies from the group [hdf]: nothing when
    the group has no particle; otherwise what [read_direct] reads from the
    data the candidates loop ends on, which has to hold [dy] elements for
    each particle of the group. *)
Definition group_reads (dt : dtype) (dy : nat) (translated_names : list string)
    (hdf : ref) (new : list V) : Prop :=
  ∃ npart, group_size d hdf = Ok npart ∧
    ((npart = 0%nat ∧ new = []) ∨
     (npart ≠ 0%nat ∧
      ∃ x, resolve_candidates d _get_softening_for_particle_group self hdf
             translated_names None = Ok (Some x) ∧
           data_size d x = Ok (npart * dy)%nat ∧
           read_direct d x dt (npart * dy) = Ok new ∧
           length new = (npart * dy)%nat)).

End LoadReads.

(* ================================================================= *)
(** ** What a write leaves alone *)

Section WriteFrame.
Context {V dtype : Type}.

Definition is_dataset (n : node V dtype) : Prop :=
  match n with
  | Dataset _ _ _ _ => True
  | Group _ _ => False
  end.

(** Every dataset of [w] whose own name is not [leaf] is in [w'], under
    the same path, with the same type, shape, elements and attributes. *)
Definition other_datasets_kept (leaf : string) : relation (world V dtype) :=
  λ w w', ∀ (r : ref) (n : node V dtype),
    last (r_path r) ≠ Some leaf → is_dataset n →
    resolve (w_disk w) r = Some n → resolve (w_disk w') r = Some n.

End WriteFrame.

(* ================================================================= *)
(** ** The arrays a snapshot can load: [__init_loadable_keys] *)

(** [sep.join(parts)] *)
Fixpoint py_join (sep : string) (parts : list string) : string :=
  match parts with
  | [] => ""
  | [x] => x
  | x :: rest => x ++ sep ++ py_join sep rest
  end.

(** [d[k] = v] on a dict kept in insertion order. *)
Fixpoint dict_set {A : Type} (m : list (string * A)) (k : string) (v : A)
  : list (string * A) :=
  match m with
  | [] => [(k, v)]
  | (k', a) :: m' =>
      if decide (k' = k) then (k, v) :: m' else (k', a) :: dict_set m' k v
  end.

Section AllArrayKeys.
Context {V dtype : Type}.

(** What [visititems] shows to [_append_if_array] and the callback keeps:
    the paths, from the group the visit started at, of the objects
    without [keys], that is of the datasets, at any depth.  The order in
    which h5py visits the members of a group is h5py's matter; the code
    makes sets of these names or looks for a name in them. *)
Fixpoint visititems_datasets (path : list string) (n : node V dtype)
  : list (list string) :=
  match n with
  | Dataset _ _ _ _ => [path]
  | Group _ kids =>
      map_fold (λ k child acc,
                  (visititems_datasets (path ++ [k]) child ++ acc)%list) [] kids
  end.

(** [_get_hdf_allarray_keys] *)
Definition _get_hdf_allarray_keys (d : disk V dtype) (group : ref)
  : result (list string) :=
  match resolve d group with
  | Some (Group a kids) =>
      Ok (py_join "/" <$> visititems_datasets [] (Group a kids))
  | Some (Dataset _ _ _ _) => Raise AttributeError
  | None => Raise KeyError
  end.

(** The depth of the tree below an object. *)
Fixpoint node_depth (n : node V dtype) : nat :=
  match n with
  | Dataset _ _ _ _ => 0
  | Group _ kids =>
      S (map_fold (λ _ child acc, node_depth child `max` acc) 0 kids)
  end.

End AllArrayKeys.

Section LoadableKeys.
Context {V dtype : Type} `{NameMapper}.
Variable scls : snap_class.
Variable cls : manager_class.
Variable d : disk V dtype.
Variable hdf_files : list ref.
(** What [self._hdf_files.get_parameter_attrs()] returns. *)
Variable _get_hdf_parameter_attrs : result (gmap string attr).
Variable _family_to_group_map : list (family * list string).

(** [_have_softening_for_particle_type] *)
Definition _have_softening_for_particle_type (particle_type : nat)
  : result bool :=
  attrs ← _get_hdf_parameter_attrs;
  let class_name := _softening_class_key scls ++ pretty particle_type in
  Ok (bool_decide (is_Some (attrs !! class_name))).

(** [_have_softening_for_particle_group] *)
Definition _have_softening_for_particle_group (particle_group : ref)
  : result bool :=
  c ← py_last (list_ascii_of_string (h5_name particle_group));
  particle_type ← py_int_of_char c;
  _have_softening_for_particle_type particle_type.

(** The body of the loop over the groups of a family; the state is the
    set [_loadable_family_keys[fam]] and [can_get_eps]. *)
Definition loadable_keys_of_group (hdf_group : ref) (st : gset string * bool)
  : result (gset string * bool) :=
  array_keys ← _get_hdf_allarray_keys d hdf_group;
  let keys :=
    foldl (λ keys this_key,
             {[ _translate_array_name_reverse this_key ]} ∪ keys)
          st.1 array_keys in
  have ← _have_softening_for_particle_group hdf_group;
  Ok (keys, st.2 && have).

(** The body of the loop over the families: the keys of one family, as
    the list made of the set.  Python fixes no order for the list made of
    a set; the properties below speak of membership only. *)
Definition family_loadable_keys (fam : family) : result (list string) :=
  groups ← _all_hdf_groups_in_family cls d hdf_files _family_to_group_map fam;
  st ← for_each loadable_keys_of_group groups ({[ _mass_pynbody_name ]}, true);
  let keys : gset string :=
    if (st : gset string * bool).2
    then {[ _eps_pynbody_name ]} ∪ st.1 else st.1 in
  Ok (elements keys).

(** [__init_loadable_keys], for the families [all_fams] that
    [self.families()] gives: [_loadable_family_keys] and, unless there is
    no family, [_loadable_keys]. *)
Definition __init_loadable_keys (all_fams : list family)
  : result (list (family * list string) * option (list string)) :=
  match all_fams with
  | [] => Ok ([], None)
  | fam0 :: _ =>
      family_keys ←
        for_each (λ fam family_keys,
                    keys ← family_loadable_keys fam;
                    Ok (dict_set family_keys fam keys))
                 all_fams [];
      first ← dict_get family_keys fam0;
      let keys :=
        foldl (λ keys (fam_keys : list string), keys ∩ list_to_set fam_keys)
              (list_to_set first : gset string) family_keys.*2 in
      Ok (family_keys, Some (elements keys))
  end.

End LoadableKeys.

(* ================================================================= *)
(** ** A small snapshot to run the code on *)

(** The element types of the example files. *)
Inductive np_dtype : Type := Float32 | Float64 | Int64.

#[global] Instance np_dtype_eq_dec : EqDecision np_dtype.
Proof. solve_decision. Defined.

Module Example.

Definition header : node float np_dtype :=
  Group {[ "NumFilesPerSnapshot" := AInt 2;
           "MassTable" := AFloats [0; 2; 0; 0; 0; 0]%float ]} ∅.

Definition ids (l : list float) : node float np_dtype :=
  Dataset Int64 [length l] l ∅.

Definition coordinates (n : nat) : node float np_dtype :=
  Dataset Float32 [n; 3] (replicate (n * 3) 0%float) ∅.

Definition masses (l : list float) : node float np_dtype :=
  Dataset Float32 [length l] l ∅.

(** Shard 0: three gas particles with their own masses, two dark-matter
    particles whose mass is in the header. *)
Definition shard0 : node float np_dtype :=
  Group ∅ {[
    "Header" := header;
    "PartType0" := Group ∅ {[ "ParticleIDs" := ids [1; 2; 3]%float;
                              "Coordinates" := coordinates 3;
                              "Masses" := masses [5; 6; 7]%float ]};
    "PartType1" := Group ∅ {[ "ParticleIDs" := ids [4; 5]%float;
                              "Coordinates" := coordinates 2 ]} ]}.

(** Shard 1: one more dark-matter particle and two stars. *)
Definition shard1 : node float np_dtype :=
  Group ∅ {[
    "Header" := header;
    "PartType1" := Group ∅ {[ "ParticleIDs" := ids [6]%float;
                              "Coordinates" := coordinates 1 ]};
    "PartType4" := Group ∅ {[ "ParticleIDs" := ids [7; 8]%float;
                              "Coordinates" := coordinates 2;
                              "Masses" := masses [9; 10]%float ]} ]}.

Definition files : disk float np_dtype :=
  {[ "snap.0.hdf5" := shard0; "snap.1.hdf5" := shard1 ]}.

(** The manager right after [_GadgetHdfMultiFileManager("snap")]. *)
Definition files_manager : manager :=
  Manager _GadgetHdfMultiFileManager ModeR
          ["snap.0.hdf5"; "snap.1.hdf5"] 2 ∅.

(** The manager once shard 0 has been requested. *)
Definition files_manager_used : manager :=
  Manager _GadgetHdfMultiFileManager ModeR
          ["snap.0.hdf5"; "snap.1.hdf5"] 2
          {[ 0%Z := Ref "snap.0.hdf5" ModeR [] ]}.

(** What iterating it yields. *)
Definition hdf_files : list ref :=
  [Ref "snap.0.hdf5" ModeR []; Ref "snap.1.hdf5" ModeR []].

(** The type mapping of the default configuration. *)
Definition _default_type_map : list (family * list string) :=
  [("gas", ["PartType0"]);
   ("dm", ["PartType1"; "PartType2"; "PartType3"]);
   ("star", ["PartType4"]);
   ("bh", ["PartType5"])].

(** A unit algebra to run the parser on: a unit is its value in cgs,
    powers are whole numbers from -3 to 3 (all the examples need), and
    [float] reads the numerals 1, 2 and 3. *)
Definition whole_power (x : float) : result Z :=
  match find (λ p : float * Z, PrimFloat.eqb x p.1)
             [(1%float, 1%Z); ((-1)%float, (-1)%Z); (2%float, 2%Z);
              ((-2)%float, (-2)%Z); (3%float, 3%Z); ((-3)%float, (-3)%Z)] with
  | Some p => Ok p.2
  | None => Raise OverflowError
  end.

Definition pow_whole (x : float) (q : Z) : float :=
  match q with
  | Z0 => 1
  | Zpos p => Pos.iter (PrimFloat.mul x) 1 p
  | Zneg p => 1 / Pos.iter (PrimFloat.mul x) 1 p
  end%float.

Definition read_numeral (s : string) : result float :=
  if decide (s = "1") then Ok 1%float
  else if decide (s = "2") then Ok 2%float
  else if decide (s = "3") then Ok 3%float
  else Raise ValueError.

Definition cgs_units : UnitAlgebra float Z :=
  {| unit_one := 1%float;
     unit_mul := PrimFloat.mul;
     unit_pow := pow_whole;
     in_units := λ u _, Ok u;
     limit_fraction := whole_power;
     float_pow := pow_whole;
     py_float := read_numeral |}.

(** Gadget's usual units: km/s, Mpc, 1e10 solar masses. *)
Definition _hdf_unitvar : list (string * float) :=
  [("U_V", 0x1.86ap+16); ("U_L", 0x1.46b578437ca49p+81);
   ("U_M", 0x1.c8a6e9c6c5bdap+143); ("U_T", 0x1.ac394dec7c60cp+64);
   ("[K]", 1); ("SEC_PER_YEAR", 0x1.e187e0p+24);
   ("SOLAR_MASS", 0x1.8842d67978cdbp+110);
   ("solar masses / yr", 0x1.a114eb3a541aap+85);
   ("BH smoothing", 0x1.46b578437ca49p+81)]%float.

Definition _hdf_cgsvar : list (string * string) :=
  [("U_M", "g"); ("SOLAR_MASS", "g"); ("U_T", "s"); ("SEC_PER_YEAR", "s");
   ("U_V", "cm s**-1"); ("U_L", "cm"); ("[K]", "K");
   ("solar masses / yr", "g s**-1"); ("BH smoothing", "cm")].

(** A density annotation, and a conversion factor that is wrong by ten
    orders of magnitude ([1e-20] for about [6.8e-31]). *)
Definition density_description : string := "U_M U_L^-3 [g/cm^3]".
Definition wrong_density_factor : float := 0x1.79ca10c924223p-67%float.

(** The name mapping of the default configuration, for the arrays of the
    examples. *)
Definition names : NameMapper :=
  {| _translate_array_name := λ name,
       if decide (name = "mass") then ["Mass"; "Masses"]
       else if decide (name = "pos") then ["Coordinates"]
       else if decide (name = "vel") then ["Velocity"; "Velocities"]
       else if decide (name = "iord") then ["ParticleIDs"]
       else if decide (name = "temp") then ["Temperature"]
       else [name];
     _translate_array_name_reverse := λ name,
       if decide (name = "Mass") then "mass"
       else if decide (name = "Masses") then "mass"
       else if decide (name = "Coordinates") then "pos"
       else if decide (name = "Velocity") then "vel"
       else if decide (name = "Velocities") then "vel"
       else if decide (name = "ParticleIDs") then "iord"
       else if decide (name = "Temperature") then "temp"
       else name |}.

(** Elements are kept as they are, whatever the element type says (the
    examples store no integer number). *)
Definition plain_elements : ArrayModel float np_dtype :=
  {| np_float64 := Float64;
     zero := 0%float;
     cast_scalar := λ _ x, match x with SFloat x => x | SInt _ => 0%float end;
     cast := λ _ x, x |}.

(** The arrays in memory: a temperature and a mass per family. *)
Definition in_memory : memory (V := float) (dtype := np_dtype) :=
  {| families := ["gas"; "dm"; "star"];
     family_array := λ fam name,
       if bool_decide (name = "temp") || bool_decide (name = "mass") then
         if decide (fam = "gas") then Ok (NdArray Float32 [3] [10; 11; 12]%float)
         else if decide (fam = "dm") then Ok (NdArray Float32 [3] [20; 21; 22]%float)
         else if decide (fam = "star") then Ok (NdArray Float32 [2] [30; 31]%float)
         else Raise KeyError
       else Raise KeyError |}.

Definition _family_to_group_map : list (family * list string) :=
  [("gas", ["PartType0"]); ("dm", ["PartType1"]); ("star", ["PartType4"])].

Definition start : world float np_dtype := World files_manager files.

(** The files [d] with the dataset [ds] put under [name] in a group. *)
Definition with_dataset (file group name : string) (ds : node float np_dtype)
    (d : disk float np_dtype) : disk float np_dtype :=
  disk_alter (λ n, match n with
                   | Group a kids => Group a (<[name := ds]> kids)
                   | Dataset _ _ _ _ => n
                   end)
             (Ref file ModeRW [group]) d.

(** A snapshot without particles: one file with a header only. *)
Definition empty_files : disk float np_dtype :=
  {[ "void.hdf5" := Group ∅ {[ "Header" := header ]} ]}.

Definition empty_start : world float np_dtype :=
  World (Manager _GadgetHdfMultiFileManager ModeR ["void.hdf5"] 1 ∅) empty_files.

Definition nothing_in_memory : memory (V := float) (dtype := np_dtype) :=
  {| families := []; family_array := λ _ _, Raise KeyError |}.

(** The snapshot object after construction on [files]. *)
Definition snap : snapshot np_dtype :=
  Snapshot _family_to_group_map
    (FileMap {[ "PartType0" := (0, 3); "PartType1" := (3, 6);
                "PartType4" := (6, 8) ]}%nat
             {[ "gas" := (0, 3); "dm" := (3, 6); "star" := (6, 8) ]}%nat
             8)
    Float32
    ["mass"; "pos"; "iord"]
    [("gas", ["mass"; "pos"; "iord"]); ("dm", ["mass"; "pos"; "iord"]);
     ("star", ["mass"; "pos"; "iord"])]
    ["gas"; "dm"; "star"].

(** No softening in the parameters, no unit annotations. *)
Definition no_softening (g : ref) : result (option scalar) := Ok None.
Definition no_units (a : gmap string attr) : result unit := Ok ().

(** A file whose gas group holds the velocities under both native names,
    [Velocity] (all ones) and [Velocities] (all twos). *)
Definition two_names_files : disk float np_dtype :=
  {[ "both.hdf5" :=
       Group ∅ {[
         "Header" := Group {[ "NumFilesPerSnapshot" := AInt 1;
                              "MassTable" := AFloats [0; 0; 0; 0; 0; 0]%float ]} ∅;
         "PartType0" :=
           Group ∅ {[ "ParticleIDs" := ids [1; 2]%float;
                      "Coordinates" := coordinates 2;
                      "Velocity" :=
                        Dataset Float32 [2; 3] [1; 1; 1; 1; 1; 1]%float ∅;
                      "Velocities" :=
                        Dataset Float32 [2; 3] [2; 2; 2; 2; 2; 2]%float ∅ ]} ]} ]}.

Definition two_names_hdf_files : list ref := [Ref "both.hdf5" ModeR []].

Definition two_names_snap : snapshot np_dtype :=
  Snapshot [("gas", ["PartType0"])]
    (FileMap {[ "PartType0" := (0, 2)%nat ]} {[ "gas" := (0, 2)%nat ]} 2)
    Float32
    ["mass"; "pos"; "vel"; "iord"]
    [("gas", ["mass"; "pos"; "vel"; "iord"])]
    ["gas"].

(** Files as [files], with the header mass of the dark matter negative. *)
Definition negative_header : node float np_dtype :=
  Group {[ "NumFilesPerSnapshot" := AInt 2;
           "MassTable" := AFloats [0; -1; 0; 0; 0; 0]%float ]} ∅.

Definition negative_mass_files : disk float np_dtype :=
  disk_alter (λ _, negative_header) (Ref "snap.0.hdf5" ModeR ["Header"])
    (disk_alter (λ _, negative_header) (Ref "snap.1.hdf5" ModeR ["Header"])
       files).

(** A one-file Arepo snapshot: a gas group and the [Config] group that
    carries the [VORONOI] attribute. *)
Definition arepo_files : disk float np_dtype :=
  {[ "arepo.hdf5" :=
       Group ∅ {[
         "Config" := Group {[ "VORONOI" := AStr "" ]} ∅;
         "Header" := Group {[ "NumFilesPerSnapshot" := AInt 1;
                              "MassTable" := AFloats [0; 0; 0; 0; 0; 0]%float ]} ∅;
         "PartType0" := Group ∅ {[ "ParticleIDs" := ids [1; 2]%float;
                                   "Coordinates" := coordinates 2 ]} ]} ]}.

(** [Path.with_suffix] on a name without a dot. *)
Definition with_suffix (f suffix : string) : string := f ++ suffix.

End Example.

(* ================================================================= *)
(** * Properties *)

(* ----------------------------------------------------------------- *)
(** ** The file manager *)

Section ManagerFacts.
Context {V dtype : Type}.
Implicit Types (d : disk V dtype) (m : manager) (i j : Z).

Lemma py_range_elem n j : j ∈ py_range n ↔ (0 ≤ j < n)%Z.
Proof.
  unfold py_range. rewrite list_elem_of_fmap. split.
  - intros (k & -> & Hk). apply elem_of_seq in Hk. lia.
  - intros Hj. exists (Z.to_nat j). split; [lia|]. apply elem_of_seq. lia.
Qed.

Lemma py_range_length n : length (py_range n) = Z.to_nat n.
Proof. unfold py_range. by rewrite length_fmap, length_seq. Qed.

Lemma reopen_in_mode_eq mode m : mode = _mode m → reopen_in_mode mode m = m.
Proof. intros ->. unfold reopen_in_mode. by rewrite decide_False by tauto. Qed.

Lemma reopen_in_mode_ne mode m :
  mode ≠ _mode m →
  reopen_in_mode mode m = Manager (m_class m) mode (_filenames m) (_numfiles m) ∅.
Proof. intros H. unfold reopen_in_mode. by rewrite decide_True. Qed.

Lemma reopen_in_mode_mode mode m : _mode (reopen_in_mode mode m) = mode.
Proof.
  unfold reopen_in_mode. case_decide as H; [done|].
  destruct (decide (mode = _mode m)); [done|tauto].
Qed.

(** What [iter_yield] can raise when the file name exists: the failure of
    [h5py.File] or of the sub-group lookup. *)
Lemma iter_yield_raise d j m e m' :
  is_Some (_filenames m !! Z.to_nat j) →
  iter_yield d j m = (Raise e, m') → e ≠ IndexError.
Proof.
  intros [fn Hfn]. unfold iter_yield, py_index, h5py_File, h5_getitem.
  rewrite Hfn. intros H.
  repeat (case_match; simplify_eq/=); done.
Qed.

Lemma islice_next_raise d js skip m e m' :
  Forall (λ j, is_Some (_filenames m !! Z.to_nat j)) js →
  islice_next d js skip m = (Raise e, m') → e ≠ IndexError.
Proof.
  revert skip m. induction js as [|j js IH]; intros skip m Hjs H; simpl in H.
  - by simplify_eq.
  - apply Forall_cons in Hjs as [Hj Hjs].
    destruct (iter_yield d j m) as [[h|e1] m1] eqn:Hy.
    + destruct skip; [done|]. eapply IH; [|done].
      assert (_filenames m1 = _filenames m) as ->; [|done].
      clear -Hy. unfold iter_yield in Hy.
      repeat (case_match; simplify_eq/=); done.
    + simplify_eq. by eapply iter_yield_raise.
Qed.

Lemma islice_next_exhausted d js skip m :
  (length js ≤ skip)%nat →
  ∃ e m', islice_next d js skip m = (Raise e, m').
Proof.
  revert skip m. induction js as [|j js IH]; intros skip m Hlen; simpl.
  - eauto.
  - destruct (iter_yield d j m) as [[h|e1] m1]; [|eauto].
    destruct skip; simpl in Hlen; [lia|]. apply IH. lia.
Qed.

End ManagerFacts.

Section ManagerInvariant.
Context {V dtype : Type}.
Implicit Types (d : disk V dtype) (m : manager) (i j : Z).

Lemma same_shards_refl m : same_shards m m.
Proof. done. Qed.

Lemma same_shards_trans m1 m2 m3 :
  same_shards m1 m2 → same_shards m2 m3 → same_shards m1 m3.
Proof. unfold same_shards. intros (-> & -> & -> & ->) (-> & -> & -> & ->). done. Qed.

Lemma shard_openable_same d m m' j :
  same_shards m m' → shard_openable d m' j = shard_openable d m j.
Proof. intros (Hc & Hm & Hf & _). unfold shard_openable. by rewrite Hc, Hm, Hf. Qed.

Lemma manager_wf_insert m i h :
  manager_wf m → (0 ≤ i < _numfiles m)%Z →
  _filenames m !! Z.to_nat i = Some (r_file h) → r_mode h = _mode m →
  manager_wf (set_open_files (<[i := h]> (_open_files m)) m).
Proof.
  intros (Hmax & Hlen & Hall) Hi Hf Hm. split_and!; [done|done|]. simpl.
  apply map_Forall_insert_2; [done|]. done.
Qed.

(** Iterating preserves the invariant even when it raises. *)
Lemma iter_yield_wf d j m r m' :
  manager_wf m → (0 ≤ j < _numfiles m)%Z →
  iter_yield d j m = (r, m') → manager_wf m' ∧ same_shards m m'.
Proof.
  intros Hwf Hj. unfold iter_yield, py_index, h5py_File, h5_getitem.
  destruct (_open_files m !! j) eqn:Hc; [by intros; simplify_eq|].
  destruct (_filenames m !! Z.to_nat j) as [fn|] eqn:Hfn; [|by intros; simplify_eq].
  destruct (d !! fn) eqn:Hd; [|by intros; simplify_eq]. simpl.
  set (m1 := set_open_files _ m).
  assert (manager_wf m1) as Hwf1 by (by apply manager_wf_insert).
  intros H. repeat (case_match; simplify_eq/=); try done.
  split; [|done].
  change (manager_wf (set_open_files
    (<[j := Ref fn (_mode m) [s]]> (_open_files m1)) m1)).
  by apply manager_wf_insert.
Qed.

(** A shard that can be opened is yielded, cached, and is a handle on
    its own file. *)
Lemma iter_yield_ok d j m :
  manager_wf m → (0 ≤ j < _numfiles m)%Z → shard_openable d m j = true →
  ∃ h m', iter_yield d j m = (Ok h, m') ∧
          _filenames m !! Z.to_nat j = Some (r_file h) ∧
          _open_files m' !! j = Some h.
Proof.
  intros (Hmax & Hlen & Hall) Hj.
  unfold shard_openable, iter_yield, py_index, h5py_File, h5_getitem.
  destruct (_open_files m !! j) as [h|] eqn:Hc.
  { intros _. exists h, m. split_and!; [done| |done]. by apply Hall in Hc as (_ & ? & _). }
  destruct (_filenames m !! Z.to_nat j) as [fn|] eqn:Hfn; [|done].
  destruct (d !! fn) eqn:Hd; [|done]. simpl.
  destruct (_subgroup_name (m_class m)) as [sg|].
  - destruct (resolve d _) as [[|ga kids]|]; [done| |done].
    destruct (kids !! sg); [|done]. intros _.
    eexists _, _. split_and!; [done|done|]. simpl. by rewrite lookup_insert_eq.
  - intros _. eexists _, _. split_and!; [done|done|]. simpl.
    by rewrite lookup_insert_eq.
Qed.

Lemma islice_next_wf d js skip m r m' :
  manager_wf m → Forall (λ j, (0 ≤ j < _numfiles m)%Z) js →
  islice_next d js skip m = (r, m') → manager_wf m' ∧ same_shards m m'.
Proof.
  revert skip m. induction js as [|j js IH]; intros skip m Hwf Hjs H; simpl in H.
  - by simplify_eq.
  - apply Forall_cons in Hjs as [Hj Hjs].
    destruct (iter_yield d j m) as [[h|e1] m1] eqn:Hy.
    + destruct (iter_yield_wf _ _ _ _ _ Hwf Hj Hy) as [Hwf1 Hs1].
      destruct skip; [by simplify_eq|].
      destruct (IH skip m1 Hwf1) with (2 := H) as [? ?].
      { destruct Hs1 as (_ & _ & _ & ->). done. }
      split; [done|]. by eapply same_shards_trans.
    + simplify_eq. by eapply iter_yield_wf.
Qed.

(** [islice] reaches item [skip] when the shards before it open. *)
Lemma islice_next_ok d js skip m j :
  manager_wf m → Forall (λ j, (0 ≤ j < _numfiles m)%Z) js →
  Forall (λ j, shard_openable d m j = true) (take (S skip) js) →
  js !! skip = Some j →
  ∃ h m', islice_next d js skip m = (Ok h, m') ∧
          _filenames m !! Z.to_nat j = Some (r_file h).
Proof.
  revert skip m. induction js as [|j0 js IH]; intros skip m Hwf Hjs Hop Hj; [done|].
  apply Forall_cons in Hjs as [Hj0 Hjs]. simpl in Hop.
  apply Forall_cons in Hop as [Hop0 Hop]. simpl.
  destruct (iter_yield_ok d j0 m Hwf Hj0 Hop0) as (h & m1 & Hy & Hf & _).
  rewrite Hy.
  destruct (iter_yield_wf _ _ _ _ _ Hwf Hj0 Hy) as [Hwf1 Hs1].
  destruct skip as [|skip]; simpl in Hj.
  - simplify_eq. eauto.
  - destruct (IH skip m1) as (h' & m' & Hr & Hf'); try done.
    + destruct Hs1 as (_ & _ & _ & ->). done.
    + eapply Forall_impl; [exact Hop|]. intros k Hk. simpl in Hk.
      by rewrite (shard_openable_same d m m1 k Hs1).
    + exists h', m'. split; [done|].
      destruct Hs1 as (_ & _ & <- & _). done.
Qed.

(** [islice] past the end: once every shard has opened, [next] finds the
    generator exhausted. *)
Lemma islice_next_stop d js skip m :
  manager_wf m → Forall (λ j, (0 ≤ j < _numfiles m)%Z) js →
  Forall (λ j, shard_openable d m j = true) js →
  (length js ≤ skip)%nat →
  ∃ m', islice_next d js skip m = (Raise StopIteration, m').
Proof.
  revert skip m. induction js as [|j0 js IH]; intros skip m Hwf Hjs Hop Hlen; simpl.
  - eauto.
  - apply Forall_cons in Hjs as [Hj0 Hjs]. apply Forall_cons in Hop as [Hop0 Hop].
    destruct (iter_yield_ok d j0 m Hwf Hj0 Hop0) as (h & m1 & Hy & Hf & _).
    rewrite Hy.
    destruct (iter_yield_wf _ _ _ _ _ Hwf Hj0 Hy) as [Hwf1 Hs1].
    destruct skip as [|skip]; simpl in Hlen; [lia|].
    apply IH; [done| | |lia].
    + destruct Hs1 as (_ & _ & _ & ->). done.
    + eapply Forall_impl; [exact Hop|]. intros k Hk. simpl in Hk.
      by rewrite (shard_openable_same d m m1 k Hs1).
Qed.

End ManagerInvariant.

Section ManagerClaims.
Context {V dtype : Type}.
Implicit Types (d : disk V dtype) (m : manager) (i j : Z).

Lemma py_range_lookup n i :
  (0 ≤ i < n)%Z → py_range n !! Z.to_nat i = Some i.
Proof.
  intros Hi. unfold py_range. rewrite list_lookup_fmap, lookup_seq_lt by lia.
  simpl. f_equal. lia.
Qed.

Lemma py_range_take n i :
  (0 ≤ i < n)%Z → take (S (Z.to_nat i)) (py_range n) = py_range (i + 1).
Proof.
  intros Hi. unfold py_range. rewrite <- fmap_take, take_seq.
  do 2 f_equal. lia.
Qed.

Lemma py_range_Forall n (P : Z → Prop) :
  Forall P (py_range n) ↔ ∀ j, (0 ≤ j < n)%Z → P j.
Proof.
  rewrite Forall_forall. split; intros H j Hj; apply H; by apply py_range_elem.
Qed.

(** C8 (as amended): on a well-formed manager, asking for shard [i] with
    [0 <= i < n] returns the handle of file [i], opened on demand and left
    in the cache, provided the shards up to [i] can be opened; asking for
    an [i] outside [[0, n)] fails, never with [IndexError]: with
    [ValueError] for a negative [i] (or one beyond [sys.maxsize]), the
    manager unchanged, and with [StopIteration] for [i >= n] once every
    shard has opened. *)
Theorem getitem_in_and_out_of_range d m i :
  manager_wf m →
  ((0 ≤ i < _numfiles m)%Z →
   Forall (λ j, shard_openable d m j = true) (py_range (i + 1)) →
   ∃ h m', __getitem__ d i m = (Ok h, m') ∧
           _filenames m !! Z.to_nat i = Some (r_file h) ∧
           _open_files m' !! i = Some h) ∧
  (¬ (0 ≤ i < _numfiles m)%Z →
   ∃ e m', __getitem__ d i m = (Raise e, m') ∧ e ≠ IndexError ∧
           ((i < 0 ∨ sys_maxsize < i + 1)%Z → e = ValueError ∧ m' = m) ∧
           ((0 ≤ i ∧ i + 1 ≤ sys_maxsize)%Z →
            Forall (λ j, shard_openable d m j = true) (py_range (_numfiles m)) →
            e = StopIteration)).
Proof.
  intros Hwf. pose proof Hwf as (Hmax & Hlen & Hall).
  assert (Forall (λ j, (0 ≤ j < _numfiles m)%Z) (py_range (_numfiles m))) as Hrange.
  { by apply py_range_Forall. }
  split.
  - intros Hi Hop. unfold __getitem__.
    destruct (_open_files m !! i) as [h|] eqn:Hc.
    { exists h, m. split_and!; [done| |done]. by apply Hall in Hc as (_ & ? & _). }
    replace ((i <? 0)%Z || (sys_maxsize <? i + 1)%Z) with false
      by (symmetry; apply orb_false_iff; split; [apply Z.ltb_ge|apply Z.ltb_ge]; lia).
    destruct (islice_next_ok d (py_range (_numfiles m)) (Z.to_nat i) m i)
      as (h & m' & Hr & Hf); try done.
    + by rewrite py_range_take.
    + by apply py_range_lookup.
    + rewrite Hr. eexists _, _. split_and!; [done|done|].
      simpl. by rewrite lookup_insert_eq.
  - intros Hi. unfold __getitem__.
    destruct (_open_files m !! i) as [h|] eqn:Hc.
    { apply Hall in Hc as (? & _). done. }
    destruct ((i <? 0)%Z || (sys_maxsize <? i + 1)%Z) eqn:Hb.
    + exists ValueError, m. split_and!; [done|done|done|].
      intros [? ?]. apply orb_true_iff in Hb as [Hb|Hb]; apply Z.ltb_lt in Hb; lia.
    + apply orb_false_iff in Hb as [Hb1 Hb2].
      apply Z.ltb_ge in Hb1, Hb2.
      assert (length (py_range (_numfiles m)) ≤ Z.to_nat i)%nat as Hlen'.
      { rewrite py_range_length. lia. }
      destruct (islice_next_exhausted d _ _ m Hlen') as (e & m' & Hr).
      rewrite Hr. exists e, m'. split_and!; [done| |lia|].
      * eapply islice_next_raise; [|exact Hr].
        eapply Forall_impl; [exact Hrange|]. intros j Hj. simpl in Hj.
        apply lookup_lt_is_Some. lia.
      * intros _ Hop.
        destruct (islice_next_stop d _ _ m Hwf Hrange Hop Hlen') as (m'' & Hr').
        congruence.
Qed.

(** C10: [reopen_in_mode] with the mode the manager is already in changes
    nothing, cache included; with another mode it empties the cache and
    records the new mode (and touches nothing else). *)
Theorem reopen_in_mode_same_mode_is_noop (mode : hmode) m :
  (mode = _mode m → reopen_in_mode mode m = m) ∧
  (mode ≠ _mode m →
   _open_files (reopen_in_mode mode m) = ∅ ∧
   _mode (reopen_in_mode mode m) = mode ∧
   m_class (reopen_in_mode mode m) = m_class m ∧
   _filenames (reopen_in_mode mode m) = _filenames m ∧
   _numfiles (reopen_in_mode mode m) = _numfiles m).
Proof.
  split.
  - apply reopen_in_mode_eq.
  - intros H. by rewrite reopen_in_mode_ne.
Qed.

End ManagerClaims.

Lemma example_manager_init :
  manager_init _GadgetHdfMultiFileManager Example.files "snap" ModeR
  = Ok Example.files_manager.
Proof. vm_compute. reflexivity. Qed.

Lemma example_manager_wf : manager_wf Example.files_manager.
Proof.
  split_and!; [by vm_compute|done|]. apply map_Forall_empty.
Qed.

Lemma getitem_in_and_out_of_range_witness :
  ∃ h m', __getitem__ Example.files 1 Example.files_manager = (Ok h, m') ∧
          _filenames Example.files_manager !! Z.to_nat 1 = Some (r_file h) ∧
          _open_files m' !! 1%Z = Some h.
Proof.
  apply (getitem_in_and_out_of_range Example.files Example.files_manager 1).
  - exact example_manager_wf.
  - simpl. lia.
  - repeat constructor.
Defined.

(** C8, as stated, fails: with two shards, asking for shard 5 raises
    [StopIteration] and asking for shard -1 raises [ValueError]; neither is
    an [IndexError]. *)
Lemma getitem_out_of_range_is_not_IndexError :
  (__getitem__ Example.files 5 Example.files_manager).1 = Raise StopIteration ∧
  (__getitem__ Example.files (-1) Example.files_manager).1 = Raise ValueError ∧
  ¬ (∀ i, ¬ (0 ≤ i < _numfiles Example.files_manager)%Z →
          (__getitem__ Example.files i Example.files_manager).1 = Raise IndexError).
Proof.
  split_and!; [by vm_compute|by vm_compute|].
  intros H. specialize (H 5%Z). assert (¬ (0 ≤ 5 < 2)%Z) as Hn by lia.
  apply H in Hn. vm_compute in Hn. discriminate Hn.
Qed.

Lemma reopen_in_mode_same_mode_is_noop_witness :
  reopen_in_mode ModeR Example.files_manager_used = Example.files_manager_used ∧
  _open_files (reopen_in_mode ModeRW Example.files_manager_used) = ∅.
Proof.
  split.
  - apply (proj1 (reopen_in_mode_same_mode_is_noop ModeR
                    Example.files_manager_used)).
    reflexivity.
  - apply (proj2 (reopen_in_mode_same_mode_is_noop ModeRW
                    Example.files_manager_used)).
    simpl. discriminate.
Defined.

(* ----------------------------------------------------------------- *)
(** ** Sorting by string keys *)

Section StringOrder.

Lemma ascii_compare_N (a b : ascii) :
  Ascii.compare a b = N.compare (N_of_ascii a) (N_of_ascii b).
Proof. reflexivity. Qed.

Lemma string_compare_cons a b s t :
  String.compare (String a s) (String b t)
  = match Ascii.compare a b with Eq => String.compare s t | c => c end.
Proof. reflexivity. Qed.

Lemma string_leb_trans (s t u : string) :
  String.leb s t = true → String.leb t u = true → String.leb s u = true.
Proof.
  unfold String.leb. revert t u.
  induction s as [|a s IH]; intros [|b t] [|c u]; simpl; try done.
  rewrite !ascii_compare_N.
  destruct (N.compare_spec (N_of_ascii a) (N_of_ascii b)) as [Hab|Hab|Hab];
    destruct (N.compare_spec (N_of_ascii b) (N_of_ascii c)) as [Hbc|Hbc|Hbc];
    try done.
  - rewrite Hab, Hbc, N.compare_refl. apply IH.
  - intros _ _. rewrite Hab. by apply N.compare_lt_iff in Hbc as ->.
  - intros _ _. rewrite <- Hbc. by apply N.compare_lt_iff in Hab as ->.
  - intros _ _.
    assert (N_of_ascii a < N_of_ascii c)%N as H by lia.
    by apply N.compare_lt_iff in H as ->.
Qed.

Lemma string_leb_refl (s : string) : String.leb s s = true.
Proof. by destruct (String.leb_total s s). Qed.

End StringOrder.

Section Sorted.
Context {A : Type}.
Implicit Types (x y : string * A) (l : list (string * A)).

Lemma sorted_insert_perm x l : sorted_insert x l ≡ₚ x :: l.
Proof.
  induction l as [|y l IH]; simpl; [done|].
  case_match; [done|]. rewrite IH. apply Permutation_swap.
Qed.

Lemma py_sorted_perm l : py_sorted l ≡ₚ l.
Proof.
  induction l as [|x l IH]; simpl; [done|].
  by rewrite sorted_insert_perm, IH.
Qed.

Lemma sorted_insert_sorted x l :
  StronglySorted key_le l → StronglySorted key_le (sorted_insert x l).
Proof.
  induction 1 as [|y l Hl IH Hy]; simpl.
  - repeat constructor.
  - destruct (String.leb x.1 y.1) eqn:Hxy.
    + constructor; [by constructor|]. constructor; [done|].
      eapply Forall_impl; [exact Hy|]. intros z Hz. simpl in Hz.
      by eapply string_leb_trans.
    + constructor; [done|].
      rewrite sorted_insert_perm. constructor; [|done].
      destruct (String.leb_total x.1 y.1); [congruence|done].
Qed.

Lemma py_sorted_sorted l : StronglySorted key_le (py_sorted l).
Proof.
  induction l as [|x l IH]; simpl; [constructor|].
  by apply sorted_insert_sorted.
Qed.

(** Stability: items with the same key keep their order. *)
Lemma sorted_insert_stable (k : string) x l :
  StronglySorted key_le l →
  filter (λ y, y.1 = k) (sorted_insert x l) = filter (λ y, y.1 = k) (x :: l).
Proof.
  induction 1 as [|y l Hl IH Hy]; simpl; [done|].
  destruct (String.leb x.1 y.1) eqn:Hxy; [done|].
  rewrite !filter_cons, IH, !filter_cons.
  destruct (decide (y.1 = k)) as [Hyk|Hyk]; [|done].
  destruct (decide (x.1 = k)) as [Hxk|Hxk]; [|done].
  rewrite Hyk, Hxk, string_leb_refl in Hxy. done.
Qed.

Lemma py_sorted_stable (k : string) l :
  filter (λ y, y.1 = k) (py_sorted l) = filter (λ y, y.1 = k) l.
Proof.
  induction l as [|x l IH]; simpl; [done|].
  rewrite sorted_insert_stable by apply py_sorted_sorted.
  by rewrite !filter_cons, IH.
Qed.

End Sorted.

(* ----------------------------------------------------------------- *)
(** ** The family order *)

Section FamilyOrder.
Implicit Types (fmap : list (family * list string)) (fam : family).

Lemma dict_get_elem {A} (m : list (string * A)) k a :
  NoDup m.*1 → (k, a) ∈ m → dict_get m k = Ok a.
Proof.
  induction m as [|[k' a'] m IH]; intros Hnd Hin; [by apply elem_of_nil in Hin|].
  simpl in *. apply NoDup_cons in Hnd as [Hk' Hnd].
  apply elem_of_cons in Hin as [Heq|Hin].
  - simplify_eq. by rewrite decide_True.
  - rewrite decide_False; [by apply IH|].
    intros ->. apply Hk'. apply list_elem_of_fmap. by exists (k, a).
Qed.

Lemma dict_get_Ok_elem {A} (m : list (string * A)) k a :
  dict_get m k = Ok a → (k, a) ∈ m.
Proof.
  induction m as [|[k' a'] m IH]; simpl; [done|].
  case_decide; intros Hg; simplify_eq; [left|right; by apply IH].
Qed.

Lemma families_keyed fmap l :
  Forall (λ p, dict_get fmap p.1 = Ok p.2 ∧ p.2 ≠ []) l →
  mapM (λ v, names ← dict_get fmap v; key ← py_index names 0; Ok (key, v)) l.*1
  = Ok ((λ p, (first_group fmap p.1, p.1)) <$> l).
Proof.
  induction 1 as [|[f gs] l [Hget Hne] _ IH]; [done|].
  rewrite !fmap_cons. cbn [mapM]. rewrite IH. simpl in *.
  unfold first_group. rewrite Hget. simpl.
  destruct gs; done.
Qed.

Lemma fmap_entries_get fmap :
  NoDup fmap.*1 → Forall (λ p, p.2 ≠ []) fmap →
  Forall (λ p, dict_get fmap p.1 = Ok p.2 ∧ p.2 ≠ []) fmap.
Proof.
  intros Hnd Hne. apply Forall_forall. intros [f gs] Hin. split.
  - by apply dict_get_elem.
  - by eapply (proj1 (Forall_forall _ _) Hne (f, gs)).
Qed.

Lemma families_ordered_eq fmap :
  NoDup fmap.*1 → Forall (λ p, p.2 ≠ []) fmap →
  _families_ordered fmap
  = Ok (py_sorted ((λ p, (first_group fmap p.1, p.1)) <$> fmap)).*2.
Proof.
  intros Hnd Hne. unfold _families_ordered.
  by rewrite (families_keyed fmap fmap) by by apply fmap_entries_get.
Qed.

Lemma families_ordered_perm fmap :
  (py_sorted ((λ p, (first_group fmap p.1, p.1)) <$> fmap)).*2 ≡ₚ fmap.*1.
Proof.
  rewrite py_sorted_perm, <- list_fmap_compose. done.
Qed.

Lemma keyed_sorted_keys fmap :
  Forall (λ x, x.1 = first_group fmap x.2)
         (py_sorted ((λ p, (first_group fmap p.1, p.1)) <$> fmap)).
Proof.
  rewrite py_sorted_perm. apply Forall_fmap, Forall_true. done.
Qed.

Lemma StronglySorted_fmap_under {A B} (R : relation A) (R' : relation B)
    (P : A → Prop) (f : A → B) (l : list A) :
  (∀ x y, P x → P y → R x y → R' (f x) (f y)) →
  Forall P l → StronglySorted R l → StronglySorted R' (f <$> l).
Proof.
  intros HR HP Hs. induction Hs as [|x l Hs IH Hx]; simpl; [constructor|].
  apply Forall_cons in HP as [Px Pl]. constructor; [by apply IH|].
  apply Forall_fmap.
  eapply Forall_impl; [apply Forall_and; split; [exact Hx|exact Pl]|].
  intros y [Hy Py]. simpl. by apply HR.
Qed.

Lemma filter_keyed {A} (g : A → string) (k : string) (l : list (string * A)) :
  Forall (λ x, x.1 = g x.2) l →
  (filter (λ y, y.1 = k) l).*2 = filter (λ a, g a = k) l.*2.
Proof.
  induction 1 as [|[k' a] l Hx _ IH]; [done|]. simpl in *.
  rewrite !filter_cons. simpl. rewrite <- Hx.
  destruct (decide (k' = k)); simpl; [f_equal|]; exact IH.
Qed.

Lemma single_digit_leb a b :
  single_digit_type a → single_digit_type b →
  String.leb a b = true → (numeric_key a ≤ numeric_key b)%N.
Proof.
  intros (c1 & -> & H1) (c2 & -> & H2).
  unfold String.leb, numeric_key, type_index. simpl.
  rewrite ascii_compare_N.
  assert (∀ c : ascii, (48 ≤ N_of_ascii c ≤ 57)%N →
            (48 <=? N_of_ascii c)%N && (N_of_ascii c <=? 57)%N = true) as Hd.
  { intros c Hc. apply andb_true_iff. split; apply N.leb_le; lia. }
  rewrite !Hd by done. simpl.
  destruct (N.compare_spec (N_of_ascii c1) (N_of_ascii c2)); try done; lia.
Qed.

(** C7 (as amended): [_families_ordered] returns the families of the map,
    each once, stably sorted by the *name* of their first native group under
    Python's string order; where those names are [PartType] followed by a
    single digit, this is the order of the numeric type indices. *)
Theorem families_ordered_by_first_group_name fmap :
  NoDup fmap.*1 → Forall (λ p, p.2 ≠ []) fmap →
  ∃ fams, _families_ordered fmap = Ok fams ∧
    fams ≡ₚ fmap.*1 ∧
    StronglySorted
      (λ f g, String.leb (first_group fmap f) (first_group fmap g) = true) fams ∧
    (∀ k, filter (λ f, first_group fmap f = k) fams
          = filter (λ f, first_group fmap f = k) fmap.*1) ∧
    (Forall (λ f, single_digit_type (first_group fmap f)) fmap.*1 →
     StronglySorted
       (λ f g, (numeric_key (first_group fmap f)
                ≤ numeric_key (first_group fmap g))%N) fams).
Proof.
  intros Hnd Hne. eexists. split; [by apply families_ordered_eq|].
  pose proof (keyed_sorted_keys fmap) as Hk.
  pose proof (py_sorted_sorted ((λ p, (first_group fmap p.1, p.1)) <$> fmap)) as Hs.
  split_and!.
  - apply families_ordered_perm.
  - eapply (StronglySorted_fmap_under key_le _ _ snd); [|exact Hk|exact Hs].
    intros x y Hx Hy. unfold key_le. by rewrite Hx, Hy.
  - intros k. rewrite <- (filter_keyed (first_group fmap) k _ Hk).
    rewrite py_sorted_stable.
    rewrite (filter_keyed (first_group fmap) k).
    + by rewrite <- list_fmap_compose.
    + apply Forall_fmap, Forall_true. done.
  - intros Hsd.
    eapply (StronglySorted_fmap_under key_le _
              (λ x, x.1 = first_group fmap x.2 ∧ single_digit_type x.1) snd);
      [| |exact Hs].
    + intros x y [Hx Hx'] [Hy Hy'] Hxy. rewrite <- Hx, <- Hy.
      by apply single_digit_leb.
    + rewrite py_sorted_perm. apply Forall_fmap, Forall_forall.
      intros [f gs] Hin. simpl. split; [done|].
      apply (proj1 (Forall_forall _ _) Hsd). apply list_elem_of_fmap.
      by exists (f, gs).
Qed.

End FamilyOrder.

Lemma example_family_map :
  __init_family_map Example.files Example.hdf_files Example._default_type_map
  = [("gas", ["PartType0"]); ("dm", ["PartType1"]); ("star", ["PartType4"])].
Proof. vm_compute. reflexivity. Qed.

Lemma families_ordered_by_first_group_name_witness :
  ∃ fams,
    _families_ordered [("star", ["PartType4"]); ("gas", ["PartType0"]);
                       ("dm", ["PartType1"])] = Ok fams ∧
    fams ≡ₚ ["star"; "gas"; "dm"].
Proof.
  destruct (families_ordered_by_first_group_name
              [("star", ["PartType4"]); ("gas", ["PartType0"]);
               ("dm", ["PartType1"])])
    as (fams & Hf & Hp & _).
  - apply (bool_decide_unpack _). vm_compute. exact I.
  - repeat constructor; discriminate.
  - exists fams. split; [exact Hf|exact Hp].
Defined.

(** C7, as stated, fails: a family whose first group is [PartType10] is put
    before one whose first group is [PartType2], because the keys are
    compared as strings. *)
Lemma families_ordered_is_not_numeric :
  _families_ordered [("dm", ["PartType2"]); ("star", ["PartType10"])]
  = Ok ["star"; "dm"] ∧
  type_index "PartType10" = Some 10%N ∧ type_index "PartType2" = Some 2%N ∧
  ¬ (∀ fmap fams, _families_ordered fmap = Ok fams →
       StronglySorted
         (λ f g, (numeric_key (first_group fmap f)
                  ≤ numeric_key (first_group fmap g))%N) fams).
Proof.
  split_and!; [by vm_compute|by vm_compute|by vm_compute|].
  intros H.
  specialize (H [("dm", ["PartType2"]); ("star", ["PartType10"])]
                ["star"; "dm"] eq_refl).
  apply StronglySorted_inv in H as [_ H].
  apply Forall_cons in H as [H _]. vm_compute in H. by apply H.
Qed.

(* ----------------------------------------------------------------- *)
(** ** The flat index layout *)

Section Chains.
Implicit Types (l : list slice) (a b c i : nat).

Lemma chain_le a b l : chain a b l → (a ≤ b)%nat.
Proof. induction 1; lia. Qed.

Lemma chain_lookup a b l k s :
  chain a b l → l !! k = Some s → (a ≤ s.1 ∧ s.1 ≤ s.2 ∧ s.2 ≤ b)%nat.
Proof.
  intros Hc. revert k. induction Hc as [|a b c l Hab Hc IH]; intros k Hk; [done|].
  pose proof (chain_le _ _ _ Hc).
  destruct k as [|k]; simpl in Hk.
  - simplify_eq. simpl. lia.
  - apply IH in Hk. lia.
Qed.

Lemma chain_cover a b l i :
  chain a b l → ((a ≤ i < b)%nat ↔ ∃ k s, l !! k = Some s ∧ in_slice i s).
Proof.
  induction 1 as [a|a b c l Hab Hc IH].
  - split; [lia|]. by intros (k & s & Hk & _).
  - pose proof (chain_le _ _ _ Hc). split.
    + intros Hi. destruct (decide (i < b)%nat) as [Hlt|Hge].
      * exists 0%nat, (a, b). split; [done|]. unfold in_slice. simpl. lia.
      * destruct (proj1 IH) as (k & s & Hk & Hs); [lia|].
        by exists (S k), s.
    + intros (k & s & Hk & Hs). destruct k as [|k]; simpl in Hk.
      * simplify_eq. unfold in_slice in Hs. simpl in Hs. lia.
      * assert (b ≤ i < c)%nat; [|lia]. apply IH. eauto.
Qed.

Lemma chain_disjoint a b l i j k s t :
  chain a b l → l !! j = Some s → l !! k = Some t →
  in_slice i s → in_slice i t → j = k.
Proof.
  intros Hc. revert j k.
  induction Hc as [|a b c l Hab Hc IH]; intros j k Hj Hk Hs Ht; [done|].
  unfold in_slice in *.
  destruct j as [|j], k as [|k]; simpl in *; simplify_eq/=; try done.
  - pose proof (chain_lookup _ _ _ _ _ Hc Hk). lia.
  - pose proof (chain_lookup _ _ _ _ _ Hc Hj). lia.
  - f_equal. by eapply IH.
Qed.

Lemma chain_exact_partition a b l : chain a b l → exact_partition a b l.
Proof.
  intros Hc. split_and!; [done| |].
  - intros i. by apply chain_cover.
  - intros i j k s t. by apply (chain_disjoint a b).
Qed.

End Chains.

Section LayoutFacts.
Context {V dtype : Type}.
Variable cls : manager_class.
Variable d : disk V dtype.
Variable hdf_files : list ref.
Implicit Types (fmap : list (family * list string)).

Lemma for_each_sizes (gs : list ref) (acc : nat) :
  Forall (λ g, ∃ ids n, h5_getitem d g snap_size_from_hdf5_key = Ok ids ∧
                        h5_size d ids = Ok n) gs →
  ∃ n, for_each (λ hdf_group len,
                   ids ← h5_getitem d hdf_group snap_size_from_hdf5_key;
                   n ← h5_size d ids;
                   Ok (len + n)) gs acc = Ok n.
Proof.
  intros H. revert acc. induction H as [|g gs (ids & n & Hg & Hn) _ IH]; intros acc.
  - by exists acc.
  - simpl. rewrite Hg. simpl. rewrite Hn. simpl. apply IH.
Qed.

Lemma ptype_slice_len_ok (names : list string) (name : string) :
  sizes_are_datasets cls d hdf_files names = true → name ∈ names →
  ∃ n, ptype_slice_len cls d hdf_files name = Ok n.
Proof.
  intros Hs Hin. unfold sizes_are_datasets in Hs.
  rewrite forallb_forall in Hs. apply list_elem_of_In, Hs in Hin.
  rewrite forallb_forall in Hin.
  apply for_each_sizes, Forall_forall. intros g Hg.
  apply list_elem_of_In, Hin in Hg.
  destruct (h5_getitem d g snap_size_from_hdf5_key) as [ids|]; [|done].
  destruct (h5_size d ids) as [n|] eqn:Hsize; [|done]. eauto.
Qed.

Lemma Forall2_impl_elem {A B} (P Q : A → B → Prop) (l : list A) (k : list B) :
  Forall2 P l k → (∀ x y, x ∈ l → P x y → Q x y) → Forall2 Q l k.
Proof.
  induction 1 as [|x y l k Hxy _ IH]; intros HPQ; constructor.
  - apply HPQ; [left|done].
  - apply IH. intros x' y' Hin. apply HPQ. by right.
Qed.

(** The loop over the native groups of one family lays their slices end to
    end from [start], each as long as the group is on disk. *)
Lemma file_map_ptype_loop (names : list string) ptype_slice family_length start :
  NoDup names →
  Forall (λ name, ∃ n, ptype_slice_len cls d hdf_files name = Ok n) names →
  ∃ ptype_slice' stop sl,
    for_each (file_map_ptype cls d hdf_files) names
             (ptype_slice, family_length, start)
    = Ok (ptype_slice', family_length + (stop - start), stop) ∧
    chain start stop sl ∧
    Forall2 (λ g s, ptype_slice' !! g = Some s ∧
                    ptype_slice_len cls d hdf_files g = Ok (s.2 - s.1))
            names sl ∧
    (∀ g, g ∉ names → ptype_slice' !! g = ptype_slice !! g).
Proof.
  intros Hnd Hok. revert ptype_slice family_length start.
  induction Hok as [|name names [n Hn] _ IH]; intros ps fl start.
  - exists ps, start, []. split_and!; [|constructor|constructor|done].
    simpl. do 3 f_equal. lia.
  - apply NoDup_cons in Hnd as [Hname Hnd].
    destruct (IH Hnd (<[name := (start, start + n)]> ps) (fl + n) (start + n))
      as (ps' & stop & sl & Hloop & Hchain & Hsl & Hframe).
    pose proof (chain_le _ _ _ Hchain).
    exists ps', stop, ((start, start + n) :: sl). split_and!.
    + simpl. rewrite Hn. simpl. rewrite Hloop. do 3 f_equal. lia.
    + constructor; [lia|done].
    + constructor; [|done]. split.
      * rewrite Hframe by done. apply lookup_insert_eq.
      * simpl. rewrite Hn. f_equal. lia.
    + intros g Hg. apply not_elem_of_cons in Hg as [Hne Hg].
      rewrite Hframe by done. by rewrite lookup_insert_ne.
Qed.

(** The loop over the families lays the family slices end to end from
    [start], and inside each the slices of its groups. *)
Lemma file_map_family_loop fmap (fams : list family) ptype_slice family_slice start :
  NoDup fams → NoDup (fams ≫= groups_of fmap) →
  Forall (λ fam, ∃ gs, dict_get fmap fam = Ok gs ∧
            Forall (λ name, ∃ n, ptype_slice_len cls d hdf_files name = Ok n) gs)
         fams →
  ∃ ptype_slice' family_slice' stop fsl,
    for_each (file_map_family cls d hdf_files fmap) fams
             (ptype_slice, family_slice, start)
    = Ok (ptype_slice', family_slice', stop) ∧
    chain start stop fsl ∧
    Forall2 (λ f s, family_slice' !! f = Some s) fams fsl ∧
    (∀ f, f ∈ fams →
       ∃ a b gsl, family_slice' !! f = Some (a, b) ∧
         Forall2 (λ g s, ptype_slice' !! g = Some s ∧
                         ptype_slice_len cls d hdf_files g = Ok (s.2 - s.1))
                 (groups_of fmap f) gsl ∧
         chain a b gsl) ∧
    (∀ f, f ∉ fams → family_slice' !! f = family_slice !! f) ∧
    (∀ g, g ∉ fams ≫= groups_of fmap → ptype_slice' !! g = ptype_slice !! g).
Proof.
  intros Hnd Hgnd Hok. revert ptype_slice family_slice start.
  induction Hok as [|fam fams (gs & Hget & Hgs) _ IH]; intros ps fs start.
  - exists ps, fs, start, []. split_and!; try done; try constructor.
    intros f Hf. by apply elem_of_nil in Hf.
  - apply NoDup_cons in Hnd as [Hfam Hnd].
    rewrite bind_cons in Hgnd. apply NoDup_app in Hgnd as (Hgs_nd & Hdisj & Hrest_nd).
    assert (groups_of fmap fam = gs) as Hgo by (unfold groups_of; by rewrite Hget).
    rewrite Hgo in Hgs_nd, Hdisj.
    destruct (file_map_ptype_loop gs ps 0 start Hgs_nd Hgs)
      as (ps1 & mid & gsl & Hinner & Hgchain & Hgsl & Hgframe).
    destruct (IH Hnd Hrest_nd ps1 (<[fam := (start, mid)]> fs) mid)
      as (ps' & fs' & stop & fsl & Hloop & Hchain & Hfsl & Hfams & Hfframe & Hpframe).
    pose proof (chain_le _ _ _ Hgchain).
    assert (fs' !! fam = Some (start, mid)) as Hfam_slice.
    { rewrite Hfframe by done. apply lookup_insert_eq. }
    exists ps', fs', stop, ((start, mid) :: fsl). split_and!.
    + simpl. rewrite Hget. simpl. rewrite Hinner. simpl.
      replace (start + (mid - start))%nat with mid by lia. exact Hloop.
    + constructor; [lia|done].
    + by constructor.
    + intros f Hf. apply elem_of_cons in Hf as [->|Hf]; [|by apply Hfams].
      exists start, mid, gsl. split_and!; [done| |done].
      rewrite Hgo. eapply Forall2_impl_elem; [exact Hgsl|].
      intros g s Hin [Hg Hlen]. split; [|done].
      rewrite Hpframe; [done|]. by apply Hdisj.
    + intros f Hf. apply not_elem_of_cons in Hf as [Hne Hf].
      rewrite Hfframe by done. by rewrite lookup_insert_ne.
    + intros g Hg. rewrite bind_cons in Hg. apply not_elem_of_app in Hg as [Hg1 Hg2].
      rewrite Hpframe by done. apply Hgframe. by rewrite <- Hgo.
Qed.

End LayoutFacts.

(* ----------------------------------------------------------------- *)
(** ** The layout: what the lengths count *)

Section FamilyLayout.
Context {V dtype : Type}.
Variable cls : manager_class.
Variable d : disk V dtype.
Variable hdf_files : list ref.
Implicit Types (fmap : list (family * list string)) (gs : list string).

#[local] Abbreviation groups_named :=
  (iter_particle_groups_with_name cls d hdf_files).

Lemma sizes_loop_sum (groups : list ref) (acc n : nat) :
  for_each (λ hdf_group len,
              ids ← h5_getitem d hdf_group snap_size_from_hdf5_key;
              n ← h5_size d ids;
              Ok (len + n)) groups acc = Ok n →
  n = (acc + sum_list (npart_of d <$> groups))%nat ∧
  Forall (λ g, group_size d g = Ok (npart_of d g)) groups.
Proof.
  revert acc. induction groups as [|g groups IH]; intros acc; simpl.
  - intros [= ->]. split; [lia|constructor].
  - assert ((ids ← h5_getitem d g snap_size_from_hdf5_key;
             n ← h5_size d ids; Ok (acc + n)%nat)
            = (n ← group_size d g; Ok (acc + n)%nat)) as ->.
    { unfold group_size. by destruct (h5_getitem d g snap_size_from_hdf5_key). }
    destruct (group_size d g) as [k|] eqn:Hk; [|done]. simpl. intros Hloop.
    apply IH in Hloop as [-> Hrest].
    assert (npart_of d g = k) as Hnpart by (unfold npart_of; by rewrite Hk).
    change (list_fmap ref nat (npart_of d) groups) with (npart_of d <$> groups).
    split; [lia|]. constructor; [congruence|done].
Qed.

(** The length [__init_file_map] gives to a native group is the number of
    its particles over all shards, as the loader counts them. *)
Lemma ptype_slice_len_sum name n :
  ptype_slice_len cls d hdf_files name = Ok n →
  n = sum_list (npart_of d <$> groups_named name) ∧
  Forall (λ g, group_size d g = Ok (npart_of d g)) (groups_named name).
Proof. intros Hn. by apply sizes_loop_sum in Hn. Qed.

(** The groups of a family laid end to end fill its slice. *)
Lemma chain_sum gs (sl : list slice) a b :
  Forall2 (λ g s, ptype_slice_len cls d hdf_files g = Ok (s.2 - s.1)%nat) gs sl →
  chain a b sl →
  (a + sum_list (npart_of d <$> (gs ≫= groups_named)) = b)%nat.
Proof.
  intros Hsl. revert a.
  induction Hsl as [|g s gs sl Hg _ IH]; intros a Hchain.
  - inversion Hchain. simpl. lia.
  - inversion Hchain as [|a' m b' sl' Hle Hrest]; subst.
    rewrite bind_cons, fmap_app, sum_list_with_app.
    apply ptype_slice_len_sum in Hg as [Hg _]. simpl in Hg.
    apply IH in Hrest. lia.
Qed.

(** Splitting a family at one of its groups. *)
Lemma chain_split {P : string → slice → Prop} gs (sl : list slice) a b g :
  Forall2 P gs sl → chain a b sl → g ∈ gs →
  ∃ gs1 gs2 sl1 sl2 p q,
    gs = (gs1 ++ g :: gs2)%list ∧ P g (p, q) ∧
    Forall2 P gs1 sl1 ∧ Forall2 P gs2 sl2 ∧
    chain a p sl1 ∧ (p ≤ q)%nat ∧ chain q b sl2.
Proof.
  intros Hsl. revert a.
  induction Hsl as [|g' s gs sl Hg' Hsl IH]; intros a Hchain Hin.
  - by apply elem_of_nil in Hin.
  - inversion Hchain as [|a' m b' sl' Hle Hrest]; subst.
    destruct (decide (g = g')) as [->|Hne].
    + exists [], gs, [], sl, a, m. split_and!; try done; constructor.
    + apply elem_of_cons in Hin as [?|Hin]; [done|].
      destruct (IH _ Hrest Hin)
        as (gs1 & gs2 & sl1 & sl2 & p & q & -> & Hg & H1 & H2 & Hc1 & Hpq & Hc2).
      exists (g' :: gs1), gs2, ((a, m) :: sl1), sl2, p, q.
      split_and!; try done; by constructor.
Qed.

(** The families laid end to end fill the snapshot. *)
Lemma families_sum fmap (fams : list family) (fsl : list slice)
    (fs' ps' : gmap string slice) start stop :
  chain start stop fsl →
  Forall2 (λ f s, fs' !! f = Some s) fams fsl →
  (∀ f, f ∈ fams →
     ∃ a b gsl, fs' !! f = Some (a, b) ∧
       Forall2 (λ g s, ps' !! g = Some s ∧
                       ptype_slice_len cls d hdf_files g = Ok (s.2 - s.1)%nat)
               (groups_of fmap f) gsl ∧
       chain a b gsl) →
  (start + sum_list (npart_of d <$> ((fams ≫= groups_of fmap) ≫= groups_named))
   = stop)%nat.
Proof.
  intros Hchain Hfsl. revert start Hchain.
  induction Hfsl as [|f s fams fsl Hf _ IH]; intros start Hchain Hgroups.
  - inversion Hchain. simpl. lia.
  - inversion Hchain as [|a' mid b' sl' Hle Hrest]; subst.
    destruct (Hgroups f) as (a & b & gsl & Hf' & Hgsl & Hgchain); [by left|].
    rewrite Hf in Hf'. injection Hf' as <- <-.
    rewrite !bind_cons, bind_app, fmap_app, sum_list_with_app.
    pose proof (chain_sum (groups_of fmap f) gsl start mid)
      as Hsum.
    specialize (Hsum ltac:(eapply Forall2_impl; [exact Hgsl|by intros ?? [_ ?]])
                     Hgchain).
    specialize (IH mid Hrest ltac:(intros f' Hf'; apply Hgroups; by right)).
    lia.
Qed.

End FamilyLayout.

Section FileMapClaim.
Context {V dtype : Type}.
Variable cls : manager_class.
Variable d : disk V dtype.
Variable hdf_files : list ref.
Implicit Types (fmap dtm : list (family * list string)).

#[local] Abbreviation groups_named :=
  (iter_particle_groups_with_name cls d hdf_files).

Lemma init_family_map_cons fam g_types dtm :
  __init_family_map d hdf_files ((fam, g_types) :: dtm)
  = match filter (λ x, Exists (λ hdf, h5_contains d hdf x = true) hdf_files)
                 g_types with
    | [] => __init_family_map d hdf_files dtm
    | my_types => (fam, my_types) :: __init_family_map d hdf_files dtm
    end.
Proof. unfold __init_family_map. simpl. by destruct (filter _ _). Qed.

(** [__init_family_map] keeps the families and the group names of the
    configured map, in order, and drops the families left without a group. *)
Lemma init_family_map_sublist dtm :
  (__init_family_map d hdf_files dtm).*1 `sublist_of` dtm.*1 ∧
  concat (__init_family_map d hdf_files dtm).*2 `sublist_of` concat dtm.*2 ∧
  Forall (λ p, p.2 ≠ []) (__init_family_map d hdf_files dtm).
Proof.
  induction dtm as [|[fam g_types] dtm (IH1 & IH2 & IH3)].
  - split_and!; constructor.
  - rewrite init_family_map_cons.
    pose proof (sublist_filter
      (λ x, Exists (λ hdf, h5_contains d hdf x = true) hdf_files) g_types) as Hsub.
    destruct (filter _ g_types) as [|g gs].
    + rewrite !fmap_cons. cbn [concat fst snd]. split_and!.
      * by apply sublist_cons.
      * by apply sublist_inserts_l.
      * done.
    + rewrite !fmap_cons. cbn [concat fst snd]. split_and!.
      * by apply sublist_skip.
      * by apply sublist_app.
      * by constructor.
Qed.

Lemma groups_of_entries fmap :
  NoDup fmap.*1 → fmap.*1 ≫= groups_of fmap = concat fmap.*2.
Proof.
  intros Hnd.
  assert (∀ l, Forall (λ p, dict_get fmap p.1 = Ok p.2) l →
               l.*1 ≫= groups_of fmap = concat l.*2) as H.
  { induction 1 as [|[f gs] l Hget _ IH]; [done|].
    rewrite !fmap_cons, bind_cons. simpl in *. rewrite IH.
    unfold groups_of. by rewrite Hget. }
  apply H, Forall_forall. intros [f gs] Hin. by apply dict_get_elem.
Qed.

(** C1: for a snapshot whose configured type map names every family once
    and every native group once, and whose size-marker entries are
    datasets, the layout built at construction is an exact partition: the
    family slices, in family iteration order, are contiguous, disjoint and
    cover [[0, N)], where [N], the length given to the snapshot, is the
    number of particles on disk: the sum of the sizes of the [ParticleIDs]
    of every native group of the map in every shard that holds it.  Inside
    each family the slices of its native groups are contiguous, disjoint
    and cover the family's slice, each as long as the [ParticleIDs] of its
    group are over all shards (zero included). *)
Theorem file_map_is_exact_partition dtm (family_slice0 : gmap family slice) :
  NoDup dtm.*1 → NoDup (concat dtm.*2) →
  sizes_are_datasets cls d hdf_files (concat dtm.*2) = true →
  let fmap := __init_family_map d hdf_files dtm in
  ∃ fams L fsl,
    _families_ordered fmap = Ok fams ∧
    __init_file_map cls d hdf_files fmap family_slice0 = Ok L ∧
    Forall2 (λ f s, _family_slice L !! f = Some s) fams fsl ∧
    exact_partition 0 (_num_particles L) fsl ∧
    _num_particles L
    = sum_list (npart_of d <$> (concat fmap.*2 ≫= groups_named)) ∧
    Forall (λ r, group_size d r = Ok (npart_of d r))
           (concat fmap.*2 ≫= groups_named) ∧
    ∀ f gs, (f, gs) ∈ fmap →
      ∃ a b gsl,
        _family_slice L !! f = Some (a, b) ∧
        Forall2 (λ g s, _gadget_ptype_slice L !! g = Some s ∧
                        (s.2 - s.1)%nat
                        = sum_list (npart_of d <$> groups_named g))
                gs gsl ∧
        exact_partition a b gsl.
Proof.
  intros Hnd_dtm Hgnd_dtm Hsizes fmap.
  destruct (init_family_map_sublist dtm) as (Hsub1 & Hsub2 & Hne).
  fold fmap in Hsub1, Hsub2, Hne.
  assert (NoDup fmap.*1) as Hnd by (eapply sublist_NoDup; [exact Hnd_dtm|done]).
  assert (NoDup (concat fmap.*2)) as Hgnd
    by (eapply sublist_NoDup; [exact Hgnd_dtm|done]).
  assert (∀ name, name ∈ concat fmap.*2 →
                  ∃ n, ptype_slice_len cls d hdf_files name = Ok n) as Hlen.
  { intros name Hname. eapply ptype_slice_len_ok; [exact Hsizes|].
    eapply elem_of_sublist; [exact Hname|exact Hsub2]. }
  set (fams := (py_sorted ((λ p, (first_group fmap p.1, p.1)) <$> fmap)).*2).
  assert (_families_ordered fmap = Ok fams) as Hfams
    by (by apply families_ordered_eq).
  assert (fams ≡ₚ fmap.*1) as Hperm by apply families_ordered_perm.
  destruct (file_map_family_loop cls d hdf_files fmap fams ∅ family_slice0 0)
    as (ps' & fs' & stop & fsl & Hloop & Hchain & Hfsl & Hgroups & _ & _).
  - by rewrite Hperm.
  - rewrite Hperm, groups_of_entries; done.
  - apply Forall_forall. intros fam Hfam. rewrite Hperm in Hfam.
    apply list_elem_of_fmap in Hfam as ([f gs] & -> & Hin). simpl.
    exists gs. split; [by apply dict_get_elem|].
    apply Forall_forall. intros name Hname. apply Hlen.
    apply list_elem_of_In, in_concat. exists gs.
    split; [|by apply list_elem_of_In].
    apply list_elem_of_In, list_elem_of_fmap. by exists (f, gs).
  - exists fams, (FileMap ps' fs' stop), fsl. split_and!.
    + done.
    + unfold __init_file_map. rewrite Hfams. simpl. by rewrite Hloop.
    + done.
    + by apply chain_exact_partition.
    + simpl.
      pose proof (families_sum cls d hdf_files fmap fams fsl fs' ps' 0 stop
                    Hchain Hfsl Hgroups) as Hsum.
      rewrite Hperm, groups_of_entries in Hsum by done. lia.
    + apply Forall_forall. intros g Hg.
      apply list_elem_of_bind in Hg as (name & Hg & Hname).
      destruct (Hlen name Hname) as [n Hn].
      apply ptype_slice_len_sum in Hn as [_ Hall].
      by apply (proj1 (Forall_forall _ _) Hall).
    + intros f gs Hin. simpl.
      destruct (Hgroups f) as (a & b & gsl & Hf & Hgsl & Hgchain).
      { rewrite Hperm. apply list_elem_of_fmap. by exists (f, gs). }
      exists a, b, gsl. split_and!; [done| |by apply chain_exact_partition].
      unfold groups_of in Hgsl. rewrite (dict_get_elem fmap f gs) in Hgsl by done.
      eapply Forall2_impl; [exact Hgsl|].
      intros g s [Hs Hglen]. split; [done|].
      by apply ptype_slice_len_sum in Hglen as [Hglen _].
Qed.

End FileMapClaim.

(** The layout of the example snapshot: gas in [[0, 3)], dark matter in
    [[3, 6)] (two particles in shard 0, one in shard 1), stars in [[6, 8)]. *)
Lemma example_file_map :
  __init_file_map _GadgetHdfMultiFileManager Example.files Example.hdf_files
    (__init_family_map Example.files Example.hdf_files Example._default_type_map)
    ∅
  = Ok (FileMap
          {[ "PartType0" := (0, 3); "PartType1" := (3, 6); "PartType4" := (6, 8) ]}
          {[ "gas" := (0, 3); "dm" := (3, 6); "star" := (6, 8) ]}
          8).
Proof. vm_compute. reflexivity. Qed.

Lemma file_map_is_exact_partition_witness :
  ∃ fams L fsl,
    _families_ordered
      (__init_family_map Example.files Example.hdf_files
                         Example._default_type_map) = Ok fams ∧
    __init_file_map _GadgetHdfMultiFileManager Example.files Example.hdf_files
      (__init_family_map Example.files Example.hdf_files
                         Example._default_type_map) ∅ = Ok L ∧
    Forall2 (λ f s, _family_slice L !! f = Some s) fams fsl ∧
    exact_partition 0 (_num_particles L) fsl ∧
    _num_particles L
    = sum_list (npart_of Example.files
                  <$> (concat (__init_family_map Example.files Example.hdf_files
                                 Example._default_type_map).*2
                         ≫= iter_particle_groups_with_name
                              _GadgetHdfMultiFileManager Example.files
                              Example.hdf_files)).
Proof.
  destruct (file_map_is_exact_partition _GadgetHdfMultiFileManager
              Example.files Example.hdf_files Example._default_type_map ∅)
    as (fams & L & fsl & H1 & H2 & H3 & H4 & H5 & _).
  - apply (bool_decide_unpack _). vm_compute. exact I.
  - apply (bool_decide_unpack _). vm_compute. exact I.
  - vm_compute. reflexivity.
  - exists fams, L, fsl. split_and!; assumption.
Defined.

(* ----------------------------------------------------------------- *)
(** ** Strings: indices against concatenation *)

Section StringFacts.
Implicit Types (s t u pre : string) (c : ascii).

Lemma string_app_cons c s t : (String c s ++ t)%string = String c (s ++ t).
Proof. reflexivity. Qed.

Lemma string_app_nil_l s : ("" ++ s)%string = s.
Proof. reflexivity. Qed.

Lemma string_length_app s t :
  String.length (s ++ t) = (String.length s + String.length t)%nat.
Proof.
  induction s as [|c s IH]; [done|].
  rewrite string_app_cons. simpl. by rewrite IH.
Qed.

Lemma string_app_assoc s t u : ((s ++ t) ++ u = s ++ (t ++ u))%string.
Proof.
  induction s as [|c s IH]; [done|].
  rewrite !string_app_cons. by rewrite IH.
Qed.

Lemma string_app_nil_r s : (s ++ "")%string = s.
Proof.
  induction s as [|c s IH]; [done|].
  rewrite string_app_cons. by rewrite IH.
Qed.

Lemma string_get_app_r s t n :
  String.get (String.length s + n) (s ++ t) = String.get n t.
Proof.
  induction s as [|c s IH]; [done|].
  rewrite string_app_cons. simpl. exact IH.
Qed.

Lemma string_get_last pre t :
  pre ≠ "" →
  String.get (String.length pre - 1) (pre ++ t) = last_char pre.
Proof.
  induction pre as [|c pre IH]; [done|]. intros _.
  destruct pre as [|c' pre]; [done|].
  replace (String.length (String c (String c' pre)) - 1)%nat
    with (S (String.length (String c' pre) - 1)) by (simpl; lia).
  rewrite string_app_cons.
  change (String.get (S ?n) (String c ?s)) with (String.get n s).
  rewrite IH by done. done.
Qed.

Lemma substring_app_r s t k n :
  substring (String.length s + k) n (s ++ t) = substring k n t.
Proof.
  induction s as [|c s IH]; [done|].
  rewrite string_app_cons. simpl. exact IH.
Qed.

Lemma substring_0_app s t n :
  substring 0 (String.length s + n) (s ++ t) = (s ++ substring 0 n t)%string.
Proof.
  induction s as [|c s IH]; [done|].
  rewrite !string_app_cons. simpl. by rewrite IH.
Qed.

(** Dropping the last character of a text that starts with a token and a
    white space leaves the token and, if anything, the white space first. *)
Lemma drop_last_after_token tok w rest :
  ∃ tail, substring 0 (String.length (tok ++ String w rest) - 1)
                    (tok ++ String w rest) = (tok ++ tail)%string ∧
          (tail = "" ∨ ∃ tail', tail = String w tail').
Proof.
  rewrite string_length_app. simpl.
  replace (String.length tok + S (String.length rest) - 1)%nat
    with (String.length tok + String.length rest)%nat by lia.
  rewrite substring_0_app. eexists. split; [done|].
  destruct rest; simpl; eauto.
Qed.

Lemma py_split_from_token cur tok s :
  no_space tok = true →
  py_split_from cur (tok ++ s) = py_split_from (cur ++ tok) s.
Proof.
  revert cur. induction tok as [|c tok IH]; intros cur Hns.
  - by rewrite string_app_nil_r.
  - simpl in Hns. apply andb_true_iff in Hns as [Hc Hns].
    apply negb_true_iff in Hc. rewrite string_app_cons. simpl.
    rewrite Hc, IH by done.
    rewrite string_app_assoc. done.
Qed.

Lemma py_split_first_token tok w tail :
  is_token tok → is_space w = true →
  (tail = "" ∨ ∃ tail', tail = String w tail') →
  py_index (py_split (tok ++ tail)) 0 = Ok tok.
Proof.
  intros [Hne Hns] Hw Htail. unfold py_split.
  rewrite py_split_from_token by done. rewrite string_app_nil_l.
  destruct Htail as [->|[tail' ->]]; simpl.
  - by destruct tok.
  - rewrite Hw. by destruct tok.
Qed.

End StringFacts.

(* ----------------------------------------------------------------- *)
(** ** The exponent of a symbol *)

Section DescriptionClaims.
Context `{UnitAlgebra U Frac}.
Implicit Types (pre unitname suffix description tok rest : string).

Lemma last_char_is_Some pre : pre ≠ "" → is_Some (last_char pre).
Proof.
  induction pre as [|c pre IH]; [done|]. intros _.
  destruct pre; [by eexists|]. apply IH. done.
Qed.

(** The first step: the slash in front of the symbol. *)
Lemma slash_stage pre t :
  (if (0 <? String.length pre)%nat then
     c ← py_str_index (pre ++ t) (String.length pre - 1);
     if Ascii.eqb c "/" then Ok (1 * -1)%float else Ok 1%float
   else Ok 1%float)
  = Ok (slash_power pre).
Proof.
  destruct pre as [|c0 pre0] eqn:Hpre; [done|]. rewrite <- Hpre.
  assert (pre ≠ "") as Hne by (by rewrite Hpre).
  replace (0 <? String.length pre)%nat with true
    by (symmetry; apply Nat.ltb_lt; rewrite Hpre; simpl; lia).
  unfold py_str_index, slash_power. rewrite string_get_last by done.
  destruct (last_char_is_Some pre Hne) as [c ->]. simpl.
  by destruct (Ascii.eqb c "/").
Qed.

Lemma get_after pre unitname suffix n :
  String.get (String.length pre + String.length unitname + n)
             (pre ++ unitname ++ suffix)
  = String.get n suffix.
Proof.
  rewrite <- Nat.add_assoc, string_get_app_r, string_get_app_r. done.
Qed.

Lemma slice_after pre unitname mid text :
  py_slice_to_last (pre ++ unitname ++ mid ++ text)
    (String.length pre + String.length unitname + String.length mid)
  = substring 0 (String.length text - 1) text.
Proof.
  unfold py_slice_to_last. rewrite !string_length_app.
  replace (String.length pre + String.length unitname + String.length mid)%nat
    with (String.length pre + (String.length unitname
                               + (String.length mid + 0)))%nat by lia.
  rewrite !substring_app_r. f_equal. lia.
Qed.

(** Where the parser reads the exponent as meant, for a symbol whose first
    occurrence follows [pre] and is followed by [suffix].  It starts from
    [1.], negated when the character before the symbol is a slash.  When
    the symbol ends the description, or the next character is not a caret,
    that is the exponent, and the parse succeeds.  When a caret follows and
    after it a token that white space ends, the exponent is multiplied by
    the number the token reads as; a minus sign right after the caret
    negates it first. *)
Theorem symbol_power_of_slash_and_caret pre unitname suffix :
  String.index 0 unitname (pre ++ unitname ++ suffix) = Some (String.length pre) →
  ((suffix = "" ∨ ∃ c rest, suffix = String c rest ∧ c ≠ "^"%char) →
   symbol_power (pre ++ unitname ++ suffix) unitname
   = Some (Ok (slash_power pre))) ∧
  (∀ tok w rest x,
     suffix = ("^-" ++ tok ++ String w rest)%string →
     is_token tok → is_space w = true → py_float tok = Ok x →
     symbol_power (pre ++ unitname ++ suffix) unitname
     = Some (Ok (slash_power pre * -1 * x)%float)) ∧
  (∀ tok w rest x,
     suffix = ("^" ++ tok ++ String w rest)%string →
     is_token tok → String.get 0 tok ≠ Some "-"%char →
     is_space w = true → py_float tok = Ok x →
     symbol_power (pre ++ unitname ++ suffix) unitname
     = Some (Ok (slash_power pre * x)%float)).
Proof.
  intros Hfind. unfold symbol_power. rewrite Hfind. simpl.
  unfold symbol_power_at. rewrite slash_stage.
  change (Ok (slash_power pre) ≫= ?k) with (k (slash_power pre)).
  cbv beta.
  assert (∀ c rest, suffix = String c rest →
            (String.length pre + String.length unitname
             <? String.length (pre ++ unitname ++ suffix))%nat = true) as Hlong.
  { intros c rest ->. apply Nat.ltb_lt. rewrite !string_length_app. simpl. lia. }
  assert (∀ n, py_str_index (pre ++ unitname ++ suffix)
                 (String.length pre + String.length unitname + n)
               = py_str_index suffix n) as Hget.
  { intros n. unfold py_str_index. by rewrite get_after. }
  pose proof (Hget 0%nat) as Hget0. rewrite Nat.add_0_r in Hget0.
  split_and!.
  - intros [->|(c & rest & -> & Hc)].
    + replace (_ <? _)%nat with false; [done|].
      symmetry. apply Nat.ltb_ge. rewrite !string_length_app. simpl. lia.
    + rewrite (Hlong c rest eq_refl), Hget0. simpl.
      apply Ascii.eqb_neq in Hc. by rewrite Hc.
  - intros tok w rest x -> Htok Hw Hx.
    rewrite (Hlong _ _ eq_refl), Hget0, Hget. simpl.
    pose proof (slice_after pre unitname "^-" (tok ++ String w rest)) as Hs.
    simpl String.length in Hs. rewrite Hs.
    destruct (drop_last_after_token tok w rest) as (tail & -> & Htail).
    rewrite (py_split_first_token tok w tail) by done. simpl.
    by rewrite Hx.
  - intros tok w rest x -> Htok Hminus Hw Hx.
    rewrite (Hlong _ _ eq_refl), Hget0, Hget. simpl.
    assert (∃ c1, String.get 0 tok = Some c1 ∧
              py_str_index ("^" ++ tok ++ String w rest) 1 = Ok c1)
      as (c1 & Hc1 & ->).
    { destruct Htok as [Hne _]. destruct tok as [|c1 tok1]; [done|]. by exists c1. }
    simpl. replace (Ascii.eqb c1 "-") with false.
    2:{ symmetry. apply Ascii.eqb_neq. intros ->. by apply Hminus. }
    pose proof (slice_after pre unitname "^" (tok ++ String w rest)) as Hs.
    simpl String.length in Hs. rewrite Hs.
    destruct (drop_last_after_token tok w rest) as (tail & -> & Htail).
    rewrite (py_split_first_token tok w tail) by done.
    simpl. by rewrite Hx.
Qed.

End DescriptionClaims.

Lemma example_unit_symbols : Example._hdf_unitvar.*1 = hdf_unit_symbols.
Proof. reflexivity. Qed.

Lemma symbol_power_of_slash_and_caret_witness :
  symbol_power (H := Example.cgs_units)
               ("U_M " ++ "U_L" ++ "^-3 [g/cm^3]") "U_L"
  = Some (Ok (slash_power "U_M " * -1 * 3)%float).
Proof.
  apply (proj1 (proj2 (symbol_power_of_slash_and_caret
                         (H := Example.cgs_units) "U_M " "U_L" "^-3 [g/cm^3]"
                         eq_refl))
           "3" " "%char "[g/cm^3]" 3%float).
  - reflexivity.
  - split; [discriminate|reflexivity].
  - reflexivity.
  - reflexivity.
Defined.

(** C4 (a defect of the code): under the comment that it checks not to
    be at the end of the line, the parser guards the character after the
    symbol only; the character after the caret is read unguarded, and the
    exponent is looked for in the description without its last character
    ([description[k:-1]]).  So an exponent at the very end of the
    description is not read as the claim says: [U_L^] raises [IndexError]
    where the claim gives the exponent 1 and a parse that succeeds;
    [U_M U_L^-3] raises [IndexError] where the exponent is -3; [U_L^23]
    gets the exponent 2.  With a blank after it, [U_M U_L^-3 ], the
    exponent is -3. *)
Theorem caret_exponent_is_read_short_of_the_end :
  symbol_power (H := Example.cgs_units) "U_L^" "U_L" = Some (Raise IndexError) ∧
  _get_units_from_description (H := Example.cgs_units)
    Example._hdf_unitvar Example._hdf_cgsvar "U_L^" None = Raise IndexError ∧
  symbol_power (H := Example.cgs_units) "U_M U_L^-3" "U_L"
  = Some (Raise IndexError) ∧
  _get_units_from_description (H := Example.cgs_units)
    Example._hdf_unitvar Example._hdf_cgsvar "U_M U_L^-3" None
  = Raise IndexError ∧
  symbol_power (H := Example.cgs_units) "U_L^23" "U_L" = Some (Ok 2%float) ∧
  symbol_power (H := Example.cgs_units) "U_M U_L^-3 " "U_L"
  = Some (Ok (-3)%float).
Proof. split_and!; by vm_compute. Qed.

(* ----------------------------------------------------------------- *)
(** ** The check of the conversion factor *)

Section ConversionClaims.
Context `{UnitAlgebra U Frac}.
Variable _hdf_unitvar : list (string * U).
Variable _hdf_cgsvar : list (string * string).

(** How the factor is checked: once the loop has produced a unit and a
    conversion factor, the factor is compared with the declared one by numpy's
    [allclose] at [rtol=1e-3] and the default [atol=1e-8], that is
    [|conversion - expected| <= 1e-8 + 1e-3 * |expected|]: within it the
    inferred unit is returned, beyond it [UnitsException] is raised.
    Without a declared factor the unit is returned unchecked. *)
Theorem conversion_checked_by_allclose description expected arr_units conversion :
  description_units _hdf_unitvar _hdf_cgsvar description
  = Ok (arr_units, conversion) →
  (np_allclose conversion expected rtol_1e_3 np_default_atol = true →
   _get_units_from_description _hdf_unitvar _hdf_cgsvar description (Some expected)
   = Ok arr_units) ∧
  (np_allclose conversion expected rtol_1e_3 np_default_atol = false →
   _get_units_from_description _hdf_unitvar _hdf_cgsvar description (Some expected)
   = Raise UnitsException) ∧
  _get_units_from_description _hdf_unitvar _hdf_cgsvar description None
  = Ok arr_units.
Proof.
  intros Hloop. unfold _get_units_from_description. rewrite Hloop. simpl.
  split_and!; [by intros ->|by intros ->|done].
Qed.

(** A failure of the loop is the failure of the whole inference. *)
Lemma description_units_raise description expected e :
  description_units _hdf_unitvar _hdf_cgsvar description = Raise e →
  _get_units_from_description _hdf_unitvar _hdf_cgsvar description expected
  = Raise e.
Proof. intros Hloop. unfold _get_units_from_description. by rewrite Hloop. Qed.

End ConversionClaims.

(** The density annotation gives the unit [U_M U_L^-3], about [6.8e-31]
    in cgs. *)
Lemma example_density_units :
  description_units (H := Example.cgs_units) Example._hdf_unitvar
                    Example._hdf_cgsvar Example.density_description
  = Ok (0x1.b764717eb3e2ap-101, 0x1.b764717eb3e2ap-101)%float.
Proof. vm_compute. reflexivity. Qed.

Lemma conversion_checked_by_allclose_witness :
  _get_units_from_description (H := Example.cgs_units) Example._hdf_unitvar
    Example._hdf_cgsvar Example.density_description
    (Some 0x1.b764717eb3e2ap-101%float)
  = Ok 0x1.b764717eb3e2ap-101%float ∧
  _get_units_from_description (H := Example.cgs_units) Example._hdf_unitvar
    Example._hdf_cgsvar Example.density_description (Some 1%float)
  = Raise UnitsException.
Proof.
  pose proof (conversion_checked_by_allclose (H := Example.cgs_units)
                Example._hdf_unitvar Example._hdf_cgsvar
                Example.density_description) as Hc.
  split.
  - apply (proj1 (Hc 0x1.b764717eb3e2ap-101%float _ _ example_density_units)).
    reflexivity.
  - apply (proj1 (proj2 (Hc 1%float _ _ example_density_units))).
    reflexivity.
Defined.

(** C5 (a defect of the code): the check is called with [rtol=1e-3] and
    raises with a message that names both factors, but [atol] is left at
    numpy's default [1e-8], so any two factors below that pass.  The
    inferred density factor is about [6.8e-31], the declared one is
    [1e-20]; they differ by far more than one part in a thousand, and the
    unit is returned all the same: no exception is raised. *)
Lemma mismatched_small_factor_is_accepted :
  description_units (H := Example.cgs_units) Example._hdf_unitvar
                    Example._hdf_cgsvar Example.density_description
  = Ok (0x1.b764717eb3e2ap-101, 0x1.b764717eb3e2ap-101)%float ∧
  differs_beyond rtol_1e_3 0x1.b764717eb3e2ap-101 Example.wrong_density_factor
  = true ∧
  _get_units_from_description (H := Example.cgs_units) Example._hdf_unitvar
    Example._hdf_cgsvar Example.density_description
    (Some Example.wrong_density_factor)
  = Ok 0x1.b764717eb3e2ap-101%float.
Proof. split_and!; by vm_compute. Qed.

(* ----------------------------------------------------------------- *)
(** ** Writing back: what the statements keep *)

Section WriteFacts.
Context {V dtype : Type} `{EqDecision dtype} `{NameMapper} `{ArrayModel V dtype}.
Implicit Types (w : world V dtype) (R : relation (world V dtype)).

Lemma preserves_wret {A} R `{!Reflexive R} (a : A) : preserves R (wret a).
Proof. intros w r w' Heq. unfold wret in Heq. by simplify_eq. Qed.

Lemma preserves_wraise {A} R `{!Reflexive R} e : preserves R (wraise (A := A) e).
Proof. intros w r w' Heq. unfold wraise in Heq. by simplify_eq. Qed.

Lemma preserves_wlift {A} R `{!Reflexive R} (r : result A) : preserves R (wlift r).
Proof. intros w r' w' Heq. unfold wlift in Heq. by simplify_eq. Qed.

(** A statement that only reads the state. *)
Lemma preserves_read {A} R `{!Reflexive R} (f : world V dtype → result A) :
  preserves R (λ w, (f w, w)).
Proof. intros w r w' Heq. by simplify_eq. Qed.

Lemma preserves_wbind {A B} R `{!Transitive R} (m : W A) (k : A → W B) :
  preserves R m → (∀ a, preserves R (k a)) → preserves R (wbind m k).
Proof.
  intros Hm Hk w r w' Heq. unfold wbind in Heq.
  destruct (m w) as [[a|e] w1] eqn:Hmw.
  - etrans; [by eapply Hm|by eapply Hk].
  - simplify_eq. by eapply Hm.
Qed.

Lemma preserves_wfor {S X} R `{!PreOrder R} (body : X → S → W S) xs s :
  (∀ x s, preserves R (body x s)) → preserves R (wfor body xs s).
Proof.
  intros Hbody. revert s. induction xs as [|x xs IH]; intros s; simpl.
  - apply preserves_wret, _.
  - apply preserves_wbind; [apply _|apply Hbody|apply IH].
Qed.

#[global] Instance same_files_preorder : PreOrder (same_files (V := V) (dtype := dtype)).
Proof.
  split.
  - intros w. apply same_shards_refl.
  - intros w1 w2 w3. apply same_shards_trans.
Qed.

#[global] Instance same_disk_preorder : PreOrder (same_disk (V := V) (dtype := dtype)).
Proof.
  split; [done|]. intros w1 w2 w3. unfold same_disk. congruence.
Qed.

#[global] Instance same_files_and_disk_preorder :
  PreOrder (same_files_and_disk (V := V) (dtype := dtype)).
Proof.
  split.
  - intros w. split; reflexivity.
  - intros w1 w2 w3 [? ?] [? ?]. split; etrans; done.
Qed.

Lemma iter_yield_same_shards (d : disk V dtype) i m r m' :
  iter_yield d i m = (r, m') → same_shards m m'.
Proof.
  unfold iter_yield. intros Heq.
  repeat (case_match; simplify_eq/=); done.
Qed.

Lemma w_iter_yield_keeps i :
  preserves same_files_and_disk (w_iter_yield (V := V) (dtype := dtype) i).
Proof.
  intros w r w' Heq. unfold w_iter_yield in Heq.
  destruct (iter_yield (w_disk w) i (w_files w)) as [r1 m1] eqn:Hy.
  simplify_eq. split; [|done]. by eapply iter_yield_same_shards.
Qed.

Lemma preserves_weaken {A} R R' (m : W A) :
  (∀ w w', R w w' → R' w w') → preserves R m → preserves R' m.
Proof. intros HR Hm w r w' Heq. by eapply HR, Hm. Qed.

Lemma require_dataset_same_files g name shape dt :
  preserves same_files (require_dataset g name shape dt).
Proof.
  intros w r w' Heq. unfold require_dataset in Heq.
  repeat (case_match; simplify_eq/=); apply same_shards_refl.
Qed.

Lemma write_direct_same_files ds source :
  preserves same_files (write_direct ds source).
Proof.
  intros w r w' Heq. unfold write_direct in Heq.
  repeat (case_match; simplify_eq/=); apply same_shards_refl.
Qed.

Lemma get_or_create_same_files g hdf_name shape dt :
  preserves same_files (_get_or_create_hdf_dataset g hdf_name shape dt).
Proof.
  unfold _get_or_create_hdf_dataset. case_decide.
  - apply preserves_wraise, _.
  - apply preserves_wbind; [apply _|apply (preserves_read _)|]. intros ret.
    apply preserves_wbind; [apply _|apply preserves_wlift, _|]. intros name.
    apply require_dataset_same_files.
Qed.

Section Loops.
Variable cls : manager_class.
Variable _family_to_group_map : list (family * list string).

(** The generator keeps whatever its loop body and the manager keep. *)
Lemma for_hdf_groups_preserves {S} R `{!PreOrder R}
    (body : ref → S → W S) fam s :
  (∀ i, preserves R (w_iter_yield i)) →
  (∀ g s, preserves R (body g s)) →
  preserves R (for_hdf_groups_in_family cls _family_to_group_map body fam s).
Proof.
  intros Hyield Hbody. unfold for_hdf_groups_in_family.
  apply preserves_wbind; [apply _|apply preserves_wlift, _|]. intros names.
  apply preserves_wfor; [done|]. intros name s1 w r w' Heq.
  revert Heq. apply preserves_wfor; [done|]. intros i s2.
  apply preserves_wbind; [apply _|apply Hyield|]. intros hdf w2 r2 w2' Heq.
  revert Heq. by apply preserves_wfor.
Qed.

Lemma write_group_same_files translated_name target_array hdf i0 :
  preserves same_files (write_group translated_name target_array hdf i0).
Proof.
  unfold write_group.
  apply preserves_wbind; [apply _|apply (preserves_read _)|]. intros npart.
  apply preserves_wbind; [apply _|apply preserves_wlift, _|]. intros this.
  apply preserves_wbind; [apply _|apply get_or_create_same_files|]. intros ds.
  apply preserves_wbind; [apply _|apply (preserves_read _)|]. intros source.
  apply preserves_wbind; [apply _|apply write_direct_same_files|]. intros _.
  apply preserves_wret, _.
Qed.

Lemma write_array_body_same_files mem array_name translated_name fam :
  preserves same_files
    (write_array_body cls _family_to_group_map mem array_name translated_name fam).
Proof.
  unfold write_array_body. apply preserves_wfor; [apply _|]. intros f [].
  apply preserves_wbind; [apply _|apply preserves_wlift, _|]. intros arr.
  apply preserves_wbind; [apply _| |intros; apply preserves_wret, _].
  apply for_hdf_groups_preserves; [apply _| |].
  - intros i. eapply preserves_weaken; [|apply w_iter_yield_keeps]. by intros ?? [? ?].
  - intros g s. apply write_group_same_files.
Qed.

End Loops.
End WriteFacts.

Section ExampleWrites.
#[local] Existing Instance Example.names.
#[local] Existing Instance Example.plain_elements.

(** Writing the temperature of the dark matter creates one dataset in each
    shard, filled from the family's array at the shard's offset, and leaves
    the manager read-only with an empty cache. *)
Lemma example_write_temp :
  write_array _GadgetHdfMultiFileManager Example._family_to_group_map
              Example.in_memory "temp" (Some "dm") Example.start
  = (Ok (),
     World Example.files_manager
       (Example.with_dataset "snap.0.hdf5" "PartType1" "Temperature"
          (Dataset Float32 [2] [20; 21]%float ∅)
          (Example.with_dataset "snap.1.hdf5" "PartType1" "Temperature"
             (Dataset Float32 [1] [22]%float ∅) Example.files))).
Proof. vm_compute. reflexivity. Qed.

End ExampleWrites.

(* ----------------------------------------------------------------- *)
(** ** Writing back: the mode of the manager *)

Section WriteModeClaim.
Context {V dtype : Type} `{EqDecision dtype} `{NameMapper} `{ArrayModel V dtype}.
Variable cls : manager_class.
Variable _family_to_group_map : list (family * list string).
Implicit Types (w : world V dtype) (mem : memory (V := V) (dtype := dtype)).

(** Once the native name is known, [write_array] runs its [try] block in
    read-write mode and its [finally] clause on whatever state the block
    leaves. *)
Lemma write_array_unfold mem array_name fam w translated_name :
  py_index (_translate_array_name array_name) 0 = Ok translated_name →
  write_array cls _family_to_group_map mem array_name fam w
  = let '(r, w') := write_array_body cls _family_to_group_map mem array_name
                      translated_name fam (w_reopen_in_mode ModeRW w) in
    (r, w_reopen_in_mode ModeR w').
Proof. intros Hname. unfold write_array, wbind, wlift, try_finally. by rewrite Hname. Qed.

(** C3: whatever [write_array] returns or raises, the manager is in
    read-only mode afterwards, provided it was so before the call.  When
    the [try] block is entered (the array name has a native name), this
    holds whatever the mode before, and no handle opened in read-write
    mode is left in the cache; when it is not entered the state is
    untouched. *)
Theorem write_array_leaves_read_only mem array_name fam w :
  (_mode (w_files w) = ModeR →
   _mode (w_files (write_array cls _family_to_group_map mem array_name fam w).2)
   = ModeR) ∧
  (is_Ok (py_index (_translate_array_name array_name) 0) = true →
   _mode (w_files (write_array cls _family_to_group_map mem array_name fam w).2)
   = ModeR ∧
   _open_files (w_files (write_array cls _family_to_group_map mem array_name fam w).2)
   = ∅) ∧
  (is_Ok (py_index (_translate_array_name array_name) 0) = false →
   write_array cls _family_to_group_map mem array_name fam w
   = (Raise IndexError, w)).
Proof.
  destruct (py_index (_translate_array_name array_name) 0)
    as [translated_name|e] eqn:Hname.
  - rewrite (write_array_unfold _ _ _ _ _ Hname).
    destruct (write_array_body _ _ _ _ _ _ _) as [r w2] eqn:Hbody.
    apply write_array_body_same_files in Hbody as (_ & Hmode & _ & _).
    simpl in Hmode. rewrite reopen_in_mode_mode in Hmode.
    assert (_mode (w_files (w_reopen_in_mode ModeR w2)) = ModeR ∧
            _open_files (w_files (w_reopen_in_mode ModeR w2)) = ∅) as [Hm Hc].
    { simpl. rewrite reopen_in_mode_ne by (by rewrite Hmode). done. }
    split_and!; [intros _; exact Hm|intros _; split; [exact Hm|exact Hc]|].
    intros Hno. discriminate Hno.
  - assert (e = IndexError) as ->.
    { unfold py_index in Hname. by case_match; simplify_eq. }
    unfold write_array, wbind, wlift. rewrite Hname. simpl.
    split_and!; [by intros|intros Hyes; discriminate Hyes|done].
Qed.

End WriteModeClaim.

Lemma write_array_leaves_read_only_witness :
  _mode (w_files (write_array (H := Example.names) (H0 := Example.plain_elements)
                    _GadgetHdfMultiFileManager Example._family_to_group_map
                    Example.in_memory "mass" None Example.start).2)
  = ModeR.
Proof.
  apply (proj1 (write_array_leaves_read_only
                  (H := Example.names) (H0 := Example.plain_elements)
                  _GadgetHdfMultiFileManager Example._family_to_group_map
                  Example.in_memory "mass" None Example.start)).
  reflexivity.
Defined.

(* ----------------------------------------------------------------- *)
(** ** Writing back: the mass block *)

Section ManagerViews.
Context {V dtype : Type}.
Implicit Types (d : disk V dtype) (m : manager) (i j : Z).

Lemma shard_ref_same m m' i : same_shards m m' → shard_ref m' i = shard_ref m i.
Proof. intros (Hc & Hm & Hf & _). unfold shard_ref. by rewrite Hc, Hm, Hf. Qed.

Lemma shard_openable_reopen d mode m j :
  shard_openable d (reopen_in_mode mode m) j = shard_openable d m j.
Proof.
  unfold reopen_in_mode. case_decide; [|done].
  unfold shard_openable, h5py_File, h5_getitem, resolve. simpl.
  repeat case_match; simplify_eq/=; done.
Qed.

Lemma manager_ready_reopen d mode m :
  manager_wf m → _mode m ≠ mode →
  Forall (λ j, shard_openable d m j = true) (py_range (_numfiles m)) →
  manager_ready d (reopen_in_mode mode m).
Proof.
  intros (Hmax & Hlen & _) Hmode Hop.
  rewrite reopen_in_mode_ne by done. split_and!.
  - split_and!; [done|done|apply map_Forall_empty].
  - apply map_Forall_empty.
  - simpl. eapply Forall_impl; [exact Hop|]. intros j Hj. simpl in Hj.
    rewrite <- Hj, <- (shard_openable_reopen d mode m j).
    by rewrite reopen_in_mode_ne.
Qed.

(** On a ready manager the loop of [__iter__] yields the handle of the
    shard and stays ready. *)
Lemma iter_yield_ready d j m :
  manager_ready d m → (0 ≤ j < _numfiles m)%Z →
  ∃ m', iter_yield d j m = (Ok (shard_ref m j), m') ∧
        manager_ready d m' ∧ same_shards m m'.
Proof.
  intros (Hwf & Hfresh & Hop) Hj.
  assert (shard_openable d m j = true) as Hopj.
  { by apply (proj1 (py_range_Forall _ _) Hop). }
  destruct (iter_yield d j m) as [r m'] eqn:Hy.
  destruct (iter_yield_wf d j m r m' Hwf Hj Hy) as [Hwf' Hsame].
  assert (Forall (λ j, shard_openable d m' j = true) (py_range (_numfiles m')))
    as Hop'.
  { destruct Hsame as (? & ? & ? & Hn). rewrite Hn.
    eapply Forall_impl; [exact Hop|]. intros k Hk. simpl in Hk.
    by rewrite (shard_openable_same d m m' k). }
  exists m'. revert Hy Hopj.
  unfold iter_yield, shard_openable, py_index, h5py_File, h5_getitem, shard_ref.
  destruct (_open_files m !! j) as [h|] eqn:Hc.
  { intros ? _. simplify_eq. split_and!; [|done|done].
    by rewrite (Hfresh j h Hc). }
  destruct (_filenames m !! Z.to_nat j) as [fn|] eqn:Hfn; [|done].
  destruct (d !! fn) eqn:Hd; [|done]. simpl.
  destruct (_subgroup_name (m_class m)) as [sg|] eqn:Hsg.
  - destruct (resolve d _) as [[|ga kids]|]; [done| |done].
    destruct (kids !! sg); [|done]. intros ? _. simplify_eq.
    split_and!; [done| |done]. split_and!; [done| |done].
    simpl. rewrite insert_insert_eq. apply map_Forall_insert_2; [|done].
    unfold shard_ref. simpl. by rewrite Hfn, Hsg.
  - intros ? _. simplify_eq. split_and!; [done| |done].
    split_and!; [done| |done].
    simpl. apply map_Forall_insert_2; [|done].
    unfold shard_ref. simpl. by rewrite Hfn, Hsg.
Qed.

End ManagerViews.

Section MassWrite.
Context {V dtype : Type} `{EqDecision dtype} `{NameMapper} `{ArrayModel V dtype}.
Variable cls : manager_class.
Variable _family_to_group_map : list (family * list string).
Implicit Types (w : world V dtype) (mem : memory (V := V) (dtype := dtype)).

Lemma get_or_create_mass g hdf_name shape dt w :
  _translate_array_name_reverse hdf_name = _mass_pynbody_name →
  _get_or_create_hdf_dataset g hdf_name shape dt w
  = (Raise (OSError mass_block_message), w).
Proof. intros Hmass. unfold _get_or_create_hdf_dataset. by rewrite decide_True. Qed.

(** For the mass block the loop body never gets past the refusal: it raises
    and leaves the state as it found it. *)
Lemma write_group_mass_raises translated_name target_array g i0 w :
  _translate_array_name_reverse translated_name = _mass_pynbody_name →
  ∃ e, write_group translated_name target_array g i0 w = (Raise e, w).
Proof.
  intros Hmass. unfold write_group, wbind, wlift.
  destruct (h5_getitem (w_disk w) g "ParticleIDs" ≫= _) as [npart|e]; [|eauto].
  destruct (nd_slice target_array i0 (i0 + npart)) as [this|e]; [|eauto].
  rewrite get_or_create_mass by done. eauto.
Qed.

(** With the size marker a dataset and the array not a scalar, what it
    raises is the documented error. *)
Lemma write_group_mass_refused translated_name target_array g i0 w :
  _translate_array_name_reverse translated_name = _mass_pynbody_name →
  a_shape target_array ≠ [] →
  (∃ ids n, h5_getitem (w_disk w) g "ParticleIDs" = Ok ids ∧
            h5_size (w_disk w) ids = Ok n) →
  write_group translated_name target_array g i0 w
  = (Raise (OSError mass_block_message), w).
Proof.
  intros Hmass Hshape (ids & n & Hids & Hn). unfold write_group, wbind, wlift.
  rewrite Hids. simpl. rewrite Hn.
  unfold nd_slice. destruct (a_shape target_array); [done|].
  by rewrite get_or_create_mass.
Qed.

Lemma write_group_mass_same_disk translated_name target_array g i0 :
  _translate_array_name_reverse translated_name = _mass_pynbody_name →
  preserves same_files_and_disk (write_group translated_name target_array g i0).
Proof.
  intros Hmass w r w' Heq.
  destruct (write_group_mass_raises translated_name target_array g i0 w Hmass)
    as [e He].
  rewrite He in Heq. simplify_eq. reflexivity.
Qed.

Lemma write_array_body_mass_same_disk mem array_name translated_name fam :
  _translate_array_name_reverse translated_name = _mass_pynbody_name →
  preserves same_files_and_disk
    (write_array_body cls _family_to_group_map mem array_name translated_name fam).
Proof.
  intros Hmass.
  unfold write_array_body. apply preserves_wfor; [apply _|]. intros f [].
  apply preserves_wbind; [apply _|apply preserves_wlift, _|]. intros arr.
  apply preserves_wbind; [apply _| |intros; apply preserves_wret, _].
  apply for_hdf_groups_preserves; [apply _| |].
  - apply w_iter_yield_keeps.
  - intros g s. by apply write_group_mass_same_disk.
Qed.

Section RaisingBody.
Variable body : ref → nat → W (V := V) (dtype := dtype) nat.
Variable E : exn.

(** The loop over the shards, for one group name, when the body raises [E]
    on every group met: it raises [E] at the first shard that has the
    group, and falls through if none has it. *)
Lemma raising_shard_loop name (js : list Z) (s : nat) w :
  manager_ready (w_disk w) (w_files w) →
  Forall (λ j, (0 ≤ j < _numfiles (w_files w))%Z) js →
  (∀ g, g ∈ (shard_ref (w_files w) <$> js)
              ≫= particle_group_in cls (w_disk w) name →
        ∀ s w', w_disk w' = w_disk w → body g s w' = (Raise E, w')) →
  ∃ w',
    wfor (λ i s,
            wbind (w_iter_yield i)
                  (λ hdf w, wfor body (particle_group_in cls (w_disk w) name hdf) s w))
         js s w
    = (if decide ((shard_ref (w_files w) <$> js)
                    ≫= particle_group_in cls (w_disk w) name = [])
       then Ok s else Raise E, w') ∧
    manager_ready (w_disk w') (w_files w') ∧ same_files_and_disk w w'.
Proof.
  revert w. induction js as [|j js IH]; intros w Hready Hjs Hbody.
  - exists w. split_and!; [done|done|reflexivity].
  - apply Forall_cons in Hjs as [Hj Hjs].
    destruct (iter_yield_ready (w_disk w) j (w_files w) Hready Hj)
      as (m' & Hy & Hready' & Hsame).
    set (w1 := World m' (w_disk w)).
    assert (w_iter_yield j w = (Ok (shard_ref (w_files w) j), w1)) as Hwy.
    { unfold w_iter_yield. by rewrite Hy. }
    rewrite fmap_cons, bind_cons in Hbody |- *.
    cbn [wfor]. unfold wbind at 1. unfold wbind at 1. rewrite Hwy.
    change (w_disk w1) with (w_disk w).
    destruct (particle_group_in cls (w_disk w) name (shard_ref (w_files w) j))
      as [|g gs] eqn:Hg.
    + cbn [wfor wret]. rewrite app_nil_l in Hbody |- *.
      assert (shard_ref (w_files w1) <$> js = shard_ref (w_files w) <$> js)
        as Hviews.
      { apply list_fmap_ext. intros ? k _. by apply shard_ref_same. }
      destruct (IH w1) as (w' & Hloop & Hready'' & Hkeep).
      * done.
      * destruct Hsame as (_ & _ & _ & Hn). simpl. by rewrite Hn.
      * rewrite Hviews. exact Hbody.
      * exists w'. rewrite Hviews in Hloop. split_and!; [done|done|].
        etrans; [|exact Hkeep]. split; [exact Hsame|done].
    + exists w1. cbn [wfor]. unfold wbind.
      rewrite (Hbody g) by (done || apply elem_of_app; left; left).
      rewrite decide_False by done. split_and!; [done|done|].
      split; [exact Hsame|done].
Qed.

(** The same over the group names of a family. *)
Lemma raising_names_loop (names : list string) (s : nat) w :
  manager_ready (w_disk w) (w_files w) →
  (∀ g, g ∈ names ≫= iter_particle_groups_with_name cls (w_disk w)
                        (manager_views (w_files w)) →
        ∀ s w', w_disk w' = w_disk w → body g s w' = (Raise E, w')) →
  ∃ w',
    wfor (λ hdf_family_name s w,
            wfor (λ i s,
                    wbind (w_iter_yield i)
                          (λ hdf w,
                             wfor body
                               (particle_group_in cls (w_disk w)
                                  hdf_family_name hdf) s w))
                 (py_range (_numfiles (w_files w))) s w)
         names s w
    = (if decide (names ≫= iter_particle_groups_with_name cls (w_disk w)
                             (manager_views (w_files w)) = [])
       then Ok s else Raise E, w') ∧
    manager_ready (w_disk w') (w_files w') ∧ same_files_and_disk w w'.
Proof.
  revert w. induction names as [|name names IH]; intros w Hready Hbody.
  - exists w. split_and!; [done|done|reflexivity].
  - rewrite bind_cons in Hbody |- *. cbn [wfor]. unfold wbind at 1.
    destruct (raising_shard_loop name (py_range (_numfiles (w_files w))) s w)
      as (w1 & Hloop & Hready1 & Hkeep1).
    + done.
    + by apply py_range_Forall.
    + intros g Hin. apply Hbody. apply elem_of_app. by left.
    + rewrite Hloop.
      change ((shard_ref (w_files w) <$> py_range (_numfiles (w_files w)))
                ≫= particle_group_in cls (w_disk w) name)
        with (iter_particle_groups_with_name cls (w_disk w)
                (manager_views (w_files w)) name).
      destruct Hkeep1 as [Hsame1 Hdisk1].
      assert (manager_views (w_files w1) = manager_views (w_files w)) as Hviews.
      { unfold manager_views.
        destruct (Hsame1) as (_ & _ & _ & ->).
        apply list_fmap_ext. intros ? k _. by apply shard_ref_same. }
      destruct (iter_particle_groups_with_name cls (w_disk w)
                  (manager_views (w_files w)) name) as [|g gs] eqn:Hg.
      * simpl. destruct (IH w1) as (w' & Hloop' & Hready' & Hkeep').
        -- done.
        -- rewrite Hviews, Hdisk1. intros g Hin s' w' Hw'.
           apply Hbody; [by rewrite app_nil_l|]. by rewrite Hw'.
        -- exists w'. rewrite Hviews, Hdisk1 in Hloop'.
           split_and!; [done|done|]. etrans; [|exact Hkeep']. by split.
      * exists w1. rewrite decide_False by done.
        rewrite decide_False by done. split_and!; [done|done|by split].
Qed.

End RaisingBody.
End MassWrite.

Section MassWriteClaim.
Context {V dtype : Type} `{EqDecision dtype} `{NameMapper} `{ArrayModel V dtype}.
Variable cls : manager_class.
Variable _family_to_group_map : list (family * list string).
Implicit Types (w : world V dtype) (mem : memory (V := V) (dtype := dtype)).

Lemma sizes_are_datasets_elem (d : disk V dtype) hdf_files names name g :
  sizes_are_datasets cls d hdf_files names = true → name ∈ names →
  g ∈ iter_particle_groups_with_name cls d hdf_files name →
  ∃ ids n, h5_getitem d g "ParticleIDs" = Ok ids ∧ h5_size d ids = Ok n.
Proof.
  intros Hs Hname Hg. unfold sizes_are_datasets in Hs.
  rewrite forallb_forall in Hs. apply list_elem_of_In, Hs in Hname.
  rewrite forallb_forall in Hname. apply list_elem_of_In, Hname in Hg.
  unfold snap_size_from_hdf5_key in Hg.
  destruct (h5_getitem d g "ParticleIDs") as [ids|]; [|done].
  destruct (h5_size d ids) as [n|] eqn:Hsize; [|done]. eauto.
Qed.

(** C2 (as amended): writing back an array whose native name translates
    back to the mass name never creates or modifies a dataset, whatever
    the family, the arrays in memory and the files; and it raises the
    documented error as soon as the first family to write has its array in
    memory and at least one particle group on disk (the manager being well
    formed, read-only before the call, with shards that open and size
    markers that are datasets). *)
Theorem write_mass_is_refused mem array_name fam w translated_name :
  py_index (_translate_array_name array_name) 0 = Ok translated_name →
  _translate_array_name_reverse translated_name = _mass_pynbody_name →
  w_disk (write_array cls _family_to_group_map mem array_name fam w).2 = w_disk w ∧
  (∀ f rest target_array names,
     match fam with None => families mem | Some fam => [fam] end = f :: rest →
     family_array mem f array_name = Ok target_array →
     a_shape target_array ≠ [] →
     dict_get _family_to_group_map f = Ok names →
     manager_wf (w_files w) → _mode (w_files w) = ModeR →
     Forall (λ j, shard_openable (w_disk w) (w_files w) j = true)
            (py_range (_numfiles (w_files w))) →
     names ≫= iter_particle_groups_with_name cls (w_disk w)
                (manager_views (reopen_in_mode ModeRW (w_files w))) ≠ [] →
     sizes_are_datasets cls (w_disk w)
       (manager_views (reopen_in_mode ModeRW (w_files w))) names = true →
     (write_array cls _family_to_group_map mem array_name fam w).1
     = Raise (OSError mass_block_message)).
Proof.
  intros Hname Hmass. rewrite (write_array_unfold _ _ _ _ _ _ _ Hname).
  set (w0 := w_reopen_in_mode ModeRW w).
  split.
  - destruct (write_array_body _ _ _ _ _ _ _) as [r w2] eqn:Hbody.
    apply (write_array_body_mass_same_disk cls _family_to_group_map) in Hbody
      as [_ Hdisk]; [|done].
    simpl. exact Hdisk.
  - intros f rest target_array names Hscope Harr Hshape Hnames Hwf Hmode Hop
           Hgroups Hsizes.
    assert (manager_ready (w_disk w0) (w_files w0)) as Hready.
    { apply manager_ready_reopen; [done|by rewrite Hmode|done]. }
    destruct (raising_names_loop cls (write_group translated_name target_array)
                (OSError mass_block_message) names 0%nat w0 Hready)
      as (w1 & Hloop & _ & _).
    { intros g Hg s w' Hw'.
      apply list_elem_of_bind in Hg as (name & Hg & Hin).
      apply write_group_mass_refused; [done|done|]. rewrite Hw'.
      by eapply sizes_are_datasets_elem. }
    rewrite decide_False in Hloop by exact Hgroups.
    unfold write_array_body. rewrite Hscope. cbn [wfor].
    unfold wbind at 1. unfold wbind at 1. unfold wlift at 1. rewrite Harr.
    unfold wbind at 1. unfold for_hdf_groups_in_family.
    unfold wbind at 1. unfold wlift at 1. rewrite Hnames.
    rewrite Hloop. done.
Qed.

End MassWriteClaim.

Lemma write_mass_is_refused_witness :
  (write_array (H := Example.names) (H0 := Example.plain_elements)
     _GadgetHdfMultiFileManager Example._family_to_group_map
     Example.in_memory "mass" None Example.start).1
  = Raise (OSError mass_block_message).
Proof.
  apply (proj2 (write_mass_is_refused
                  (H := Example.names) (H0 := Example.plain_elements)
                  _GadgetHdfMultiFileManager Example._family_to_group_map
                  Example.in_memory "mass" None Example.start "Mass"
                  eq_refl eq_refl)
           "gas" ["dm"; "star"] (NdArray Float32 [3] [10; 11; 12]%float)
           ["PartType0"]).
  - reflexivity.
  - reflexivity.
  - discriminate.
  - reflexivity.
  - exact example_manager_wf.
  - reflexivity.
  - repeat constructor.
  - vm_compute. discriminate.
  - vm_compute. reflexivity.
Defined.

(** C2, as stated, fails where there is nothing to write: on a snapshot
    without particles, [write_array('mass')] for all families finds no
    family to loop over and returns without raising anything. *)
Lemma write_mass_of_empty_snapshot_returns :
  (write_array (H := Example.names) (H0 := Example.plain_elements)
     _GadgetHdfMultiFileManager [] Example.nothing_in_memory "mass" None
     Example.empty_start).1
  = Ok ().
Proof. vm_compute. reflexivity. Qed.

(* ----------------------------------------------------------------- *)
(** ** Loading: which candidate is read *)

Lemma for_each_app {S X : Type} (body : X → S → result S) (xs ys : list X) (s : S) :
  for_each body (xs ++ ys) s = for_each body xs s ≫= for_each body ys.
Proof.
  revert s. induction xs as [|x xs IH]; intros s; simpl; [done|].
  destruct (body x s) as [s'|e]; simpl; [apply IH|done].
Qed.

Lemma bind_Ok {A B : Type} (m : result A) (f : A → result B) (a : A) :
  m = Ok a → m ≫= f = f a.
Proof. by intros ->. Qed.

Section Candidates.
Context {V dtype U : Type} `{NameMapper} `{ArrayModel V dtype}.
Variable d : disk V dtype.
Variable _get_softening_for_particle_group : ref → result (option scalar).
Variable self : snapshot dtype.
Implicit Types (hdf : ref) (names : list string) (x : hdf_data dtype).

#[local] Abbreviation get_dataset :=
  (_get_hdf_dataset d _get_softening_for_particle_group self).
#[local] Abbreviation resolve :=
  (resolve_candidates d _get_softening_for_particle_group self).

Lemma resolve_candidates_cons hdf name names dataset :
  resolve hdf (name :: names) dataset
  = match get_dataset hdf name with
    | Ok x => resolve hdf names (Some x)
    | Raise e => if decide (e = KeyError) then resolve hdf names dataset
                 else Raise e
    end.
Proof.
  unfold resolve_candidates. simpl.
  destruct (get_dataset hdf name) as [x|e]; [done|]. by case_decide.
Qed.

(** Candidates that are all absent leave the variable as it was. *)
Lemma resolve_candidates_absent hdf names dataset :
  Forall (λ name, get_dataset hdf name = Raise KeyError) names →
  resolve hdf names dataset = Ok dataset.
Proof.
  induction 1 as [|name names Hname _ IH]; [done|].
  rewrite resolve_candidates_cons, Hname. by rewrite decide_True.
Qed.

(** The loop ends on the last candidate that is present: the candidates
    before it do not matter, as long as none fails otherwise. *)
Lemma resolve_candidates_last hdf before name after x dataset :
  Forall (λ name, is_Ok (get_dataset hdf name) = true ∨
                  get_dataset hdf name = Raise KeyError) before →
  get_dataset hdf name = Ok x →
  Forall (λ name, get_dataset hdf name = Raise KeyError) after →
  resolve hdf (before ++ name :: after) dataset = Ok (Some x).
Proof.
  intros Hbefore Hname Hafter. revert dataset.
  induction Hbefore as [|name' before Hname' _ IH]; intros dataset.
  - simpl. rewrite resolve_candidates_cons, Hname.
    by apply resolve_candidates_absent.
  - simpl. rewrite resolve_candidates_cons.
    destruct Hname' as [Hok| ->].
    + destruct (get_dataset hdf name'); [apply IH|done].
    + rewrite decide_True by done. apply IH.
Qed.

(** Once a candidate resolves, what the variable held before is
    forgotten. *)
Lemma resolve_candidates_fresh hdf names x dataset :
  resolve hdf names None = Ok (Some x) → resolve hdf names dataset = Ok (Some x).
Proof.
  revert dataset. induction names as [|name names IH]; intros dataset; [done|].
  rewrite !resolve_candidates_cons.
  destruct (get_dataset hdf name) as [y|e]; [done|].
  case_decide; [apply IH|done].
Qed.

End Candidates.

(** C6 (a defect of the code): the gas group of this file holds both
    candidates for the velocity, [Velocity] and [Velocities].  The first
    candidate is present, and the loop over the candidates, which has no
    [break], goes on to the second: what is copied into the array is
    [Velocities] (the twos), not [Velocity] (the ones). *)
Theorem load_reads_the_last_present_candidate :
  let g := Ref "both.hdf5" ModeR ["PartType0"] in
  _translate_array_name (NameMapper := Example.names) "vel"
  = ["Velocity"; "Velocities"] ∧
  _get_hdf_dataset (H := Example.names) Example.two_names_files
    Example.no_softening Example.two_names_snap g "Velocity"
  = Ok (OnDisk (Ref "both.hdf5" ModeR ["PartType0"; "Velocity"])) ∧
  resolve_candidates (H := Example.names) Example.two_names_files
    Example.no_softening Example.two_names_snap g ["Velocity"; "Velocities"] None
  = Ok (Some (OnDisk (Ref "both.hdf5" ModeR ["PartType0"; "Velocities"]))) ∧
  _load_array (H := Example.names) (H0 := Example.plain_elements)
    _GadgetHdfMultiFileManager Example.two_names_files
    Example.two_names_hdf_files Example.no_softening Example.no_units ()
    Example.two_names_snap "vel" (Some "gas")
  = Ok (Loaded (NdArray Float32 [2; 3] [2; 2; 2; 2; 2; 2]%float) ()).
Proof. split_and!; vm_compute; reflexivity. Qed.

(* ----------------------------------------------------------------- *)
(** ** Loading: filling the array group by group *)

Section StoreElements.
Context {A : Type}.
Implicit Types (data new : list A) (pos j : nat).

Lemma store_elements_length data pos new :
  (pos + length new ≤ length data)%nat →
  length (store_elements data pos new) = length data.
Proof.
  intros Hfit. unfold store_elements.
  rewrite !length_app, length_take, length_drop. lia.
Qed.

Lemma store_elements_before data pos new j :
  (pos ≤ length data)%nat → (j < pos)%nat →
  store_elements data pos new !! j = data !! j.
Proof.
  intros Hfit Hj. unfold store_elements.
  rewrite lookup_app_l by (rewrite length_take; lia).
  by rewrite lookup_take_lt.
Qed.

Lemma store_elements_inside data pos new j :
  (pos ≤ length data)%nat → (pos ≤ j < pos + length new)%nat →
  store_elements data pos new !! j = new !! (j - pos)%nat.
Proof.
  intros Hfit Hj. unfold store_elements.
  rewrite lookup_app_r by (rewrite length_take; lia).
  rewrite length_take, Nat.min_l by done.
  by rewrite lookup_app_l by lia.
Qed.

Lemma store_elements_after data pos new j :
  (pos ≤ length data)%nat → (pos + length new ≤ j)%nat →
  store_elements data pos new !! j = data !! j.
Proof.
  intros Hfit Hj. unfold store_elements.
  rewrite lookup_app_r by (rewrite length_take; lia).
  rewrite length_take, Nat.min_l by done.
  rewrite lookup_app_r by lia. rewrite lookup_drop. f_equal. lia.
Qed.

End StoreElements.

Section Fill.
Context {V dtype U : Type} `{NameMapper} `{ArrayModel V dtype}.
Variable d : disk V dtype.
Variable _get_softening_for_particle_group : ref → result (option scalar).
Variable self : snapshot dtype.
Variable dt : dtype.
Variable translated_names : list string.
Variable view : nat * nat.
Implicit Types (hdf : ref) (st : fill_state (V := V) (dtype := dtype)).

#[local] Arguments read_direct : simpl never.
#[local] Arguments data_size : simpl never.
#[local] Arguments resolve_candidates : simpl never.
#[local] Arguments store_elements : simpl never.

#[local] Abbreviation loads :=
  (group_loads d _get_softening_for_particle_group self dt translated_names).
#[local] Abbreviation fill_group :=
  (load_group d _get_softening_for_particle_group self dt 1 view translated_names).

(** What one turn of the loop does to a group that loads, when the rows
    of the group fit into the view and the view into the array: the offset
    moves on by the particles of the group, the rows of the group receive
    what [read_direct] reads from the candidate the loop ended on, and
    nothing else is written. *)
Lemma load_group_spec hdf st :
  loads hdf = true →
  (fill_i0 st + npart_of d hdf ≤ view.2)%nat →
  (view.1 + view.2 ≤ length (fill_data st))%nat →
  ∃ st', fill_group hdf st = Ok st' ∧
    fill_i0 st' = (fill_i0 st + npart_of d hdf)%nat ∧
    length (fill_data st') = length (fill_data st) ∧
    (∀ j, (j < view.1 + fill_i0 st)%nat →
          fill_data st' !! j = fill_data st !! j) ∧
    (∀ j, (view.1 + fill_i0 st' ≤ j)%nat →
          fill_data st' !! j = fill_data st !! j) ∧
    (∀ j, (view.1 + fill_i0 st ≤ j < view.1 + fill_i0 st')%nat →
          ∃ x new,
            resolve_candidates d _get_softening_for_particle_group self hdf
              translated_names None = Ok (Some x) ∧
            read_direct d x dt (npart_of d hdf) = Ok new ∧
            fill_data st' !! j = new !! (j - (view.1 + fill_i0 st))%nat).
Proof.
  unfold group_loads, load_group, npart_of, group_size, snap_size_from_hdf5_key.
  destruct (h5_getitem d hdf "ParticleIDs" ≫= _) as [npart|e]; [|done]. simpl.
  destruct (decide (npart = 0%nat)) as [->|Hnpart].
  { intros _ _ _. exists st. rewrite Nat.add_0_r. split_and!; try done. lia. }
  destruct (resolve_candidates _ _ _ hdf translated_names None)
    as [[x|]|e] eqn:Hres; [|done|done].
  rewrite (resolve_candidates_fresh _ _ _ _ _ _ (fill_dataset st) Hres). simpl.
  destruct (data_size d x) as [n|e]; [|done]. simpl.
  destruct (read_direct d x dt n) as [new|e] eqn:Hread;
    [|by rewrite andb_false_r].
  intros Hn Hfit Hview. apply andb_true_iff in Hn as [Hn Hlen].
  apply bool_decide_eq_true in Hn, Hlen. subst n.
  rewrite Nat.min_l by lia.
  replace (fill_i0 st `max` ((fill_i0 st + npart) `min` view.2))%nat
    with (fill_i0 st + npart)%nat by lia.
  replace ((fill_i0 st + npart - fill_i0 st) * 1)%nat with npart by lia.
  rewrite decide_True by done.
  simpl. rewrite Nat.mul_1_r.
  eexists. split; [done|]. simpl. split_and!.
  - done.
  - apply store_elements_length. lia.
  - intros j Hj. apply store_elements_before; lia.
  - intros j Hj. apply store_elements_after; lia.
  - intros j Hj. exists x, new. split_and!; [done|done|].
    apply store_elements_inside; lia.
Qed.

(** The same over a list of groups. *)
Lemma load_groups_spec (groups : list ref) st :
  Forall (λ hdf, loads hdf = true) groups →
  (fill_i0 st + sum_list (npart_of d <$> groups) ≤ view.2)%nat →
  (view.1 + view.2 ≤ length (fill_data st))%nat →
  ∃ st', for_each fill_group groups st = Ok st' ∧
    fill_i0 st' = (fill_i0 st + sum_list (npart_of d <$> groups))%nat ∧
    length (fill_data st') = length (fill_data st) ∧
    (∀ j, (j < view.1 + fill_i0 st)%nat →
          fill_data st' !! j = fill_data st !! j) ∧
    (∀ j, (view.1 + fill_i0 st' ≤ j)%nat →
          fill_data st' !! j = fill_data st !! j).
Proof.
  intros Hloads. revert st.
  induction Hloads as [|hdf groups Hhdf _ IH]; intros st Hfit Hview.
  - exists st. simpl. rewrite Nat.add_0_r. done.
  - rewrite fmap_cons in Hfit |- *. simpl in Hfit |- *.
    destruct (load_group_spec hdf st Hhdf)
      as (st1 & Hst1 & Hi1 & Hl1 & Hb1 & Ha1 & _); [lia|done|].
    rewrite Hst1. simpl.
    destruct (IH st1) as (st' & Hst' & Hi' & Hl' & Hb' & Ha'); [lia|lia|].
    exists st'. split_and!; [done|lia|lia| |].
    + intros j Hj. rewrite Hb' by lia. apply Hb1. lia.
    + intros j Hj. rewrite Ha' by lia. apply Ha1. lia.
Qed.

(** Groups that all resolve to a stand-in of the same value: their rows
    hold that value afterwards. *)
Lemma load_groups_constant (groups : list ref) (value : scalar) st :
  Forall (λ hdf, loads hdf = true ∧
                 ∃ dummy, resolve_candidates d _get_softening_for_particle_group
                            self hdf translated_names None
                          = Ok (Some (Dummy dummy)) ∧
                          dummy_value dummy = value) groups →
  (fill_i0 st + sum_list (npart_of d <$> groups) ≤ view.2)%nat →
  (view.1 + view.2 ≤ length (fill_data st))%nat →
  ∃ st', for_each fill_group groups st = Ok st' ∧
    ∀ j, (view.1 + fill_i0 st ≤ j < view.1 + fill_i0 st')%nat →
         fill_data st' !! j = Some (cast_scalar dt value).
Proof.
  intros Hgroups. revert st.
  induction Hgroups as [|hdf groups [Hhdf (dummy & Hres & Hvalue)] Hrest IH];
    intros st Hfit Hview.
  - exists st. split; [done|]. intros j Hj. lia.
  - rewrite fmap_cons in Hfit. simpl in Hfit.
    destruct (load_group_spec hdf st Hhdf)
      as (st1 & Hst1 & Hi1 & Hl1 & Hb1 & Ha1 & Hin1); [lia|done|].
    destruct (IH st1) as (st' & Hst' & Hconst); [lia|lia|].
    destruct (load_groups_spec groups st1) as (st'' & Hst'' & Hi'' & _ & Hb'' & _).
    { eapply Forall_impl; [exact Hrest|]. by intros ? [? _]. }
    { lia. } { lia. }
    assert (st'' = st') as -> by congruence.
    exists st'. split; [simpl; by rewrite Hst1|].
    intros j Hj. destruct (decide (j < view.1 + fill_i0 st1)%nat) as [Hlt|Hge].
    + rewrite Hb'' by done.
      destruct (Hin1 j) as (x & new & Hres' & Hread & ->); [lia|].
      rewrite Hres in Hres'. simplify_eq.
      unfold read_direct in Hread. simplify_eq.
      apply lookup_replicate_2. lia.
    + apply Hconst. lia.
Qed.

(** The same for stand-in groups in the middle of a family: the rows they
    received keep their value while the groups after them are filled. *)
Lemma load_groups_around (before mid after : list ref) (value : scalar) st :
  Forall (λ hdf, loads hdf = true) before →
  Forall (λ hdf, loads hdf = true ∧
                 ∃ dummy, resolve_candidates d _get_softening_for_particle_group
                            self hdf translated_names None
                          = Ok (Some (Dummy dummy)) ∧
                          dummy_value dummy = value) mid →
  Forall (λ hdf, loads hdf = true) after →
  (fill_i0 st + (sum_list (npart_of d <$> before) +
                 (sum_list (npart_of d <$> mid) +
                  sum_list (npart_of d <$> after))) ≤ view.2)%nat →
  (view.1 + view.2 ≤ length (fill_data st))%nat →
  ∃ st', for_each fill_group (before ++ mid ++ after) st = Ok st' ∧
    length (fill_data st') = length (fill_data st) ∧
    ∀ j, (view.1 + fill_i0 st + sum_list (npart_of d <$> before) ≤ j
          < view.1 + fill_i0 st + sum_list (npart_of d <$> before)
            + sum_list (npart_of d <$> mid))%nat →
         fill_data st' !! j = Some (cast_scalar dt value).
Proof.
  intros Hbefore Hmid Hafter Hfit Hview.
  destruct (load_groups_spec before st Hbefore)
    as (st1 & Hst1 & Hi1 & Hl1 & _ & _); [lia|done|].
  destruct (load_groups_constant mid value st1 Hmid)
    as (st2 & Hst2 & Hconst); [lia|lia|].
  destruct (load_groups_spec mid st1) as (st2' & Hst2' & Hi2 & Hl2 & _ & _).
  { eapply Forall_impl; [exact Hmid|]. by intros ? [? _]. }
  { lia. } { lia. }
  assert (st2' = st2) as -> by congruence.
  destruct (load_groups_spec after st2 Hafter)
    as (st3 & Hst3 & Hi3 & Hl3 & Hb3 & _); [lia|lia|].
  exists st3. split_and!.
  - rewrite for_each_app, (bind_Ok _ _ _ Hst1).
    rewrite for_each_app, (bind_Ok _ _ _ Hst2). exact Hst3.
  - congruence.
  - intros j Hj. rewrite Hb3 by lia. apply Hconst. lia.
Qed.

End Fill.

(* ----------------------------------------------------------------- *)
(** ** Loading: the mass from the header *)

Section HeaderMass.
Context {V dtype U : Type} `{NameMapper} `{ArrayModel V dtype}.
Variable cls : manager_class.
Variable d : disk V dtype.
Variable _get_softening_for_particle_group : ref → result (option scalar).
Variable self : snapshot dtype.
Implicit Types (hdf g : ref) (name : string).

(** For a group whose header entry is positive, the mass is the stand-in
    of that entry, as long as the group. *)
Lemma header_mass_of_entry g m n :
  mass_table_entry d g = Ok m → scalar_positive m = true →
  group_size d g = Ok n →
  header_mass d self g = Ok (Some (new_DummyHDFData m n (_mass_dtype self))).
Proof.
  intros Hm Hpos Hn. unfold header_mass. rewrite Hm. simpl.
  by rewrite Hpos, Hn.
Qed.

Lemma get_dataset_header_mass g hdf_name dummy :
  _translate_array_name_reverse hdf_name = _mass_pynbody_name →
  header_mass d self g = Ok (Some dummy) →
  _get_hdf_dataset d _get_softening_for_particle_group self g hdf_name
  = Ok (Dummy dummy).
Proof.
  intros Hname Hmass. unfold _get_hdf_dataset.
  by rewrite decide_True, Hmass by done.
Qed.

Lemma resolve_header_mass g names dummy dataset :
  names ≠ [] →
  Forall (λ name, _translate_array_name_reverse name = _mass_pynbody_name) names →
  header_mass d self g = Ok (Some dummy) →
  resolve_candidates d _get_softening_for_particle_group self g names dataset
  = Ok (Some (Dummy dummy)).
Proof.
  intros Hne Hnames Hmass.
  destruct names as [|name names _] using rev_ind; [done|].
  apply Forall_app in Hnames as [Hnames Hname].
  rewrite Forall_singleton in Hname.
  apply resolve_candidates_last.
  - eapply Forall_impl; [exact Hnames|]. intros name' Hname'. left.
    by rewrite (get_dataset_header_mass _ _ dummy).
  - by apply get_dataset_header_mass.
  - by apply Forall_nil.
Qed.

(** Such a group loads, whatever the element type of the array. *)
Lemma group_loads_header_mass dt names g dummy n :
  names ≠ [] →
  Forall (λ name, _translate_array_name_reverse name = _mass_pynbody_name) names →
  group_size d g = Ok n →
  header_mass d self g = Ok (Some dummy) → dummy_size dummy = n →
  group_loads d _get_softening_for_particle_group self dt names g = true.
Proof.
  intros Hne Hnames Hn Hmass Hsize. unfold group_loads. rewrite Hn.
  case_decide; [done|].
  rewrite (resolve_header_mass g names dummy None) by done. simpl.
  rewrite Hsize. rewrite bool_decide_eq_true_2 by done. simpl.
  apply bool_decide_eq_true_2, length_replicate.
Qed.

End HeaderMass.

(* ----------------------------------------------------------------- *)
(** ** Loading: the layout and the mass type of the snapshot *)

Section SnapshotLayout.
Context {V dtype : Type} `{ArrayModel V dtype}.
Variable cls : manager_class.
Variable d : disk V dtype.
Variable hdf_files : list ref.
Implicit Types (fmap : list (family * list string)) (gs : list string).

(** The slice of a family and of its groups in the layout that
    [__init_file_map] built. *)
Lemma family_layout fmap (family_slice0 : gmap family slice) L f gs :
  NoDup fmap.*1 → NoDup (concat fmap.*2) → Forall (λ p, p.2 ≠ []) fmap →
  sizes_are_datasets cls d hdf_files (concat fmap.*2) = true →
  __init_file_map cls d hdf_files fmap family_slice0 = Ok L →
  (f, gs) ∈ fmap →
  ∃ a b gsl,
    _family_slice L !! f = Some (a, b) ∧
    Forall2 (λ g s, _gadget_ptype_slice L !! g = Some s ∧
                    ptype_slice_len cls d hdf_files g = Ok (s.2 - s.1)%nat)
            gs gsl ∧
    chain a b gsl.
Proof.
  intros Hnd Hgnd Hne Hsizes HL Hin.
  set (fams := (py_sorted ((λ p, (first_group fmap p.1, p.1)) <$> fmap)).*2).
  assert (_families_ordered fmap = Ok fams) as Hfams
    by (by apply families_ordered_eq).
  assert (fams ≡ₚ fmap.*1) as Hperm by apply families_ordered_perm.
  destruct (file_map_family_loop cls d hdf_files fmap fams ∅ family_slice0 0)
    as (ps' & fs' & stop & fsl & Hloop & _ & _ & Hgroups & _ & _).
  - by rewrite Hperm.
  - rewrite Hperm, groups_of_entries; done.
  - apply Forall_forall. intros fam Hfam. rewrite Hperm in Hfam.
    apply list_elem_of_fmap in Hfam as ([f' gs'] & -> & Hin'). simpl.
    exists gs'. split; [by apply dict_get_elem|].
    apply Forall_forall. intros name Hname.
    eapply ptype_slice_len_ok; [exact Hsizes|].
    apply list_elem_of_In, in_concat. exists gs'.
    split; [|by apply list_elem_of_In].
    apply list_elem_of_In, list_elem_of_fmap. by exists (f', gs').
  - unfold __init_file_map in HL.
    rewrite (bind_Ok _ _ _ Hfams), (bind_Ok _ _ _ Hloop) in HL.
    injection HL as <-. simpl.
    destruct (Hgroups f) as (a & b & gsl & Hf & Hgsl & Hgchain).
    { rewrite Hperm. apply list_elem_of_fmap. by exists (f, gs). }
    exists a, b, gsl. split_and!; [done| |done].
    unfold groups_of in Hgsl. by rewrite (dict_get_elem fmap f gs) in Hgsl.
Qed.

(** [__infer_mass_dtype] ends on the element type of the positions of the
    last particle group that holds positions, and on [np.float64] when no
    group holds any. *)
Lemma infer_mass_dtype_loop (groups : list ref) (init dt : dtype) :
  for_each (λ hdf mass_dtype,
              if h5_contains d hdf "Coordinates" then
                c ← h5_getitem d hdf "Coordinates";
                h5_dtype d c
              else Ok mass_dtype) groups init = Ok dt →
  (dt = init ∧
   Forall (λ hdf, h5_contains d hdf "Coordinates" = false) groups) ∨
  (∃ before hdf after c,
     groups = (before ++ hdf :: after)%list ∧
     h5_getitem d hdf "Coordinates" = Ok c ∧ h5_dtype d c = Ok dt ∧
     Forall (λ hdf, h5_contains d hdf "Coordinates" = false) after).
Proof.
  revert init. induction groups as [|hdf groups IH]; intros init; simpl.
  - intros [= ->]. left. split; [done|constructor].
  - destruct (h5_contains d hdf "Coordinates") eqn:Hcontains.
    + destruct (h5_getitem d hdf "Coordinates") as [c|] eqn:Hc; [|done].
      simpl. destruct (h5_dtype d c) as [dt1|] eqn:Hdt1; [|done]. simpl.
      intros Hloop. right.
      destruct (IH _ Hloop)
        as [[-> Hnone]|(before & hdf' & after & c' & -> & Hc' & Hdt & Hnone)].
      * by exists [], hdf, groups, c.
      * by exists (hdf :: before), hdf', after, c'.
    + intros Hloop.
      destruct (IH _ Hloop)
        as [[-> Hnone]|(before & hdf' & after & c' & -> & Hc' & Hdt & Hnone)].
      * left. split; [done|by constructor].
      * right. by exists (hdf :: before), hdf', after, c'.
Qed.

End SnapshotLayout.

(* ----------------------------------------------------------------- *)
(** ** Loading: a group whose mass is in the header *)

Section MassFromHeader.
Context {V dtype U : Type} `{NameMapper} `{ArrayModel V dtype}.
Variable cls : manager_class.
Variable d : disk V dtype.
Variable hdf_files : list ref.
Variable _get_softening_for_particle_group : ref → result (option scalar).
Variable _get_units_from_hdf_attr : gmap string attr → result U.
Variable no_unit : U.
Variable self : snapshot dtype.

#[local] Abbreviation groups_named :=
  (iter_particle_groups_with_name cls d hdf_files).
#[local] Abbreviation mass_names := (_translate_array_name _mass_pynbody_name).
#[local] Abbreviation loads :=
  (group_loads d _get_softening_for_particle_group self (_mass_dtype self)
               mass_names).

Lemma header_groups_load (groups : list ref) (m : scalar) :
  mass_names ≠ [] →
  Forall (λ name, _translate_array_name_reverse name = _mass_pynbody_name)
         mass_names →
  Forall (λ hdf, mass_table_entry d hdf = Ok m) groups →
  scalar_positive m = true →
  Forall (λ g, group_size d g = Ok (npart_of d g)) groups →
  Forall (λ hdf, loads hdf = true ∧
                 ∃ dummy, resolve_candidates d _get_softening_for_particle_group
                            self hdf mass_names None
                          = Ok (Some (Dummy dummy)) ∧
                          dummy_value dummy = m) groups.
Proof.
  intros Hne Hnames Hentry Hpos Hsize.
  apply Forall_forall. intros hdf Hhdf.
  rewrite Forall_forall in Hentry, Hsize.
  pose proof (header_mass_of_entry d self hdf m _ (Hentry _ Hhdf) Hpos
                (Hsize _ Hhdf)) as Hmass.
  split.
  - eapply group_loads_header_mass; [done|done|by apply Hsize|exact Hmass|done].
  - eexists. split; [by apply resolve_header_mass|done].
Qed.

Lemma named_groups_load gs g :
  Forall (λ hdf, loads hdf = true) (groups_named g) →
  Forall (λ g', g' = g ∨ Forall (λ hdf, loads hdf = true) (groups_named g')) gs →
  Forall (λ hdf, loads hdf = true) (gs ≫= groups_named).
Proof.
  intros Hg. induction 1 as [|g' gs [->|Hg'] _ IH]; [constructor|..];
    rewrite bind_cons; by apply Forall_app.
Qed.


End MassFromHeader.



(* ================================================================= *)
(** * Further properties *)

(* ----------------------------------------------------------------- *)
(** ** The file manager: construction, iteration, the cache *)

Section ManagerConstruction.
Context {V dtype : Type}.
Implicit Types (d : disk V dtype) (m : manager) (i j : Z).

Lemma py_range_names (f : Z → string) n i :
  (0 ≤ i < n)%Z → (f <$> py_range n) !! Z.to_nat i = Some (f i).
Proof. intros Hi. by rewrite list_lookup_fmap, py_range_lookup. Qed.

(** X1: what [__init__] builds.  The manager starts in the mode asked for
    with nothing open.  Given the name of an HDF5 file it has that file as
    its only shard, whatever the header of the file says; otherwise the
    file [filename.0.hdf5] exists, the number of shards is the file count
    that file carries (the attribute [_nfiles_attrname] of its group
    [_nfiles_groupname], an integer or an array of one integer), and
    shard [i] is [filename.i.hdf5] for every [i] below that count.  Unless
    the count exceeds [sys.maxsize] the manager satisfies the invariant
    the other methods keep. *)
Theorem manager_init_builds_the_shard_names cls d filename mode m :
  manager_init cls d filename mode = Ok m →
  m_class m = cls ∧ _mode m = mode ∧ _open_files m = ∅ ∧
  (is_hdf5 d filename = true → _filenames m = [filename] ∧ _numfiles m = 1%Z) ∧
  (is_hdf5 d filename = false →
   is_hdf5 d (filename ++ ".0.hdf5") = true ∧
   (∃ a, h5_attrs d (Ref (filename ++ ".0.hdf5") mode [_nfiles_groupname cls])
           !! _nfiles_attrname cls = Some a ∧
         (a = AInt (_numfiles m) ∨ a = AInts [_numfiles m])) ∧
   length (_filenames m) = Z.to_nat (_numfiles m) ∧
   ∀ i, (0 ≤ i < _numfiles m)%Z →
        _filenames m !! Z.to_nat i
        = Some (filename ++ "." ++ pretty i ++ ".hdf5")) ∧
  ((_numfiles m ≤ sys_maxsize)%Z → manager_wf m ∧ manager_fresh m).
Proof.
  unfold manager_init, h5py_File, is_hdf5.
  destruct (d !! filename) as [n0|] eqn:Hfile.
  - rewrite bool_decide_eq_true_2 by eauto. intros [= <-]. simpl.
    split_and!; try done.
  - rewrite bool_decide_eq_false_2 by (by intros [? ?]).
    destruct (d !! (filename ++ ".0.hdf5")) as [n0|] eqn:Hfirst; [|done]. simpl.
    destruct (_get_num_files cls d _) as [a|] eqn:Ha; [|done]. simpl.
    destruct (match a with AInt n => _ | _ => _ end) as [n|] eqn:Hn; [|done].
    simpl. intros [= <-]. simpl.
    assert (length ((λ i : Z, filename ++ "." ++ pretty i ++ ".hdf5")
                      <$> py_range n) = Z.to_nat n) as Hlen
      by (by rewrite length_fmap, py_range_length).
    assert (h5_attrs d (Ref (filename ++ ".0.hdf5") mode [_nfiles_groupname cls])
              !! _nfiles_attrname cls = Some a) as Hattr.
    { unfold _get_num_files, h5_getitem in Ha.
      destruct (resolve d (Ref (filename ++ ".0.hdf5") mode []))
        as [[|a0 kids]|]; try done.
      destruct (kids !! _nfiles_groupname cls); [|done].
      cbn [mbind result_bind r_file r_mode r_path app] in Ha.
      by destruct (h5_attrs d _ !! _nfiles_attrname cls) as [a'|]; simplify_eq. }
    assert (a = AInt n ∨ a = AInts [n]) as Hcount.
    { destruct a as [x|z|l|l|s].
      - done.
      - left. by simplify_eq.
      - destruct l as [|? [|]]; simplify_eq. by right.
      - by destruct l as [|? [|]].
      - by destruct (decide (String.length s = 1%nat)). }
    split_and!; try done.
    intros _. split_and!; [done|by eauto|done|].
    intros i Hi. by apply py_range_names.
Qed.

End ManagerConstruction.

Lemma manager_init_builds_the_shard_names_witness :
  _filenames Example.files_manager = ["snap.0.hdf5"; "snap.1.hdf5"] ∧
  (∃ a, h5_attrs Example.files (Ref "snap.0.hdf5" ModeR ["Header"])
          !! "NumFilesPerSnapshot" = Some a ∧
        (a = AInt (_numfiles Example.files_manager) ∨
         a = AInts [_numfiles Example.files_manager])) ∧
  manager_wf Example.files_manager.
Proof.
  destruct (manager_init_builds_the_shard_names _GadgetHdfMultiFileManager
              Example.files "snap" ModeR Example.files_manager)
    as (_ & _ & _ & _ & Hshards & Hwf).
  - vm_compute. reflexivity.
  - split; [reflexivity|]. split.
    + destruct Hshards as (_ & Hcount & _); [vm_compute; reflexivity|].
      exact Hcount.
    + apply Hwf. vm_compute. discriminate.
Defined.

Section ManagerIteration.
Context {V dtype : Type}.
Implicit Types (d : disk V dtype) (m : manager) (i j k : Z).

(** A turn of [__iter__] touches the cache at its own index only, and
    leaves a handle there. *)
Lemma iter_yield_cache d j m h m' :
  iter_yield d j m = (Ok h, m') →
  _open_files m' !! j = Some h ∧
  ∀ k, k ≠ j → _open_files m' !! k = _open_files m !! k.
Proof.
  unfold iter_yield. intros Hy.
  repeat (case_match; simplify_eq/=); try done.
  - split; [by rewrite lookup_insert_eq|].
    intros k Hk. by rewrite !lookup_insert_ne.
  - split; [by rewrite lookup_insert_eq|].
    intros k Hk. by rewrite lookup_insert_ne.
Qed.

(** A handle in the cache of a ready manager is handed out as it is. *)
Lemma iter_yield_hit d j m :
  manager_fresh m → is_Some (_open_files m !! j) →
  iter_yield d j m = (Ok (shard_ref m j), m).
Proof.
  intros Hfresh [h Hh]. unfold iter_yield. rewrite Hh.
  by rewrite (Hfresh j h Hh).
Qed.

Lemma iter_from_ready d (js : list Z) m :
  manager_ready d m → Forall (λ j, (0 ≤ j < _numfiles m)%Z) js →
  ∃ m', iter_from d js m = (Ok (shard_ref m <$> js), m') ∧
        manager_ready d m' ∧ same_shards m m' ∧
        (∀ k, k ∈ js → is_Some (_open_files m' !! k)) ∧
        (∀ k, is_Some (_open_files m !! k) → is_Some (_open_files m' !! k)) ∧
        (∀ k, k ∉ js → _open_files m' !! k = _open_files m !! k).
Proof.
  revert m. induction js as [|j js IH]; intros m Hready Hjs.
  - exists m. split_and!; try done. intros k Hk. by apply elem_of_nil in Hk.
  - apply Forall_cons in Hjs as [Hj Hjs].
    destruct (iter_yield_ready d j m Hready Hj) as (m1 & Hy & Hready1 & Hsame1).
    apply iter_yield_cache in Hy as Hcache. destruct Hcache as [Hj1 Hframe1].
    destruct (IH m1 Hready1)
      as (m' & Hrest & Hready' & Hsame' & Hin & Hmono & Hframe).
    { by destruct Hsame1 as (_ & _ & _ & ->). }
    assert (∀ k, is_Some (_open_files m !! k) → is_Some (_open_files m1 !! k))
      as Hmono1.
    { intros k Hk. destruct (decide (k = j)) as [->|Hne]; [by rewrite Hj1|].
      by rewrite Hframe1. }
    exists m'. split_and!.
    + cbn [iter_from]. rewrite Hy, Hrest, fmap_cons. do 3 f_equal.
      apply list_fmap_ext. intros ? k _. by apply shard_ref_same.
    + done.
    + by eapply same_shards_trans.
    + intros k Hk. apply elem_of_cons in Hk as [->|Hk]; [|by apply Hin].
      apply Hmono. by rewrite Hj1.
    + intros k Hk. by apply Hmono, Hmono1.
    + intros k Hk. apply not_elem_of_cons in Hk as [Hne Hk].
      by rewrite Hframe, Hframe1.
Qed.

Lemma iter_from_cached d (js : list Z) m :
  manager_fresh m → Forall (λ j, is_Some (_open_files m !! j)) js →
  iter_from d js m = (Ok (shard_ref m <$> js), m).
Proof.
  intros Hfresh. induction 1 as [|j js Hj _ IH]; [done|].
  simpl. by rewrite iter_yield_hit, IH.
Qed.

(** X2: a loop over a manager whose shards can all be opened sees the
    handle of every shard, in the order of the file names: on the shard's
    own file, in the manager's mode, at the sub-group the manager class
    asks for.  Afterwards every shard is in the cache, and a second loop
    sees the same handles and changes nothing. *)
Theorem iter_yields_every_shard_once_opened d m :
  manager_ready d m →
  ∃ m', __iter__ d m = (Ok (manager_views m), m') ∧
        manager_ready d m' ∧ same_shards m m' ∧
        (∀ j, (0 ≤ j < _numfiles m)%Z →
              _open_files m' !! j = Some (shard_ref m j)) ∧
        __iter__ d m' = (Ok (manager_views m), m').
Proof.
  intros Hready. unfold __iter__.
  destruct (iter_from_ready d (py_range (_numfiles m)) m Hready)
    as (m' & Hiter & Hready' & Hsame & Hin & _ & _).
  { by apply py_range_Forall. }
  assert (∀ j, (0 ≤ j < _numfiles m)%Z →
               _open_files m' !! j = Some (shard_ref m j)) as Hcache.
  { intros j Hj. destruct (Hin j) as [h Hh]; [by apply py_range_elem|].
    destruct Hready' as (_ & Hfresh & _).
    by rewrite Hh, (Hfresh j h Hh), (shard_ref_same m m'). }
  exists m'. split_and!; [done|done|done|done|].
  destruct Hsame as (Hc & Hmode & Hf & Hn). rewrite Hn.
  rewrite iter_from_cached.
  - unfold manager_views. do 2 f_equal. apply list_fmap_ext. intros ? k _.
    by apply shard_ref_same.
  - by destruct Hready' as (_ & Hfresh & _).
  - apply py_range_Forall. intros j Hj. by rewrite Hcache.
Qed.

Lemma islice_next_ready d (js : list Z) (skip : nat) m j :
  manager_ready d m → Forall (λ j, (0 ≤ j < _numfiles m)%Z) js →
  js !! skip = Some j →
  ∃ m', islice_next d js skip m = (Ok (shard_ref m j), m') ∧
        manager_ready d m' ∧ same_shards m m' ∧
        (∀ k, k ∈ take (S skip) js → is_Some (_open_files m' !! k)) ∧
        (∀ k, k ∉ take (S skip) js → _open_files m' !! k = _open_files m !! k).
Proof.
  revert skip m. induction js as [|j0 js IH]; intros skip m Hready Hjs Hskip;
    [done|].
  apply Forall_cons in Hjs as [Hj0 Hjs].
  destruct (iter_yield_ready d j0 m Hready Hj0) as (m1 & Hy & Hready1 & Hsame1).
  apply iter_yield_cache in Hy as Hcache. destruct Hcache as [Hj1 Hframe1].
  cbn [islice_next]. rewrite Hy. destruct skip as [|skip]; simpl in Hskip.
  - simplify_eq. exists m1. split_and!; [done|done|done| |].
    + intros k Hk. rewrite firstn_cons, take_0 in Hk.
      apply list_elem_of_singleton in Hk as ->. by rewrite Hj1.
    + intros k Hk. rewrite firstn_cons, take_0 in Hk.
      apply Hframe1. intros ->. apply Hk. by left.
  - destruct (IH skip m1 Hready1)
      as (m' & Hrest & Hready' & Hsame' & Hin & Hframe); [|done|].
    { by destruct Hsame1 as (_ & _ & _ & ->). }
    exists m'. split_and!.
    + by rewrite Hrest, (shard_ref_same m m1).
    + done.
    + by eapply same_shards_trans.
    + intros k Hk. rewrite firstn_cons in Hk.
      destruct (decide (k ∈ take (S skip) js)) as [Hk'|Hk']; [by apply Hin|].
      apply elem_of_cons in Hk as [->|Hk]; [|done].
      rewrite Hframe by done. by rewrite Hj1.
    + intros k Hk. rewrite firstn_cons in Hk.
      apply not_elem_of_cons in Hk as [Hne Hk]. by rewrite Hframe, Hframe1.
Qed.

Lemma getitem_ready d m i :
  manager_ready d m → (0 ≤ i < _numfiles m)%Z →
  ∃ m', __getitem__ d i m = (Ok (shard_ref m i), m') ∧
        manager_ready d m' ∧ same_shards m m'.
Proof.
  intros Hready Hi. pose proof Hready as ((Hmax & Hlen & Hall) & Hfresh & Hop).
  unfold __getitem__.
  destruct (_open_files m !! i) as [h|] eqn:Hc.
  { exists m. by rewrite (Hfresh i h Hc). }
  replace ((i <? 0)%Z || (sys_maxsize <? i + 1)%Z) with false
    by (symmetry; apply orb_false_iff; split; apply Z.ltb_ge; lia).
  destruct (islice_next_ready d (py_range (_numfiles m)) (Z.to_nat i) m i)
    as (m' & Hnext & Hready' & Hsame & Hin & _);
    [done|by apply py_range_Forall|by apply py_range_lookup|].
  rewrite Hnext. destruct (Hin i) as [h Hh].
  { rewrite py_range_take by done. apply py_range_elem. lia. }
  destruct Hready' as (Hwf' & Hfresh' & Hop').
  assert (h = shard_ref m i) as ->
    by (by rewrite (Hfresh' i h Hh), (shard_ref_same m m')).
  rewrite insert_id by done.
  assert (set_open_files (_open_files m') m' = m') as -> by (by destruct m').
  by exists m'.
Qed.

(** X3: asking a ready manager for shard [i] gives the handle of shard
    [i].  When that shard is not in the cache yet the request opens, and
    leaves in the cache, every shard up to [i], not only shard [i]; the
    shards after [i] are not touched.  Asking again gives the same handle
    and changes nothing. *)
Theorem getitem_opens_the_shards_up_to d m i :
  manager_ready d m → (0 ≤ i < _numfiles m)%Z →
  ∃ m', __getitem__ d i m = (Ok (shard_ref m i), m') ∧
        manager_ready d m' ∧ same_shards m m' ∧
        (_open_files m !! i = None →
         ∀ j, (0 ≤ j ≤ i)%Z → _open_files m' !! j = Some (shard_ref m j)) ∧
        (∀ j, (i < j)%Z → _open_files m' !! j = _open_files m !! j) ∧
        __getitem__ d i m' = (Ok (shard_ref m i), m').
Proof.
  intros Hready Hi. pose proof Hready as ((Hmax & Hlen & Hall) & Hfresh & Hop).
  unfold __getitem__ at 1.
  destruct (_open_files m !! i) as [h|] eqn:Hc.
  { exists m. rewrite (Hfresh i h Hc).
    split_and!; [done|done|done|done|done|].
    unfold __getitem__. by rewrite Hc, (Hfresh i h Hc). }
  replace ((i <? 0)%Z || (sys_maxsize <? i + 1)%Z) with false
    by (symmetry; apply orb_false_iff; split; apply Z.ltb_ge; lia).
  destruct (islice_next_ready d (py_range (_numfiles m)) (Z.to_nat i) m i)
    as (m' & Hnext & Hready' & Hsame & Hin & Hframe);
    [done|by apply py_range_Forall|by apply py_range_lookup|].
  rewrite Hnext. rewrite py_range_take in Hin, Hframe by done.
  assert (∀ j, (0 ≤ j ≤ i)%Z → _open_files m' !! j = Some (shard_ref m j))
    as Hcache.
  { intros j Hj. destruct (Hin j) as [h Hh]; [apply py_range_elem; lia|].
    destruct Hready' as (_ & Hfresh' & _).
    by rewrite Hh, (Hfresh' j h Hh), (shard_ref_same m m'). }
  assert (<[i := shard_ref m i]> (_open_files m') = _open_files m') as Hsame_cache.
  { apply insert_id, Hcache. lia. }
  assert (set_open_files (<[i := shard_ref m i]> (_open_files m')) m' = m') as ->.
  { rewrite Hsame_cache. by destruct m'. }
  exists m'. split_and!; [done|done|done|by intros _|..].
  - intros j Hj. apply Hframe. rewrite py_range_elem. lia.
  - unfold __getitem__. by rewrite (Hcache i) by lia.
Qed.

(** X4: for both manager classes the attribute getters read at the root
    of the first file: the header from [/Header], the units from [/Units]
    (the Subfind manager, whose handles are the [FOF] groups, steps back
    to the root).  [get_parameter_attrs] gives the attributes of
    [/Parameters] when that group exists and has any, and what
    [get_header_attrs] gives otherwise. *)
Theorem attribute_getters_read_the_root_of_file_0 d m :
  manager_ready d m → (0 < _numfiles m)%Z →
  let root := Ref (default "" (_filenames m !! 0%nat)) (_mode m) [] in
  (get_header_attrs d m).1 = group_attrs d root "Header" ∧
  (get_unit_attrs d m).1 = group_attrs d root "Units" ∧
  (get_parameter_attrs d m).1
  = match group_attrs d root "Parameters" with
    | Ok attrs =>
        if decide (size attrs = 0%nat) then group_attrs d root "Header"
        else Ok attrs
    | Raise e =>
        if decide (e = KeyError) then group_attrs d root "Header" else Raise e
    end.
Proof.
  intros Hready Hn root.
  assert (h5_parent (shard_ref m 0) = root) as Hroot.
  { unfold h5_parent, shard_ref, root. simpl.
    by destruct (_subgroup_name (m_class m)). }
  assert (∀ m, manager_ready d m → (0 < _numfiles m)%Z →
               ∃ m', get_file0_root d m = (Ok (h5_parent (shard_ref m 0)), m') ∧
                     manager_ready d m' ∧ same_shards m m') as Hfile0.
  { intros m0 Hready0 Hn0. unfold get_file0_root.
    destruct (getitem_ready d m0 0 Hready0) as (m' & -> & ? & ?); [lia|].
    by exists m'. }
  destruct (Hfile0 m Hready Hn) as (m1 & Hget & Hready1 & Hsame1).
  assert (h5_parent (shard_ref m1 0) = root) as Hroot1.
  { by rewrite (shard_ref_same m m1). }
  destruct (Hfile0 m1 Hready1) as (m2 & Hget1 & _ & _).
  { by destruct Hsame1 as (_ & _ & _ & ->). }
  unfold get_header_attrs, get_unit_attrs, get_parameter_attrs.
  rewrite Hget, Hroot. split_and!; [done|done|]. simpl.
  unfold try_except.
  destruct (group_attrs d root "Parameters") as [attrs|e].
  - case_decide; [|done]. unfold get_header_attrs. by rewrite Hget1, Hroot1.
  - case_decide; [|done]. simpl. unfold get_header_attrs.
    by rewrite Hget1, Hroot1.
Qed.

End ManagerIteration.

Lemma example_manager_ready : manager_ready Example.files Example.files_manager.
Proof.
  split_and!; [exact example_manager_wf|apply map_Forall_empty|].
  repeat constructor.
Qed.

Lemma iter_yields_every_shard_once_opened_witness :
  ∃ m', __iter__ Example.files Example.files_manager
        = (Ok Example.hdf_files, m') ∧
        __iter__ Example.files m' = (Ok Example.hdf_files, m').
Proof.
  destruct (iter_yields_every_shard_once_opened Example.files
              Example.files_manager example_manager_ready)
    as (m' & Hfirst & _ & _ & _ & Hsecond).
  exists m'. split; [exact Hfirst|exact Hsecond].
Defined.

Lemma getitem_opens_the_shards_up_to_witness :
  ∃ m', __getitem__ Example.files 1 Example.files_manager
        = (Ok (Ref "snap.1.hdf5" ModeR []), m') ∧
        _open_files m' !! 0%Z = Some (Ref "snap.0.hdf5" ModeR []).
Proof.
  destruct (getitem_opens_the_shards_up_to Example.files
              Example.files_manager 1 example_manager_ready)
    as (m' & Hget & _ & _ & Hcache & _); [simpl; lia|].
  exists m'. split; [exact Hget|]. apply Hcache; [reflexivity|lia].
Defined.

Lemma attribute_getters_read_the_root_of_file_0_witness :
  (get_header_attrs Example.files Example.files_manager).1
  = Ok {[ "NumFilesPerSnapshot" := AInt 2;
          "MassTable" := AFloats [0; 2; 0; 0; 0; 0]%float ]} ∧
  (get_parameter_attrs Example.files Example.files_manager).1
  = (get_header_attrs Example.files Example.files_manager).1.
Proof.
  destruct (attribute_getters_read_the_root_of_file_0 Example.files
              Example.files_manager example_manager_ready)
    as (Hheader & _ & Hparameters); [simpl; lia|].
  split.
  - rewrite Hheader. vm_compute. reflexivity.
  - rewrite Hparameters, Hheader. vm_compute. reflexivity.
Defined.


(* ----------------------------------------------------------------- *)
(** ** The layout: the particle count and the family map *)

Section LayoutTotals.
Context {V dtype : Type}.
Variable cls : manager_class.
Variable d : disk V dtype.
Variable hdf_files : list ref.
Implicit Types (fmap dtm : list (family * list string)).

#[local] Abbreviation groups_named :=
  (iter_particle_groups_with_name cls d hdf_files).

(** X5: the length [__init_file_map] gives to the snapshot is the number
    of particles on disk: the sum, over the native groups of the family
    map and the shards that hold them, of the size of the group's
    [ParticleIDs]. *)
Theorem num_particles_is_the_count_on_disk fmap
    (family_slice0 : gmap family slice) L :
  NoDup fmap.*1 → NoDup (concat fmap.*2) → Forall (λ p, p.2 ≠ []) fmap →
  sizes_are_datasets cls d hdf_files (concat fmap.*2) = true →
  __init_file_map cls d hdf_files fmap family_slice0 = Ok L →
  _num_particles L
  = sum_list (npart_of d <$> (concat fmap.*2 ≫= groups_named)) ∧
  Forall (λ g, group_size d g = Ok (npart_of d g))
         (concat fmap.*2 ≫= groups_named).
Proof.
  intros Hnd Hgnd Hne Hsizes HL.
  assert (∀ name, name ∈ concat fmap.*2 →
                  ∃ n, ptype_slice_len cls d hdf_files name = Ok n) as Hlen.
  { intros name Hname. by eapply ptype_slice_len_ok. }
  split.
  - set (fams := (py_sorted ((λ p, (first_group fmap p.1, p.1)) <$> fmap)).*2).
    assert (_families_ordered fmap = Ok fams) as Hfams
      by (by apply families_ordered_eq).
    assert (fams ≡ₚ fmap.*1) as Hperm by apply families_ordered_perm.
    destruct (file_map_family_loop cls d hdf_files fmap fams ∅ family_slice0 0)
      as (ps' & fs' & stop & fsl & Hloop & Hchain & Hfsl & Hgroups & _ & _).
    + by rewrite Hperm.
    + rewrite Hperm, groups_of_entries; done.
    + apply Forall_forall. intros fam Hfam. rewrite Hperm in Hfam.
      apply list_elem_of_fmap in Hfam as ([f' gs'] & -> & Hin'). simpl.
      exists gs'. split; [by apply dict_get_elem|].
      apply Forall_forall. intros name Hname. apply Hlen.
      apply list_elem_of_In, in_concat. exists gs'.
      split; [|by apply list_elem_of_In].
      apply list_elem_of_In, list_elem_of_fmap. by exists (f', gs').
    + unfold __init_file_map in HL.
      rewrite (bind_Ok _ _ _ Hfams), (bind_Ok _ _ _ Hloop) in HL.
      injection HL as <-. simpl.
      pose proof (families_sum cls d hdf_files fmap fams fsl fs' ps' 0 stop
                    Hchain Hfsl Hgroups)
        as Hsum.
      rewrite Hperm, groups_of_entries in Hsum by done. lia.
  - apply Forall_forall. intros g Hg.
    apply list_elem_of_bind in Hg as (name & Hg & Hname).
    destruct (Hlen name Hname) as [n Hn].
    apply ptype_slice_len_sum in Hn as [_ Hall].
    by apply (proj1 (Forall_forall _ _) Hall).
Qed.

(** X6: what [__init_family_map] keeps of the configured type map: the
    families and, inside each, the group names stay in the configured
    order; every family kept has a group; the groups kept are the
    configured ones that some shard holds (with or without the size
    marker), and every such group is kept. *)
Theorem init_family_map_keeps_the_groups_on_disk dtm :
  let fmap := __init_family_map d hdf_files dtm in
  let on_disk := λ x, Exists (λ hdf, h5_contains d hdf x = true) hdf_files in
  fmap.*1 `sublist_of` dtm.*1 ∧
  Forall (λ p, p.2 ≠ [] ∧ Forall on_disk p.2 ∧
               ∃ g_types, (p.1, g_types) ∈ dtm ∧ p.2 `sublist_of` g_types)
         fmap ∧
  ∀ f g_types x, (f, g_types) ∈ dtm → x ∈ g_types → on_disk x →
    ∃ gs, (f, gs) ∈ fmap ∧ x ∈ gs.
Proof.
  intros fmap on_disk. subst fmap. split_and!.
  - apply init_family_map_sublist.
  - induction dtm as [|[f g_types] dtm IH]; [constructor|].
    rewrite init_family_map_cons.
    assert (Forall (λ p, p.2 ≠ [] ∧ Forall on_disk p.2 ∧
                         ∃ g_types0, (p.1, g_types0) ∈ (f, g_types) :: dtm ∧
                                     p.2 `sublist_of` g_types0)
                   (__init_family_map d hdf_files dtm)) as IH'.
    { eapply Forall_impl; [exact IH|].
      intros p (? & ? & g0 & ? & ?). split_and!; [done|done|].
      exists g0. split; [by right|done]. }
    destruct (filter _ g_types) as [|g gs] eqn:Hfilter; [done|].
    constructor; [|done]. simpl. split_and!; [done| |].
    + rewrite <- Hfilter. apply Forall_forall. intros x Hx.
      by apply list_elem_of_filter in Hx as [? _].
    + exists g_types. split; [by left|]. rewrite <- Hfilter.
      apply sublist_filter.
  - intros f g_types x Hin Hx Hdisk.
    induction dtm as [|[f' g_types'] dtm IH]; [by apply elem_of_nil in Hin|].
    rewrite init_family_map_cons.
    apply elem_of_cons in Hin as [[= <- <-]|Hin].
    + assert (x ∈ filter on_disk g_types) as Hkept
        by (by apply list_elem_of_filter).
      unfold on_disk in Hkept.
      destruct (filter _ g_types) as [|g gs]; [by apply elem_of_nil in Hkept|].
      exists (g :: gs). split; [by left|done].
    + destruct (IH Hin) as (gs & Hgs & Hxgs).
      exists gs. split; [|done].
      destruct (filter _ g_types'); [done|by right].
Qed.

End LayoutTotals.

Lemma num_particles_is_the_count_on_disk_witness :
  _num_particles (snap_file_map Example.snap) = 8%nat.
Proof.
  destruct (num_particles_is_the_count_on_disk _GadgetHdfMultiFileManager
              Example.files Example.hdf_files Example._family_to_group_map
              ∅ (snap_file_map Example.snap)) as [-> _].
  - apply (bool_decide_unpack _). vm_compute. exact I.
  - apply (bool_decide_unpack _). vm_compute. exact I.
  - repeat constructor; discriminate.
  - vm_compute. reflexivity.
  - vm_compute. reflexivity.
  - vm_compute. reflexivity.
Defined.

(* ----------------------------------------------------------------- *)
(** ** Paths of names *)

Section Paths.
Context {V dtype : Type}.
Implicit Types (d : disk V dtype) (n : node V dtype) (p q : list string).

Lemma node_at_app p q n : node_at (p ++ q) n = node_at p n ≫= node_at q.
Proof.
  revert n. induction p as [|k p IH]; intros n; [done|].
  simpl. destruct n as [|a kids]; [done|].
  destruct (kids !! k) as [c|]; [apply IH|done].
Qed.

Lemma resolve_app d file mode p q :
  resolve d (Ref file mode (p ++ q))
  = resolve d (Ref file mode p) ≫= node_at q.
Proof.
  unfold resolve. simpl. destruct (d !! file) as [n|]; [|done]. simpl.
  apply node_at_app.
Qed.

(** Looking the names of a path up one after the other arrives at the
    object at the end of the path, if there is one. *)
Lemma getitem_path d file mode p q :
  is_Some (resolve d (Ref file mode (p ++ q))) →
  for_each (λ tpart ret, h5_getitem d ret tpart) q (Ref file mode p)
  = Ok (Ref file mode (p ++ q)).
Proof.
  revert p. induction q as [|k q IH]; intros p Hsome.
  - simpl. by rewrite app_nil_r.
  - assert (p ++ k :: q = (p ++ [k]) ++ q)%list as Heq
      by (by rewrite <- app_assoc).
    rewrite Heq in Hsome |- *. cbn [for_each].
    assert (h5_getitem d (Ref file mode p) k
            = Ok (Ref file mode (p ++ [k])%list)) as ->; [|by apply IH].
    unfold h5_getitem. rewrite !resolve_app in Hsome.
    destruct (resolve d (Ref file mode p)) as [[|a kids]|]; simpl in Hsome;
      try (destruct Hsome as [? Hsome]; discriminate Hsome).
    destruct (kids !! k); [done|].
    destruct Hsome as [? Hsome]; discriminate Hsome.
Qed.

(** A name that is not there makes the lookup fail; the object at the end
    of a path that is there is found under every name of the path. *)
Lemma resolve_prefix d file mode p q :
  is_Some (resolve d (Ref file mode (p ++ q))) →
  is_Some (resolve d (Ref file mode p)).
Proof.
  rewrite resolve_app. destruct (resolve d (Ref file mode p)); [eauto|].
  intros [? H]. discriminate H.
Qed.

End Paths.

(* ----------------------------------------------------------------- *)
(** ** Recognising a file *)

Section CanLoadFacts.
Context {V dtype : Type}.
Implicit Types (d : disk V dtype) (cls : snap_class).

Lemma py_drop_last_snoc s c : py_drop_last (s ++ String c "") = s.
Proof.
  induction s as [|c' s IH]; [done|].
  rewrite string_app_cons. simpl. rewrite IH.
  destruct (s ++ String c "")%string eqn:Hs; [by destruct s|done].
Qed.

Lemma list_ascii_app s t :
  list_ascii_of_string (s ++ t) = (list_ascii_of_string s ++ list_ascii_of_string t)%list.
Proof.
  induction s as [|c s IH]; [done|].
  rewrite string_app_cons. simpl. by rewrite IH.
Qed.

Lemma py_last_snoc s c :
  py_last (list_ascii_of_string (s ++ String c "")) = Ok c.
Proof. unfold py_last. rewrite list_ascii_app. simpl. by rewrite last_snoc. Qed.

(** The loop over the particle numbers: whatever number it is at, the key
    it tries is the prefix followed by that number. *)
Lemma test_key_loop d (h5test : ref) prefix c (found : bool) :
  (foldl (λ st p, test_key_step d h5test p st) (prefix ++ String c "", found)
         (py_range 6)).2
  = found || existsb (λ p, h5_contains_path d h5test (prefix ++ pretty p))
                     (py_range 6).
Proof.
  change (py_range 6) with [0; 1; 2; 3; 4; 5]%Z.
  change (pretty 0%Z) with "0". change (pretty 1%Z) with "1".
  change (pretty 2%Z) with "2". change (pretty 3%Z) with "3".
  change (pretty 4%Z) with "4". change (pretty 5%Z) with "5".
  cbn [foldl existsb]. unfold test_key_step. cbn [fst snd].
  change (pretty 0%Z) with "0". change (pretty 1%Z) with "1".
  change (pretty 2%Z) with "2". change (pretty 3%Z) with "3".
  change (pretty 4%Z) with "4". change (pretty 5%Z) with "5".
  rewrite !py_drop_last_snoc.
  repeat (destruct (h5_contains_path d h5test _)); by destruct found.
Qed.

Lemma test_for_hdf5_key_wildcard cls d f prefix :
  _readable_hdf5_test_key cls = prefix ++ "?" →
  is_hdf5 d f = true →
  let h5test := Ref f ModeR [] in
  let found :=
    existsb (λ p, h5_contains_path d h5test (prefix ++ pretty p)) (py_range 6) in
  _test_for_hdf5_key cls d f
  = if negb found then Ok false
    else
      match _readable_hdf5_test_attr cls with
      | None => Ok found
      | Some (location, attrname) =>
          if h5_contains_path d h5test location then
            g ← for_each (λ tpart ret, h5_getitem d ret tpart)
                         (py_split_on "/" location) h5test;
            Ok (bool_decide (is_Some (h5_attrs d g !! attrname)))
          else Ok false
      end.
Proof.
  intros Hkey Hfile h5test found. unfold _test_for_hdf5_key, h5py_File.
  apply bool_decide_eq_true in Hfile as [n Hn]. rewrite Hn.
  cbn [mbind result_bind]. rewrite Hkey, py_last_snoc.
  cbn [mbind result_bind]. rewrite Ascii.eqb_refl.
  by rewrite (test_key_loop d (Ref f ModeR []) prefix "?" false).
Qed.

Lemma test_for_hdf5_key_not_a_file cls d f :
  is_hdf5 d f = false → ∃ e, _test_for_hdf5_key cls d f = Raise e.
Proof.
  intros Hfile. unfold _test_for_hdf5_key, h5py_File.
  apply bool_decide_eq_false in Hfile.
  destruct (d !! f); [|by eexists]. exfalso. apply Hfile. eauto.
Qed.

(** X7: a test key that ends in a question mark stands for the six
    particle types: on an HDF5 file, [_test_for_hdf5_key] answers whether
    the file holds the key with [0], [1], ... or [5] in the place of the
    question mark and, for a class with a test attribute, whether the
    location of the attribute exists and carries it.  It answers; it does
    not raise. *)
Theorem test_for_hdf5_key_tries_the_six_types cls d f prefix :
  _readable_hdf5_test_key cls = prefix ++ "?" →
  is_hdf5 d f = true →
  let h5test := Ref f ModeR [] in
  let found :=
    existsb (λ p, h5_contains_path d h5test (prefix ++ pretty p)) (py_range 6) in
  _test_for_hdf5_key cls d f
  = match _readable_hdf5_test_attr cls with
    | None => Ok found
    | Some (location, attrname) =>
        Ok (found && h5_contains_path d h5test location &&
            bool_decide (is_Some (h5_attrs d (Ref f ModeR (py_split_on "/" location))
                                  !! attrname)))
    end.
Proof.
  intros Hkey Hfile h5test found.
  rewrite (test_for_hdf5_key_wildcard cls d f prefix Hkey Hfile).
  fold h5test. fold found.
  destruct found; simpl; [|by destruct (_readable_hdf5_test_attr cls) as [[??]|]].
  destruct (_readable_hdf5_test_attr cls) as [[location attrname]|]; [|done].
  destruct (h5_contains_path d h5test location) eqn:Hloc; [|done].
  apply bool_decide_eq_true in Hloc. simpl in Hloc.
  unfold h5test. by rewrite (getitem_path d f ModeR [] _ Hloc).
Qed.

Variable with_suffix : string → string → string.

Lemma arepo_test_is_stronger d f :
  _test_for_hdf5_key ArepoHDFSnap d f = Ok true →
  _test_for_hdf5_key GadgetHDFSnap d f = Ok true.
Proof.
  destruct (is_hdf5 d f) eqn:Hfile.
  - rewrite (test_for_hdf5_key_wildcard ArepoHDFSnap d f "PartType") by done.
    rewrite (test_for_hdf5_key_wildcard GadgetHDFSnap d f "PartType") by done.
    cbn [_readable_hdf5_test_attr GadgetHDFSnap ArepoHDFSnap].
    by destruct (existsb _ _).
  - destruct (test_for_hdf5_key_not_a_file ArepoHDFSnap d f Hfile) as [e ->].
    done.
Qed.

Lemma eagle_test_is_stronger d f :
  _test_for_hdf5_key EagleLikeHDFSnap d f = Ok true →
  _test_for_hdf5_key GadgetHDFSnap d f = Ok true.
Proof.
  intros Heagle. destruct (is_hdf5 d f) eqn:Hfile.
  - rewrite (test_for_hdf5_key_wildcard GadgetHDFSnap d f "PartType") by done.
    cbn [_readable_hdf5_test_attr GadgetHDFSnap].
    assert (existsb (λ p, h5_contains_path d (Ref f ModeR [])
                            ("PartType" ++ pretty p)) (py_range 6) = true)
      as ->; [|done].
    unfold _test_for_hdf5_key, h5py_File in Heagle.
    apply bool_decide_eq_true in Hfile as [n Hn]. rewrite Hn in Heagle.
    simpl in Heagle.
    destruct (h5_contains_path _ _ "PartType1/SubGroupNumber") eqn:Hsub;
      [|done].
    apply bool_decide_eq_true in Hsub.
    change (py_split_on "/" "PartType1/SubGroupNumber")
      with (["PartType1"] ++ ["SubGroupNumber"])%list in Hsub.
    simpl in Hsub. apply (resolve_prefix d f ModeR ["PartType1"]) in Hsub.
    change (py_range 6) with [0; 1; 2; 3; 4; 5]%Z. cbn [existsb].
    assert (h5_contains_path d (Ref f ModeR []) ("PartType" ++ pretty 1%Z) = true)
      as ->; [by apply bool_decide_eq_true|].
    by rewrite orb_true_r.
  - destruct (test_for_hdf5_key_not_a_file EagleLikeHDFSnap d f Hfile)
      as [e He].
    by rewrite He in Heagle.
Qed.

(** X8: the subclasses recognise fewer files than the base class: a file
    that [ArepoHDFSnap] or [EagleLikeHDFSnap] can load, [GadgetHDFSnap]
    can load as well. *)
Theorem gadget_loads_what_its_subclasses_load d f :
  (_can_load with_suffix ArepoHDFSnap d f = Ok true →
   _can_load with_suffix GadgetHDFSnap d f = Ok true) ∧
  (_can_load with_suffix EagleLikeHDFSnap d f = Ok true →
   _can_load with_suffix GadgetHDFSnap d f = Ok true).
Proof.
  unfold _can_load.
  destruct (is_hdf5 d f);
    [split; [apply arepo_test_is_stronger|apply eagle_test_is_stronger]|].
  destruct (is_hdf5 d (with_suffix f ".0.hdf5")); [|done].
  split; [apply arepo_test_is_stronger|apply eagle_test_is_stronger].
Qed.

End CanLoadFacts.

Lemma test_for_hdf5_key_tries_the_six_types_witness :
  _test_for_hdf5_key GadgetHDFSnap Example.files "snap.0.hdf5" = Ok true ∧
  _test_for_hdf5_key ArepoHDFSnap Example.files "snap.0.hdf5" = Ok false.
Proof.
  split.
  - rewrite (test_for_hdf5_key_tries_the_six_types GadgetHDFSnap Example.files
               "snap.0.hdf5" "PartType"); [|reflexivity|reflexivity].
    vm_compute. reflexivity.
  - rewrite (test_for_hdf5_key_tries_the_six_types ArepoHDFSnap Example.files
               "snap.0.hdf5" "PartType"); [|reflexivity|reflexivity].
    vm_compute. reflexivity.
Defined.

Lemma gadget_loads_what_its_subclasses_load_witness :
  _can_load Example.with_suffix GadgetHDFSnap Example.arepo_files "arepo.hdf5"
  = Ok true.
Proof.
  apply (proj1 (gadget_loads_what_its_subclasses_load Example.with_suffix
                  Example.arepo_files "arepo.hdf5")).
  vm_compute. reflexivity.
Defined.

(* ----------------------------------------------------------------- *)
(** ** Unit inference: a description without symbols *)

Section PlainDescription.
Context `{UnitAlgebra U Frac}.
Variable _hdf_unitvar : list (string * U).
Variable _hdf_cgsvar : list (string * string).

Lemma description_loop_absent description (symbols : list string) st :
  Forall (λ unitname, String.index 0 unitname description = None) symbols →
  for_each (description_step _hdf_unitvar _hdf_cgsvar description) symbols st
  = Ok st.
Proof.
  induction 1 as [|unitname symbols Habsent _ IH]; [done|].
  cbn [for_each]. destruct st as [arr_units conversion].
  assert (description_step _hdf_unitvar _hdf_cgsvar description unitname
            (arr_units, conversion) = Ok (arr_units, conversion)) as ->.
  { unfold description_step, symbol_power. by rewrite Habsent. }
  apply IH.
Qed.

(** X9: a description in which none of the symbols of the table occurs
    (the empty one, or a word like [dimensionless]) is read as the unit
    [1.0] with the conversion factor [1.0], whatever the tables hold.  It
    is accepted unchecked without a declared factor; with one, it is
    accepted exactly when [allclose(1.0, declared, rtol=1e-3)], and
    [UnitsException] is raised otherwise. *)
Theorem description_without_symbols_is_dimensionless description :
  Forall (λ unitname, String.index 0 unitname description = None)
         _hdf_unitvar.*1 →
  description_units _hdf_unitvar _hdf_cgsvar description = Ok (unit_one, 1%float) ∧
  _get_units_from_description _hdf_unitvar _hdf_cgsvar description None
  = Ok unit_one ∧
  ∀ expected,
    _get_units_from_description _hdf_unitvar _hdf_cgsvar description
      (Some expected)
    = if np_allclose 1 expected rtol_1e_3 np_default_atol
      then Ok unit_one else Raise UnitsException.
Proof.
  intros Habsent.
  assert (description_units _hdf_unitvar _hdf_cgsvar description
          = Ok (unit_one, 1%float)) as Hloop
    by (by apply description_loop_absent).
  unfold _get_units_from_description. rewrite Hloop. simpl.
  split_and!; [done|done|]. intros expected.
  by destruct (np_allclose 1 expected rtol_1e_3 np_default_atol).
Qed.

End PlainDescription.

Lemma description_without_symbols_is_dimensionless_witness :
  _get_units_from_description (H := Example.cgs_units) Example._hdf_unitvar
    Example._hdf_cgsvar "dimensionless" (Some 1%float) = Ok 1%float ∧
  _get_units_from_description (H := Example.cgs_units) Example._hdf_unitvar
    Example._hdf_cgsvar "" (Some 2%float) = Raise UnitsException.
Proof.
  split.
  - destruct (description_without_symbols_is_dimensionless
                (H := Example.cgs_units) Example._hdf_unitvar
                Example._hdf_cgsvar "dimensionless") as (_ & _ & ->).
    + vm_compute. repeat constructor.
    + reflexivity.
  - destruct (description_without_symbols_is_dimensionless
                (H := Example.cgs_units) Example._hdf_unitvar
                Example._hdf_cgsvar "") as (_ & _ & ->).
    + vm_compute. repeat constructor.
    + reflexivity.
Defined.

(* ----------------------------------------------------------------- *)
(** ** Loading: the array is the groups laid end to end *)

Section FillReads.
Context {V dtype U : Type} `{NameMapper} `{ArrayModel V dtype}.
Variable d : disk V dtype.
Variable _get_softening_for_particle_group : ref → result (option scalar).
Variable self : snapshot dtype.
Variable dt : dtype.
Variable dy : nat.
Variable translated_names : list string.
Variable view : nat * nat.
Implicit Types (hdf : ref) (st : fill_state (V := V) (dtype := dtype)).

#[local] Arguments read_direct : simpl never.
#[local] Arguments data_size : simpl never.
#[local] Arguments resolve_candidates : simpl never.
#[local] Arguments store_elements : simpl never.

#[local] Abbreviation reads :=
  (group_reads d _get_softening_for_particle_group self dt dy translated_names).
#[local] Abbreviation fill_group :=
  (load_group d _get_softening_for_particle_group self dt dy view
              translated_names).

Lemma sum_list_cons (x : nat) (l : list nat) :
  sum_list (x :: l) = (x + sum_list l)%nat.
Proof. done. Qed.

Lemma group_reads_npart hdf new :
  reads hdf new → group_size d hdf = Ok (npart_of d hdf) ∧
                  length new = (npart_of d hdf * dy)%nat.
Proof.
  intros (npart & Hsize & Hcase). unfold npart_of. rewrite Hsize.
  split; [done|].
  destruct Hcase as [[-> ->]|(_ & x & _ & _ & _ & Hlen)]; [done|exact Hlen].
Qed.

(** One turn of the loop over the groups: the rows of the group, and no
    others, are replaced by what the group holds. *)
Lemma load_group_reads hdf new st :
  reads hdf new →
  (fill_i0 st + npart_of d hdf ≤ view.2)%nat →
  ((view.1 + view.2) * dy ≤ length (fill_data st))%nat →
  ∃ st', fill_group hdf st = Ok st' ∧
    fill_i0 st' = (fill_i0 st + npart_of d hdf)%nat ∧
    fill_data st'
    = (take ((view.1 + fill_i0 st) * dy) (fill_data st) ++ new
       ++ drop ((view.1 + fill_i0 st) * dy + length new) (fill_data st))%list.
Proof.
  intros Hreads. pose proof (group_reads_npart hdf new Hreads) as [Hsize Hlen].
  destruct Hreads as (npart & Hsize' & Hcase).
  rewrite Hsize in Hsize'. injection Hsize' as Hnpart. subst npart.
  intros Hfit Hview. unfold load_group.
  unfold group_size, snap_size_from_hdf5_key in Hsize. rewrite Hsize.
  cbn [mbind result_bind]. set (npart := npart_of d hdf) in *.
  destruct Hcase as [[Hzero ->]|(Hne & x & Hres & Hds & Hread & _)].
  - rewrite decide_True by done. exists st. rewrite Hzero.
    split_and!; [done|lia|]. simpl. rewrite Nat.add_0_r. by rewrite take_drop.
  - rewrite decide_False by done.
    rewrite (resolve_candidates_fresh _ _ _ _ _ _ (fill_dataset st) Hres).
    cbn [mbind result_bind]. rewrite Hds. cbn [mbind result_bind].
    rewrite Nat.min_l by lia.
    replace (fill_i0 st `max` ((fill_i0 st + npart) `min` view.2))%nat
      with (fill_i0 st + npart)%nat by lia.
    replace ((fill_i0 st + npart - fill_i0 st) * dy)%nat with (npart * dy)%nat
      by (f_equal; lia).
    rewrite decide_True by done. rewrite Hread. cbn [mbind result_bind].
    eexists. split_and!; [done|simpl; lia|]. simpl. done.
Qed.

Lemma load_groups_reads (groups : list ref) (news : list (list V)) st :
  Forall2 reads groups news →
  (fill_i0 st + sum_list (npart_of d <$> groups) ≤ view.2)%nat →
  ((view.1 + view.2) * dy ≤ length (fill_data st))%nat →
  ∃ st', for_each fill_group groups st = Ok st' ∧
    fill_i0 st' = (fill_i0 st + sum_list (npart_of d <$> groups))%nat ∧
    length (concat news) = (sum_list (npart_of d <$> groups) * dy)%nat ∧
    fill_data st'
    = (take ((view.1 + fill_i0 st) * dy) (fill_data st) ++ concat news
       ++ drop ((view.1 + fill_i0 st) * dy + length (concat news))
            (fill_data st))%list.
Proof.
  intros Hreads. revert st.
  induction Hreads as [|hdf new groups news Hhdf _ IH]; intros st Hfit Hview.
  - exists st. simpl. rewrite !Nat.add_0_r. by rewrite take_drop.
  - rewrite fmap_cons, sum_list_cons in Hfit |- *.
    pose proof (group_reads_npart hdf new Hhdf) as [_ Hlen].
    destruct (load_group_reads hdf new st Hhdf)
      as (st1 & Hst1 & Hi1 & Hdata1); [lia|done|].
    assert (((view.1 + fill_i0 st) * dy + length new
             ≤ (view.1 + view.2) * dy)%nat) as Hbound.
    { rewrite Hlen, <- Nat.mul_add_distr_r. apply Nat.mul_le_mono_r. lia. }
    assert (length (fill_data st1) = length (fill_data st)) as Hlen1.
    { rewrite Hdata1, !length_app, length_take, length_drop. lia. }
    destruct (IH st1) as (st' & Hst' & Hi' & Hcat & Hdata'); [lia|lia|].
    exists st'. split_and!.
    + cbn [for_each]. by rewrite Hst1.
    + lia.
    + cbn [concat]. rewrite length_app, Hcat, Hlen. lia.
    + rewrite Hdata'. cbn [concat]. rewrite Hi1.
      set (P := ((view.1 + fill_i0 st) * dy)%nat) in *.
      assert (((view.1 + (fill_i0 st + npart_of d hdf)) * dy)%nat
              = (P + length new)%nat) as -> by (unfold P; rewrite Hlen; lia).
      assert (length (take P (fill_data st) ++ new)%list = (P + length new)%nat)
        as Hprefix.
      { rewrite length_app, length_take. lia. }
      rewrite Hdata1.
      rewrite (app_assoc (take P (fill_data st)) new).
      rewrite take_app_length' by done.
      rewrite drop_app_ge by lia.
      rewrite Hprefix. rewrite drop_drop.
      rewrite <- !app_assoc. do 3 f_equal.
      rewrite length_app. f_equal. lia.
Qed.

End FillReads.

Section LoadWhole.
Context {V dtype U : Type} `{NameMapper} `{ArrayModel V dtype}.
Variable cls : manager_class.
Variable d : disk V dtype.
Variable hdf_files : list ref.
Variable _get_softening_for_particle_group : ref → result (option scalar).
Variable _get_units_from_hdf_attr : gmap string attr → result U.
Variable no_unit : U.
Variable self : snapshot dtype.

#[local] Abbreviation groups_named :=
  (iter_particle_groups_with_name cls d hdf_files).
#[local] Abbreviation reads :=
  (group_reads d _get_softening_for_particle_group self).

(** The loop over the groups of one family, on the rows of the family. *)
Lemma load_family_reads dt dy (fam : option family) names f gs a b
    (news : list (list V)) st :
  dict_get (snap_family_to_group_map self) f = Ok gs →
  _family_slice (snap_file_map self) !! f = Some (a, b) →
  (a + sum_list (npart_of d <$> (gs ≫= groups_named)) = b)%nat →
  Forall2 (reads dt dy names) (gs ≫= groups_named) news →
  let start := match fam with None => a | Some _ => 0%nat end in
  ((start + (b - a)) * dy ≤ length (fill_data st))%nat →
  ∃ st', load_family cls d hdf_files _get_softening_for_particle_group self
           dt dy fam names f st = Ok st' ∧
    length (concat news) = ((b - a) * dy)%nat ∧
    fill_data st'
    = (take (start * dy) (fill_data st) ++ concat news
       ++ drop ((start + (b - a)) * dy) (fill_data st))%list.
Proof.
  intros Hgs Hf Hsum Hreads start Hfit. unfold load_family.
  unfold _all_hdf_groups_in_family. rewrite Hgs. cbn [mbind result_bind].
  assert (family_view self fam f = (start, b - a)%nat) as ->.
  { unfold family_view, family_rows. rewrite Hf. simpl. by destruct fam. }
  destruct (load_groups_reads d _get_softening_for_particle_group self dt dy
              names (start, b - a)%nat (gs ≫= groups_named) news
              (FillState (fill_dataset st) 0 (fill_data st)) Hreads)
    as (st' & Hst' & _ & Hcat & Hdata); [simpl; lia|done|].
  exists st'. simpl in Hdata. rewrite Nat.add_0_r in Hdata.
  assert (sum_list (npart_of d <$> (gs ≫= groups_named)) = b - a)%nat as Hrows
    by lia.
  rewrite Hrows in Hcat. split_and!; [done|done|].
  rewrite Hdata, Hcat. by rewrite <- Nat.mul_add_distr_r.
Qed.


(** The loop over the families, for an array of the whole snapshot. *)
Lemma load_families_reads dt dy names (fams : list family) (fsl : list slice)
    (newss : list (list (list V))) start stop st :
  chain start stop fsl →
  Forall2 (λ f s, _family_slice (snap_file_map self) !! f = Some s) fams fsl →
  Forall2 (λ f news,
             ∃ gs, dict_get (snap_family_to_group_map self) f = Ok gs ∧
                   Forall2 (reads dt dy names) (gs ≫= groups_named) news ∧
                   ∀ s, _family_slice (snap_file_map self) !! f = Some s →
                        (s.1 + sum_list (npart_of d <$> (gs ≫= groups_named))
                         = s.2)%nat)
          fams newss →
  (stop * dy ≤ length (fill_data st))%nat →
  ∃ st', for_each (load_family cls d hdf_files _get_softening_for_particle_group
                     self dt dy None names) fams st = Ok st' ∧
    length (concat (concat newss)) = ((stop - start) * dy)%nat ∧
    fill_data st'
    = (take (start * dy) (fill_data st) ++ concat (concat newss)
       ++ drop (stop * dy) (fill_data st))%list.
Proof.
  intros Hchain Hfsl. revert start Hchain newss st.
  induction Hfsl as [|f s fams fsl Hf _ IH]; intros start Hchain newss st Hreads Hfit.
  - inversion Hchain; subst. inversion Hreads; subst.
    exists st. simpl. rewrite Nat.sub_diag. by rewrite take_drop.
  - inversion Hchain as [|a' mid b' sl' Hle Hrest]; subst.
    inversion Hreads as [|f' news fams' newss' (gs & Hgs & Hnews & Hsum) Hreads'];
      subst.
    specialize (Hsum _ Hf). simpl in Hsum.
    pose proof (chain_le _ _ _ Hrest) as Hmid.
    destruct (load_family_reads dt dy None names f gs start mid news st
                Hgs Hf Hsum Hnews) as (st1 & Hst1 & Hcat1 & Hdata1).
    { simpl. etrans; [|exact Hfit]. apply Nat.mul_le_mono_r. lia. }
    simpl in Hdata1.
    replace (start + (mid - start))%nat with mid in Hdata1 by lia.
    assert (mid * dy ≤ stop * dy)%nat as Hmid' by (by apply Nat.mul_le_mono_r).
    assert (start * dy ≤ mid * dy)%nat as Hstart' by (by apply Nat.mul_le_mono_r).
    assert ((mid - start) * dy = mid * dy - start * dy)%nat as Hrows
      by (by rewrite Nat.mul_sub_distr_r).
    assert (length (take (start * dy) (fill_data st) ++ concat news)%list
            = (mid * dy)%nat) as Hprefix.
    { rewrite length_app, length_take, Hcat1. lia. }
    assert (length (fill_data st1) = length (fill_data st)) as Hlen1.
    { rewrite Hdata1, app_assoc, length_app, Hprefix, length_drop. lia. }
    destruct (IH mid Hrest newss' st1 Hreads') as (st' & Hst' & Hcat & Hdata');
      [lia|].
    exists st'. split_and!.
    + cbn [for_each]. by rewrite Hst1.
    + cbn [concat]. rewrite concat_app, length_app, Hcat1, Hcat.
      rewrite <- Nat.mul_add_distr_r. f_equal. lia.
    + rewrite Hdata'. cbn [concat]. rewrite concat_app, Hdata1.
      rewrite (app_assoc (take (start * dy) (fill_data st)) (concat news)).
      rewrite <- Hprefix at 1. rewrite take_app_length.
      rewrite drop_app_ge by lia. rewrite Hprefix, drop_drop.
      replace (mid * dy + (stop * dy - mid * dy))%nat with (stop * dy)%nat
        by lia.
      by rewrite <- !app_assoc.
Qed.

(** X10: loading an array for one family lays what its groups hold end to
    end, in the order of the groups of the family and, for each, of the
    shards; what a group holds is read from the candidate name the
    candidates loop ends on.  The array has one row for each particle of
    the family, [dy] elements in a row, and carries the element type and
    the unit found by the probe (the mass type of the snapshot for the
    mass). *)
Theorem load_family_array_joins_its_groups (array_name f : string)
    (gs : list string) (dt0 : dtype) (dy : nat) (u : U)
    (family_slice0 : gmap family slice) (news : list (list V)) :
  let fmap := snap_family_to_group_map self in
  let names := _translate_array_name array_name in
  let dt := if decide (array_name = _mass_pynbody_name)
            then _mass_dtype self else dt0 in
  NoDup fmap.*1 → NoDup (concat fmap.*2) → Forall (λ p, p.2 ≠ []) fmap →
  sizes_are_datasets cls d hdf_files (concat fmap.*2) = true →
  __init_file_map cls d hdf_files fmap family_slice0 = Ok (snap_file_map self) →
  (f, gs) ∈ fmap →
  _family_has_loadable_array self (Some f) array_name = Ok true →
  __get_dtype_dims_and_units d hdf_files _get_softening_for_particle_group
    _get_units_from_hdf_attr no_unit self (Some f) names = Ok (dt0, dy, u) →
  Forall2 (reads dt dy names) (gs ≫= groups_named) news →
  ∃ a b,
    _family_slice (snap_file_map self) !! f = Some (a, b) ∧
    length (concat news) = ((b - a) * dy)%nat ∧
    _load_array cls d hdf_files _get_softening_for_particle_group
      _get_units_from_hdf_attr no_unit self array_name (Some f)
    = Ok (Loaded (NdArray dt (if decide (dy = 1%nat) then [b - a]
                              else [b - a; dy])%nat
                          (concat news)) u).
Proof.
  intros fmap names dt Hnd Hgnd Hne Hsizes Hmap Hin Hloadable Hprobe Hreads.
  destruct (family_layout cls d hdf_files fmap family_slice0 _ f gs
              Hnd Hgnd Hne Hsizes Hmap Hin) as (a & b & gsl & Hf & Hgsl & Hchain).
  pose proof (chain_sum cls d hdf_files gs gsl a b
                ltac:(eapply Forall2_impl; [exact Hgsl|by intros ?? [_ ?]])
                Hchain) as Hsum.
  assert (family_rows self f = (a, b)) as Hrows
    by (unfold family_rows; by rewrite Hf).
  destruct (load_family_reads dt dy (Some f) names f gs a b news
              (FillState None 0 (replicate ((b - a) * dy) zero))
              (dict_get_elem fmap f gs Hnd Hin) Hf Hsum Hreads)
    as (st & Hst & Hcat & Hdata).
  { simpl. by rewrite length_replicate. }
  simpl in Hdata. rewrite drop_ge, app_nil_r in Hdata
    by (by rewrite length_replicate).
  exists a, b. split_and!; [done|done|].
  unfold _load_array.
  rewrite (bind_Ok _ _ _ Hloadable). cbn [negb].
  fold names. rewrite (bind_Ok _ _ _ Hprobe). fold dt.
  rewrite Hrows. cbn [fst snd for_each].
  unfold create_array at 1. cbn [a_data].
  rewrite (bind_Ok _ _ _ Hst). cbn [mbind result_bind].
  by rewrite Hdata.
Qed.

(** X11: loading an array for the whole snapshot lays the families end to
    end, in the order [families()] gives them, each as it would be loaded
    on its own: the groups of the family, in order, shard after shard.
    [families()] is taken as the layout has it: the slices of the
    families it lists follow one another from [0] to the length of the
    snapshot. *)
Theorem load_snapshot_array_joins_the_families (array_name : string)
    (dt0 : dtype) (dy : nat) (u : U) (family_slice0 : gmap family slice)
    (fsl : list slice) (newss : list (list (list V))) :
  let fmap := snap_family_to_group_map self in
  let names := _translate_array_name array_name in
  let dt := if decide (array_name = _mass_pynbody_name)
            then _mass_dtype self else dt0 in
  let N := _num_particles (snap_file_map self) in
  NoDup fmap.*1 → NoDup (concat fmap.*2) → Forall (λ p, p.2 ≠ []) fmap →
  sizes_are_datasets cls d hdf_files (concat fmap.*2) = true →
  __init_file_map cls d hdf_files fmap family_slice0 = Ok (snap_file_map self) →
  Forall2 (λ f s, _family_slice (snap_file_map self) !! f = Some s)
          (snap_families self) fsl →
  chain 0 N fsl →
  _family_has_loadable_array self None array_name = Ok true →
  __get_dtype_dims_and_units d hdf_files _get_softening_for_particle_group
    _get_units_from_hdf_attr no_unit self None names = Ok (dt0, dy, u) →
  Forall2 (λ f news, ∃ gs, (f, gs) ∈ fmap ∧
                           Forall2 (reads dt dy names) (gs ≫= groups_named) news)
          (snap_families self) newss →
  length (concat (concat newss)) = (N * dy)%nat ∧
  _load_array cls d hdf_files _get_softening_for_particle_group
    _get_units_from_hdf_attr no_unit self array_name None
  = Ok (Loaded (NdArray dt (if decide (dy = 1%nat) then [N] else [N; dy])
                        (concat (concat newss))) u).
Proof.
  intros fmap names dt N Hnd Hgnd Hne Hsizes Hmap Hfsl Hchain Hloadable Hprobe
         Hreads.
  destruct (load_families_reads dt dy names (snap_families self) fsl newss 0 N
              (FillState None 0 (replicate (N * dy) zero)) Hchain Hfsl)
    as (st & Hst & Hcat & Hdata).
  { eapply Forall2_impl; [exact Hreads|].
    intros f news (gs & Hin & Hnews). exists gs.
    split_and!; [by apply dict_get_elem|done|].
    intros [a b] Hf.
    destruct (family_layout cls d hdf_files fmap family_slice0 _ f gs
                Hnd Hgnd Hne Hsizes Hmap Hin)
      as (a' & b' & gsl & Hf' & Hgsl & Hgchain).
    fold fmap in Hf'. rewrite Hf in Hf'. injection Hf' as <- <-. simpl.
    apply (chain_sum cls d hdf_files gs gsl a b); [|done].
    eapply Forall2_impl; [exact Hgsl|]. by intros ?? [_ ?]. }
  { simpl. by rewrite length_replicate. }
  rewrite Nat.sub_0_r in Hcat.
  simpl in Hdata. rewrite drop_ge, app_nil_r in Hdata
    by (by rewrite length_replicate).
  split; [done|].
  unfold _load_array.
  rewrite (bind_Ok _ _ _ Hloadable). cbn [negb].
  fold names. rewrite (bind_Ok _ _ _ Hprobe). fold dt. fold N.
  unfold create_array at 1. cbn [a_data].
  rewrite (bind_Ok _ _ _ Hst). cbn [mbind result_bind].
  by rewrite Hdata.
Qed.

End LoadWhole.

Lemma load_family_array_joins_its_groups_witness :
  _load_array (H := Example.names) (H0 := Example.plain_elements)
    _GadgetHdfMultiFileManager Example.files Example.hdf_files
    Example.no_softening Example.no_units () Example.snap "iord" (Some "dm")
  = Ok (Loaded (NdArray Int64 [3%nat] [4; 5; 6]%float) ()).
Proof.
  destruct (load_family_array_joins_its_groups (H := Example.names)
              (H0 := Example.plain_elements)
              _GadgetHdfMultiFileManager Example.files Example.hdf_files
              Example.no_softening Example.no_units () Example.snap
              "iord" "dm" ["PartType1"] Int64 1 () ∅
              [[4; 5]; [6]]%float)
    as (a & b & Hf & _ & Hload).
  - apply (bool_decide_unpack _). vm_compute. exact I.
  - apply (bool_decide_unpack _). vm_compute. exact I.
  - repeat constructor; discriminate.
  - vm_compute. reflexivity.
  - vm_compute. reflexivity.
  - apply (bool_decide_unpack _). vm_compute. exact I.
  - vm_compute. reflexivity.
  - vm_compute. reflexivity.
  - repeat constructor.
    + exists 2%nat. split; [vm_compute; reflexivity|]. right.
      split; [discriminate|]. eexists. split_and!; reflexivity.
    + exists 1%nat. split; [vm_compute; reflexivity|]. right.
      split; [discriminate|]. eexists. split_and!; reflexivity.
  - vm_compute in Hf. injection Hf as <- <-. exact Hload.
Defined.

Lemma load_snapshot_array_joins_the_families_witness :
  _load_array (H := Example.names) (H0 := Example.plain_elements)
    _GadgetHdfMultiFileManager Example.files Example.hdf_files
    Example.no_softening Example.no_units () Example.snap "iord" None
  = Ok (Loaded (NdArray Int64 [8%nat] [1; 2; 3; 4; 5; 6; 7; 8]%float) ()).
Proof.
  apply (load_snapshot_array_joins_the_families (H := Example.names)
           (H0 := Example.plain_elements)
           _GadgetHdfMultiFileManager Example.files Example.hdf_files
           Example.no_softening Example.no_units () Example.snap
           "iord" Int64 1 () ∅ [(0, 3); (3, 6); (6, 8)]%nat
           [[[1; 2; 3]]; [[4; 5]; [6]]; [[7; 8]]]%float).
  - apply (bool_decide_unpack _). vm_compute. exact I.
  - apply (bool_decide_unpack _). vm_compute. exact I.
  - repeat constructor; discriminate.
  - vm_compute. reflexivity.
  - vm_compute. reflexivity.
  - repeat constructor.
  - repeat constructor.
  - vm_compute. reflexivity.
  - vm_compute. reflexivity.
  - constructor; [|constructor; [|constructor; [|constructor]]].
    + exists ["PartType0"]. split; [apply (bool_decide_unpack _); vm_compute; exact I|].
      repeat constructor.
      exists 3%nat. split; [vm_compute; reflexivity|]. right.
      split; [discriminate|]. eexists. split_and!; reflexivity.
    + exists ["PartType1"]. split; [apply (bool_decide_unpack _); vm_compute; exact I|].
      repeat constructor.
      * exists 2%nat. split; [vm_compute; reflexivity|]. right.
        split; [discriminate|]. eexists. split_and!; reflexivity.
      * exists 1%nat. split; [vm_compute; reflexivity|]. right.
        split; [discriminate|]. eexists. split_and!; reflexivity.
    + exists ["PartType4"]. split; [apply (bool_decide_unpack _); vm_compute; exact I|].
      repeat constructor.
      exists 2%nat. split; [vm_compute; reflexivity|]. right.
      split; [discriminate|]. eexists. split_and!; reflexivity.
Defined.

(* ----------------------------------------------------------------- *)
(** ** Writing back: what is left alone *)

Section AlterFacts.
Context {V dtype : Type}.
Implicit Types (d : disk V dtype) (n ds : node V dtype) (p q : list string)
  (f : node V dtype → node V dtype).

Lemma node_at_alter_same f p n :
  node_at p (node_alter f p n) = f <$> node_at p n.
Proof.
  revert n. induction p as [|k p IH]; intros n; [done|].
  simpl. destruct n as [|a kids]; [done|]. simpl.
  rewrite lookup_alter_eq. destruct (kids !! k) as [c|]; [apply IH|done].
Qed.

(** Altering an object that stays a group when it is one changes no
    dataset at another path. *)
Lemma node_alter_other f q p n ds :
  (∀ a kids, f (Group a kids) = Group a kids) →
  node_at p n = Some ds → is_dataset ds → p ≠ q →
  node_at p (node_alter f q n) = Some ds.
Proof.
  intros Hf. revert p n.
  induction q as [|k q IH]; intros p n Hp Hds Hne.
  - destruct p as [|k' p]; [done|]. simpl in Hp |- *.
    destruct n as [|a kids]; [done|]. by rewrite Hf.
  - simpl. destruct n as [|a kids]; [done|].
    destruct p as [|k' p].
    { simpl in Hp. injection Hp as <-. done. }
    simpl in Hp |- *. destruct (decide (k' = k)) as [->|Hk].
    + rewrite lookup_alter_eq. destruct (kids !! k) as [c|]; [|done].
      simpl in Hp |- *. apply IH; [done|done|]. by intros ->.
    + by rewrite lookup_alter_ne.
Qed.

(** Adding a member under a free name changes no dataset. *)
Lemma node_alter_add q (name : string) (fresh : node V dtype) p n ds :
  let add := λ n, match n with
                  | Group a kids => Group a (<[name := fresh]> kids)
                  | Dataset _ _ _ _ => n
                  end in
  node_at p n = Some ds → is_dataset ds →
  node_at (q ++ [name]) n = None →
  node_at p (node_alter add q n) = Some ds.
Proof.
  intros add. revert p n.
  induction q as [|k q IH]; intros p n Hp Hds Hfree.
  - cbn [node_alter]. destruct n as [|a kids]; [done|].
    destruct p as [|k' p].
    { simpl in Hp. injection Hp as <-. done. }
    cbn [app node_at] in Hp, Hfree |- *. unfold add. cbn [node_at].
    destruct (kids !! name) eqn:Hname; [done|].
    rewrite lookup_insert_ne; [done|]. intros <-. by rewrite Hname in Hp.
  - cbn [node_alter]. destruct n as [|a kids]; [done|].
    destruct p as [|k' p].
    { simpl in Hp. injection Hp as <-. done. }
    rewrite <- app_comm_cons in Hfree.
    cbn [node_at] in Hp, Hfree |- *. destruct (decide (k' = k)) as [->|Hk].
    + rewrite (lookup_alter_eq (node_alter add q) kids k).
      destruct (kids !! k) as [c|]; [|done].
      cbn [mbind option_bind fmap option_fmap option_map] in Hp, Hfree |- *.
      by apply IH.
    + by rewrite (lookup_alter_ne (node_alter add q) kids k k').
Qed.

Lemma resolve_alter_same f (r : ref) d :
  resolve (disk_alter f r d) r = f <$> resolve d r.
Proof.
  unfold resolve, disk_alter, disk in *. rewrite lookup_alter_eq.
  destruct (d !! r_file r) as [n|]; simpl; [apply node_at_alter_same|done].
Qed.

Lemma resolve_alter_other f (q r : ref) d n :
  (∀ a kids, f (Group a kids) = Group a kids) →
  resolve d r = Some n → is_dataset n → r_path r ≠ r_path q →
  resolve (disk_alter f q d) r = Some n.
Proof.
  intros Hf Hres Hn Hne. unfold resolve, disk_alter, disk in *.
  destruct (decide (r_file r = r_file q)) as [Hfile|Hfile].
  - rewrite Hfile in Hres |- *. rewrite lookup_alter_eq.
    destruct (d !! r_file q) as [root|]; simpl in *; [|done].
    by apply node_alter_other.
  - by rewrite lookup_alter_ne.
Qed.

Lemma resolve_alter_add (g r : ref) (name : string) (fresh : node V dtype)
    d n a kids :
  let add := λ n, match n with
                  | Group a kids => Group a (<[name := fresh]> kids)
                  | Dataset _ _ _ _ => n
                  end in
  resolve d g = Some (Group a kids) → kids !! name = None →
  resolve d r = Some n → is_dataset n →
  resolve (disk_alter add g d) r = Some n.
Proof.
  intros add Hg Hname Hres Hn. unfold resolve, disk_alter, disk in *.
  destruct (decide (r_file r = r_file g)) as [Hfile|Hfile].
  - rewrite Hfile in Hres |- *.
    rewrite (lookup_alter_eq (node_alter add (r_path g)) d (r_file g)).
    destruct (d !! r_file g) as [root|]; simpl in *; [|done].
    apply node_alter_add; [done|done|].
    rewrite node_at_app, Hg. simpl. by rewrite Hname.
  - by rewrite (lookup_alter_ne (node_alter add (r_path g)) d).
Qed.

End AlterFacts.

Section WriteFrameFacts.
Context {V dtype : Type} `{EqDecision dtype} `{NameMapper} `{ArrayModel V dtype}.
Implicit Types (w : world V dtype) (R : relation (world V dtype)).

#[global] Instance other_datasets_kept_preorder leaf :
  PreOrder (other_datasets_kept (V := V) (dtype := dtype) leaf).
Proof.
  split.
  - by intros w r n _ _ ?.
  - intros w1 w2 w3 H12 H23 r n Hlast Hds Hres.
    apply H23; [done|done|]. by apply H12.
Qed.

Lemma same_disk_kept leaf w w' :
  w_disk w' = w_disk w → other_datasets_kept leaf w w'.
Proof. intros Hd r n _ _ Hres. by rewrite Hd. Qed.

(** A bind whose continuation only has to keep the relation for the
    values the first statement can return. *)
Lemma preserves_wbind_post {A B} R `{!Transitive R} (m : W A) (k : A → W B)
    (Q : A → Prop) :
  preserves R m → (∀ w a w', m w = (Ok a, w') → Q a) →
  (∀ a, Q a → preserves R (k a)) → preserves R (wbind m k).
Proof.
  intros Hm HQ Hk w r w' Heq. unfold wbind in Heq.
  destruct (m w) as [[a|e] w1] eqn:Hmw.
  - etrans; [by eapply Hm|]. eapply Hk; [|done]. by eapply HQ.
  - simplify_eq. by eapply Hm.
Qed.

Lemma write_direct_kept leaf (ds : ref) source :
  last (r_path ds) = Some leaf →
  preserves (other_datasets_kept leaf) (write_direct ds source).
Proof.
  intros Hleaf w res w' Heq. unfold write_direct in Heq.
  destruct (resolve (w_disk w) ds) as [[dt shape data a|]|] eqn:Hds;
    try (simplify_eq; reflexivity).
  destruct (r_mode ds); [simplify_eq; reflexivity|].
  case_decide; [|simplify_eq; reflexivity]. simplify_eq.
  intros r n Hlast Hn Hres. simpl.
  apply resolve_alter_other; [done|done|done|]. intros Hp. apply Hlast.
  by rewrite Hp.
Qed.

Lemma require_dataset_kept (g : ref) name shape dt :
  preserves (other_datasets_kept name) (require_dataset g name shape dt).
Proof.
  intros w res w' Heq. unfold require_dataset in Heq.
  destruct (resolve (w_disk w) g) as [[|a kids]|] eqn:Hg;
    try (simplify_eq; reflexivity).
  destruct (kids !! name) as [[dt' shape' data' a'|]|] eqn:Hname.
  - repeat case_decide; simplify_eq; reflexivity.
  - simplify_eq; reflexivity.
  - destruct (r_mode g); [simplify_eq; reflexivity|]. simplify_eq.
    intros r n Hlast Hn Hres. simpl.
    by eapply resolve_alter_add.
Qed.

Lemma require_dataset_result (g : ref) name shape dt w ds w' :
  require_dataset g name shape dt w = (Ok ds, w') →
  ds = Ref (r_file g) (r_mode g) (r_path g ++ [name]).
Proof.
  unfold require_dataset. intros Heq.
  repeat (case_match; simplify_eq/=); done.
Qed.

Lemma get_or_create_kept (g : ref) hdf_name shape dt leaf :
  py_last (py_split_on "/" hdf_name) = Ok leaf →
  preserves (other_datasets_kept leaf)
            (_get_or_create_hdf_dataset g hdf_name shape dt).
Proof.
  intros Hleaf. unfold _get_or_create_hdf_dataset. case_decide.
  - apply preserves_wraise, _.
  - apply preserves_wbind; [apply _|apply (preserves_read _)|]. intros ret.
    rewrite Hleaf. intros w res w' Heq. unfold wbind, wlift in Heq.
    by eapply require_dataset_kept.
Qed.

Lemma get_or_create_result (g : ref) hdf_name shape dt leaf w ds w' :
  py_last (py_split_on "/" hdf_name) = Ok leaf →
  _get_or_create_hdf_dataset g hdf_name shape dt w = (Ok ds, w') →
  last (r_path ds) = Some leaf.
Proof.
  intros Hleaf. unfold _get_or_create_hdf_dataset. case_decide; [done|].
  unfold wbind, wlift. rewrite Hleaf.
  destruct (for_each _ _ g) as [ret|]; [|done].
  intros Heq. apply require_dataset_result in Heq as ->. simpl.
  apply last_snoc.
Qed.

Section Loops.
Variable cls : manager_class.
Variable _family_to_group_map : list (family * list string).

Lemma write_group_kept translated_name leaf target_array (hdf : ref) i0 :
  py_last (py_split_on "/" translated_name) = Ok leaf →
  preserves (other_datasets_kept leaf)
            (write_group translated_name target_array hdf i0).
Proof.
  intros Hleaf. unfold write_group.
  apply preserves_wbind; [apply _|apply (preserves_read _)|]. intros npart.
  apply preserves_wbind; [apply _|apply preserves_wlift, _|]. intros this.
  apply (preserves_wbind_post _ _ _ (λ ds, last (r_path ds) = Some leaf)).
  - by apply get_or_create_kept.
  - intros w ds w' Heq. by eapply get_or_create_result.
  - intros ds Hds.
    apply preserves_wbind; [apply _|apply (preserves_read _)|]. intros source.
    apply preserves_wbind; [apply _|by apply write_direct_kept|]. intros _.
    apply preserves_wret, _.
Qed.

Lemma write_array_body_kept mem array_name translated_name leaf fam :
  py_last (py_split_on "/" translated_name) = Ok leaf →
  preserves (other_datasets_kept leaf)
    (write_array_body cls _family_to_group_map mem array_name translated_name fam).
Proof.
  intros Hleaf. unfold write_array_body. apply preserves_wfor; [apply _|].
  intros f [].
  apply preserves_wbind; [apply _|apply preserves_wlift, _|]. intros arr.
  apply preserves_wbind; [apply _| |intros; apply preserves_wret, _].
  apply for_hdf_groups_preserves; [apply _| |].
  - intros i. eapply preserves_weaken; [|apply w_iter_yield_keeps].
    intros w w' [_ Hd]. by apply same_disk_kept.
  - intros g s. by apply write_group_kept.
Qed.

(** X13: [write_array] changes nothing but datasets of one name, the last
    part of the native name it writes to.  Every other dataset that was
    on disk before the call ([ParticleIDs], the positions, ...) is there
    afterwards with the same element type, shape, elements and
    attributes, whether the call returns or raises. *)
Theorem write_array_keeps_the_other_datasets mem array_name fam w
    translated_name leaf (r : ref) (n : node V dtype) :
  py_index (_translate_array_name array_name) 0 = Ok translated_name →
  py_last (py_split_on "/" translated_name) = Ok leaf →
  last (r_path r) ≠ Some leaf → is_dataset n →
  resolve (w_disk w) r = Some n →
  resolve (w_disk (write_array cls _family_to_group_map mem array_name fam w).2) r
  = Some n.
Proof.
  intros Hname Hleaf Hlast Hn Hres.
  rewrite (write_array_unfold _ _ _ _ _ _ _ Hname).
  destruct (write_array_body _ _ _ _ _ _ _) as [res w2] eqn:Hbody.
  apply (write_array_body_kept _ _ _ leaf _ Hleaf) in Hbody. simpl.
  by apply Hbody.
Qed.

End Loops.
End WriteFrameFacts.

Lemma write_array_keeps_the_other_datasets_witness :
  resolve (w_disk (write_array (H := Example.names) (H0 := Example.plain_elements)
                     _GadgetHdfMultiFileManager Example._family_to_group_map
                     Example.in_memory "temp" (Some "dm") Example.start).2)
          (Ref "snap.0.hdf5" ModeR ["PartType1"; "ParticleIDs"])
  = Some (Example.ids [4; 5]%float).
Proof.
  apply (write_array_keeps_the_other_datasets (H := Example.names)
           (H0 := Example.plain_elements) _GadgetHdfMultiFileManager
           Example._family_to_group_map Example.in_memory "temp" (Some "dm")
           Example.start "Temperature" "Temperature").
  - reflexivity.
  - reflexivity.
  - simpl. discriminate.
  - exact I.
  - reflexivity.
Defined.

(* ----------------------------------------------------------------- *)
(** ** Writing back and reading again *)

Section WriteThenRead.
Context {V dtype : Type} `{EqDecision dtype} `{NameMapper} `{ArrayModel V dtype}.
Implicit Types (w : world V dtype) (d : disk V dtype).

Lemma getitem_path_inv d (q : list string) (r r' : ref) :
  for_each (λ tpart ret, h5_getitem d ret tpart) q r = Ok r' →
  r' = Ref (r_file r) (r_mode r) (r_path r ++ q).
Proof.
  revert r. induction q as [|k q IH]; intros r.
  - simpl. intros [= <-]. rewrite app_nil_r. by destruct r.
  - cbn [for_each]. destruct (h5_getitem d r k) as [r1|] eqn:Hk; [|done].
    simpl. intros Hrest. apply IH in Hrest as ->.
    unfold h5_getitem in Hk. repeat (case_match; simplify_eq/=).
    by rewrite <- app_assoc.
Qed.

Lemma resolve_mode d file mode mode' p :
  resolve d (Ref file mode p) = resolve d (Ref file mode' p).
Proof. done. Qed.

Lemma require_dataset_resolves (g : ref) name shape dt w ds w' :
  require_dataset g name shape dt w = (Ok ds, w') →
  ∃ data a, resolve (w_disk w') ds = Some (Dataset dt shape data a).
Proof.
  intros Heq. pose proof (require_dataset_result _ _ _ _ _ _ _ Heq) as ->.
  unfold require_dataset in Heq.
  destruct (resolve (w_disk w) g) as [[|a kids]|] eqn:Hg; try done.
  destruct (kids !! name) as [[dt' shape' data' a'|]|] eqn:Hname.
  - repeat case_decide; simplify_eq. exists data', a'.
    rewrite resolve_app. destruct g as [file mode p]. simpl in *.
    rewrite Hg. simpl. by rewrite Hname.
  - done.
  - destruct (r_mode g) eqn:Hmode; [done|]. simplify_eq. simpl.
    eexists _, _. rewrite resolve_app. destruct g as [file mode p].
    simpl in *. subst mode. rewrite resolve_alter_same, Hg. simpl.
    by rewrite lookup_insert_eq.
Qed.

(** X12: a dataset that [_get_or_create_hdf_dataset] hands out and
    [write_direct] fills is what [_get_hdf_dataset] finds afterwards under
    the same name in the same group, also for a name with groups in it
    ([A/B]): it has the shape and element type asked for and holds the
    elements of the source, converted to that type.  The name must not
    stand for the softening: that one is read from the parameters when
    they have it. *)
Theorem written_dataset_is_found_again
    (_get_softening_for_particle_group : ref → result (option scalar))
    (self : snapshot dtype) (g : ref) hdf_name shape dt source w ds w1 w2 :
  _translate_array_name_reverse hdf_name ≠ _eps_pynbody_name →
  _get_or_create_hdf_dataset g hdf_name shape dt w = (Ok ds, w1) →
  write_direct ds source w1 = (Ok (), w2) →
  _get_hdf_dataset (w_disk w2) _get_softening_for_particle_group self g hdf_name
  = Ok (OnDisk ds) ∧
  h5_shape (w_disk w2) ds = Ok shape ∧
  h5_dtype (w_disk w2) ds = Ok dt ∧
  h5_data (w_disk w2) ds = Ok (cast dt <$> a_data source) ∧
  a_shape source = shape.
Proof.
  intros Heps Hcreate Hwrite.
  unfold _get_or_create_hdf_dataset in Hcreate.
  case_decide as Hmass; [done|]. unfold wbind, wlift in Hcreate.
  destruct (for_each _ (removelast _) g) as [ret|] eqn:Hret; [|done].
  destruct (py_last (py_split_on "/" hdf_name)) as [leaf|] eqn:Hleaf; [|done].
  apply getitem_path_inv in Hret as ->.
  pose proof (require_dataset_result _ _ _ _ _ _ _ Hcreate) as Hds.
  simpl in Hds. rewrite <- app_assoc in Hds.
  assert (removelast (py_split_on "/" hdf_name) ++ [leaf]
          = py_split_on "/" hdf_name)%list as Hparts.
  { unfold py_last in Hleaf.
    destruct (last (py_split_on "/" hdf_name)) as [leaf'|] eqn:Hlast; [|done].
    injection Hleaf as ->.
    destruct (py_split_on "/" hdf_name) as [|x l] using rev_ind; [done|].
    rewrite last_snoc in Hlast. injection Hlast as ->.
    by rewrite removelast_last. }
  rewrite Hparts in Hds.
  apply require_dataset_resolves in Hcreate as (data & a & Hres1).
  unfold write_direct in Hwrite. rewrite Hres1 in Hwrite.
  destruct (r_mode ds); [done|]. case_decide as Hshape; [|done].
  injection Hwrite as <-. simpl.
  assert (resolve (disk_alter
                     (λ n, match n with
                           | Dataset dt shape _ a =>
                               Dataset dt shape (cast dt <$> a_data source) a
                           | Group _ _ => n
                           end) ds (w_disk w1)) ds
          = Some (Dataset dt shape (cast dt <$> a_data source) a)) as Hres2.
  { by rewrite resolve_alter_same, Hres1. }
  split_and!.
  - unfold _get_hdf_dataset. rewrite decide_False by done.
    rewrite decide_False by done. unfold hdf_path.
    destruct g as [file mode p]. simpl in Hds.
    rewrite (getitem_path _ file mode p).
    + simpl. by rewrite Hds.
    + rewrite <- Hds, Hres2. eauto.
  - unfold h5_shape. by rewrite Hres2.
  - unfold h5_dtype. by rewrite Hres2.
  - unfold h5_data. by rewrite Hres2.
  - done.
Qed.

End WriteThenRead.

Lemma written_dataset_is_found_again_witness :
  let g := Ref "snap.0.hdf5" ModeRW ["PartType1"] in
  let ds := Ref "snap.0.hdf5" ModeRW ["PartType1"; "Temperature"] in
  let d2 := Example.with_dataset "snap.0.hdf5" "PartType1" "Temperature"
              (Dataset Float32 [2%nat] [20; 21]%float ∅) Example.files in
  _get_hdf_dataset (H := Example.names) d2 Example.no_softening Example.snap
    g "Temperature" = Ok (OnDisk ds) ∧
  h5_data d2 ds = Ok [20; 21]%float.
Proof.
  intros g ds d2.
  destruct (written_dataset_is_found_again (H := Example.names)
              (H0 := Example.plain_elements)
              Example.no_softening Example.snap g "Temperature" [2%nat] Float32
              (NdArray Float32 [2%nat] [20; 21]%float)
              (World (reopen_in_mode ModeRW Example.files_manager) Example.files)
              ds
              (World (reopen_in_mode ModeRW Example.files_manager)
                 (Example.with_dataset "snap.0.hdf5" "PartType1" "Temperature"
                    (Dataset Float32 [2%nat] [0; 0]%float ∅) Example.files))
              (World (reopen_in_mode ModeRW Example.files_manager) d2))
    as (Hget & _ & _ & Hdata & _).
  - vm_compute. discriminate.
  - vm_compute. reflexivity.
  - vm_compute. reflexivity.
  - split; [exact Hget|exact Hdata].
Defined.

(* ----------------------------------------------------------------- *)
(** ** The loadable keys *)

Section NodeInduction.
Context {V dtype : Type}.
Implicit Types n : node V dtype.

Lemma node_depth_kid a (kids : gmap string (node V dtype)) k child :
  kids !! k = Some child →
  (node_depth child < node_depth (Group a kids))%nat.
Proof.
  intros Hk. cbn [node_depth]. rewrite map_fold_foldr.
  apply elem_of_map_to_list in Hk.
  induction (map_to_list kids) as [|[k' c'] l IH]; [by apply elem_of_nil in Hk|].
  apply elem_of_cons in Hk as [Heq|Hin]; cbn [foldr uncurry].
  - injection Heq as <- <-. simpl. lia.
  - specialize (IH Hin). simpl in *. lia.
Qed.

(** Induction on the objects of a file: a property of the datasets that
    passes from the members of a group to the group holds of every
    object. *)
Lemma node_tree_ind (P : node V dtype → Prop) :
  (∀ dt shape data a, P (Dataset dt shape data a)) →
  (∀ a kids, (∀ k child, kids !! k = Some child → P child) → P (Group a kids)) →
  ∀ n, P n.
Proof.
  intros Hd Hg n.
  remember (node_depth n) as m eqn:Hm.
  revert n Hm. induction m as [m IH] using lt_wf_ind. intros n ->.
  destruct n as [dt shape data a|a kids]; [apply Hd|].
  apply Hg. intros k child Hk.
  apply (IH (node_depth child)); [|done].
  by eapply node_depth_kid.
Qed.

(** The datasets a visit of [n] shows are the datasets below [n], each
    under its path. *)
Lemma visititems_datasets_spec n path q :
  q ∈ visititems_datasets path n ↔
  ∃ p, q = (path ++ p)%list ∧ ∃ dt shape data a,
    node_at p n = Some (Dataset dt shape data a).
Proof.
  revert path q. induction n as [dt shape data a|a kids IH] using node_tree_ind;
    intros path q.
  - cbn [visititems_datasets]. rewrite list_elem_of_singleton. split.
    + intros ->. exists []. rewrite app_nil_r. by eauto 10.
    + intros (p & -> & dt' & sh' & da' & a' & Hp).
      destruct p; [by rewrite app_nil_r|done].
  - cbn [visititems_datasets]. rewrite map_fold_foldr.
    assert (Hl : ∀ k child, (k, child) ∈ map_to_list kids ↔ kids !! k = Some child)
      by (intros; apply elem_of_map_to_list).
    revert Hl. generalize (map_to_list kids) as l. intros l Hl.
    assert (Hfold : q ∈ foldr (uncurry (λ k child acc,
                (visititems_datasets (path ++ [k]) child ++ acc)%list)) [] l ↔
              ∃ k child, (k, child) ∈ l ∧
                         q ∈ visititems_datasets (path ++ [k])%list child).
    { clear Hl IH. induction l as [|[k c] l IHl]; cbn [foldr uncurry].
      - split; [by intros ?%elem_of_nil|].
        by intros (? & ? & ?%elem_of_nil & _).
      - simpl. rewrite elem_of_app, IHl. split.
        + intros [H|(k' & c' & Hin & H)].
          * exists k, c. split; [by left|done].
          * exists k', c'. split; [by right|done].
        + intros (k' & c' & Hin & H).
          apply elem_of_cons in Hin as [Heq|Hin].
          * injection Heq as -> ->. by left.
          * right. by eauto. }
    rewrite Hfold. split.
    + intros (k & child & Hin & Hq). apply Hl in Hin.
      apply (IH k child Hin) in Hq as (p & -> & Hds).
      exists (k :: p). split; [by rewrite <- app_assoc|].
      cbn [node_at]. by rewrite Hin.
    + intros (p & -> & dt & sh & da & a' & Hp).
      destruct p as [|k p]; [done|]. cbn [node_at] in Hp.
      destruct (kids !! k) as [child|] eqn:Hk; [|done]. simpl in Hp.
      exists k, child. split; [by apply Hl|].
      apply (IH k child Hk). exists p. split; [by rewrite <- app_assoc|by eauto 10].
Qed.

End NodeInduction.

Section AllArrayKeysFacts.
Context {V dtype : Type}.
Implicit Types (d : disk V dtype).

(** The keys of a group are the joined paths of the datasets below it. *)
Lemma allarray_keys_elem d file mode path a kids :
  resolve d (Ref file mode path) = Some (Group a kids) →
  ∃ keys, _get_hdf_allarray_keys d (Ref file mode path) = Ok keys ∧
    ∀ k, k ∈ keys ↔
      ∃ p dt shape data ds_attrs, k = py_join "/" p ∧
        resolve d (Ref file mode (path ++ p))
        = Some (Dataset dt shape data ds_attrs).
Proof.
  intros Hg. unfold _get_hdf_allarray_keys. rewrite Hg.
  eexists. split; [done|]. intros k. rewrite list_elem_of_fmap.
  setoid_rewrite visititems_datasets_spec. setoid_rewrite resolve_app.
  rewrite Hg. cbn [mbind option_bind]. split.
  - intros (q & -> & p & -> & dt & sh & da & at' & Hp). by eauto 10.
  - intros (p & dt & sh & da & at' & -> & Hp). exists p. split; [done|].
    exists p. split; [done|]. by eauto 10.
Qed.

(** X14: [_get_hdf_allarray_keys] of a group returns the names of the
    datasets below the group, at any depth and of no other object: a name
    is among the keys exactly if it is the path, joined with slashes, from
    the group to a dataset. *)
Theorem allarray_keys_are_the_datasets_below d file mode path a kids :
  resolve d (Ref file mode path) = Some (Group a kids) →
  ∃ keys, _get_hdf_allarray_keys d (Ref file mode path) = Ok keys ∧
    ∀ k, k ∈ keys ↔
      ∃ p dt shape data ds_attrs, k = py_join "/" p ∧
        resolve d (Ref file mode (path ++ p))
        = Some (Dataset dt shape data ds_attrs).
Proof. apply allarray_keys_elem. Qed.

End AllArrayKeysFacts.

Lemma allarray_keys_are_the_datasets_below_witness :
  ∃ keys, _get_hdf_allarray_keys Example.files
            (Ref "snap.0.hdf5" ModeR ["PartType0"]) = Ok keys ∧
    ∀ k, k ∈ keys ↔
      ∃ p dt shape data ds_attrs, k = py_join "/" p ∧
        resolve Example.files (Ref "snap.0.hdf5" ModeR (["PartType0"] ++ p))
        = Some (Dataset dt shape data ds_attrs).
Proof.
  eapply allarray_keys_are_the_datasets_below. vm_compute. reflexivity.
Defined.

Section LoadableKeysFacts.
Context {V dtype : Type} `{NameMapper}.
Variable scls : snap_class.
Variable cls : manager_class.
Variable d : disk V dtype.
Variable hdf_files : list ref.
Variable _get_hdf_parameter_attrs : result (gmap string attr).
Variable _family_to_group_map : list (family * list string).

#[local] Abbreviation have_softening :=
  (_have_softening_for_particle_group scls _get_hdf_parameter_attrs).
#[local] Abbreviation keys_of_group :=
  (loadable_keys_of_group scls d _get_hdf_parameter_attrs).

(** A particle group that the manager yields is a group of a shard,
    under the name asked for. *)
Lemma particle_group_in_inv name hdf g :
  g ∈ particle_group_in cls d name hdf →
  g = Ref (r_file hdf) (r_mode hdf) (r_path hdf ++ [name]) ∧
  ∃ a kids, resolve d g = Some (Group a kids).
Proof.
  unfold particle_group_in. destruct (h5_contains d hdf name); [|by intros ?%elem_of_nil].
  unfold h5_getitem.
  destruct (resolve d hdf) as [[|a kids]|]; try by intros ?%elem_of_nil.
  destruct (kids !! name); [|by intros ?%elem_of_nil].
  destruct (h5_contains d _ _) eqn:Hc; [|by intros ?%elem_of_nil].
  intros ->%list_elem_of_singleton. split; [done|].
  unfold h5_contains in Hc.
  destruct (resolve d _) as [[|a' kids']|]; try done. by eauto.
Qed.

Lemma h5_name_snoc file mode p name :
  h5_name (Ref file mode (p ++ [name])) =
  foldl (λ name k, name ++ "/" ++ k) "" p ++ "/" ++ name.
Proof.
  unfold h5_name. cbn [r_path].
  destruct (p ++ [name])%list eqn:Hp; [by destruct p|].
  rewrite <- Hp, foldl_app. done.
Qed.

Lemma py_last_app s t c :
  py_last (list_ascii_of_string t) = Ok c →
  py_last (list_ascii_of_string (s ++ t)) = Ok c.
Proof.
  unfold py_last. rewrite list_ascii_app.
  destruct (list_ascii_of_string t) as [|c0 l] using rev_ind; [done|].
  rewrite app_assoc, !last_snoc. done.
Qed.

(** Adding the canonical names of the keys of a group. *)
Lemma add_keys_elem (ks : list string) (s : gset string) k :
  k ∈ foldl (λ keys this_key, {[ _translate_array_name_reverse this_key ]} ∪ keys)
            s ks ↔
  k ∈ s ∨ ∃ this_key, this_key ∈ ks ∧ k = _translate_array_name_reverse this_key.
Proof.
  revert s. induction ks as [|k0 ks IH]; intros s; cbn [foldl].
  - split; [by left|]. intros [?|(? & ?%elem_of_nil & _)]; done.
  - rewrite IH, elem_of_union, elem_of_singleton. split.
    + intros [[->|?]|(k1 & Hin & ->)]; [right|by left|right].
      * exists k0. split; [by left|done].
      * exists k1. split; [by right|done].
    + intros [?|(k1 & Hin & ->)]; [by left; right|].
      apply elem_of_cons in Hin as [->|Hin]; [by left; left|].
      right. by eauto.
Qed.

(** The loop over the groups of a family. *)
Lemma groups_loop_keys (groups : list ref) (st : gset string * bool) :
  Forall (λ g, ∃ ks, _get_hdf_allarray_keys d g = Ok ks) groups →
  Forall (λ g, ∃ b, have_softening g = Ok b) groups →
  ∃ st', for_each keys_of_group groups st = Ok st' ∧
    (∀ k, k ∈ st'.1 ↔
          k ∈ st.1 ∨
          ∃ g ks this_key, g ∈ groups ∧ _get_hdf_allarray_keys d g = Ok ks ∧
            this_key ∈ ks ∧ k = _translate_array_name_reverse this_key) ∧
    (st'.2 = true ↔
     st.2 = true ∧ ∀ g, g ∈ groups → have_softening g = Ok true).
Proof.
  revert st. induction groups as [|g groups IH]; intros st Hks Hhave.
  - exists st. split; [done|]. split.
    + intros k. split; [by left|].
      intros [?|(? & ? & ? & ?%elem_of_nil & _)]; done.
    + split; [|by intros [? _]]. intros ?. split; [done|].
      by intros ? ?%elem_of_nil.
  - apply Forall_cons in Hks as [[ks Hg] Hks].
    apply Forall_cons in Hhave as [[b Hb] Hhave].
    cbn [for_each].
    assert (keys_of_group g st
            = Ok (foldl (λ keys this_key,
                           {[ _translate_array_name_reverse this_key ]} ∪ keys)
                        st.1 ks, st.2 && b)) as ->.
    { unfold loadable_keys_of_group. rewrite Hg. cbn [mbind result_bind].
      by rewrite Hb. }
    cbn [mbind result_bind].
    destruct (IH (foldl (λ keys this_key,
                           {[ _translate_array_name_reverse this_key ]} ∪ keys)
                        st.1 ks, st.2 && b) Hks Hhave)
      as (st' & Hst' & Hkeys & Heps).
    exists st'. split; [done|]. cbn [fst snd] in *. split.
    + intros k. rewrite Hkeys, add_keys_elem. split.
      * intros [[?|(k1 & Hin & ->)]|(g' & ks' & k1 & Hin & Hg' & Hk1 & ->)].
        -- by left.
        -- right. exists g, ks, k1. split; [by left|done].
        -- right. exists g', ks', k1. split; [by right|done].
      * intros [?|(g' & ks' & k1 & Hin & Hg' & Hk1 & ->)]; [by left; left|].
        apply elem_of_cons in Hin as [->|Hin].
        -- left. right. exists k1. split; [|done]. congruence.
        -- right. by eauto 10.
    + rewrite Heps, andb_true_iff. split.
      * intros [[? ->] Hall]. split; [done|].
        intros g' [->|Hin]%elem_of_cons; [done|by apply Hall].
      * intros [? Hall]. split.
        -- split; [done|]. specialize (Hall g ltac:(by left)). congruence.
        -- intros g' Hin. apply Hall. by right.
Qed.

#[local] Abbreviation keys_of_family :=
  (family_loadable_keys scls cls d hdf_files _get_hdf_parameter_attrs
                        _family_to_group_map).

(** The groups of a family are groups of the files, and their names end
    with the last character of the group name asked for. *)
Lemma family_groups_inv (names : list string) g :
  g ∈ names ≫= iter_particle_groups_with_name cls d hdf_files →
  ∃ name file mode path a kids,
    name ∈ names ∧ g = Ref file mode (path ++ [name]) ∧
    resolve d g = Some (Group a kids).
Proof.
  intros (name & Hg & Hname)%list_elem_of_bind.
  unfold iter_particle_groups_with_name in Hg.
  apply list_elem_of_bind in Hg as (hdf & Hg & _).
  apply particle_group_in_inv in Hg as (-> & a & kids & Hres).
  by eauto 10.
Qed.

Lemma have_softening_ok attrs file mode path name c t :
  _get_hdf_parameter_attrs = Ok attrs →
  py_last (list_ascii_of_string name) = Ok c →
  py_int_of_char c = Ok t →
  have_softening (Ref file mode (path ++ [name]))
  = Ok (bool_decide (is_Some (attrs !! (_softening_class_key scls ++ pretty t)))).
Proof.
  intros Hattrs Hc Ht. unfold _have_softening_for_particle_group.
  rewrite h5_name_snoc, (py_last_app _ _ c).
  - cbn [mbind result_bind]. rewrite Ht. cbn [mbind result_bind].
    unfold _have_softening_for_particle_type. by rewrite Hattrs.
  - by apply py_last_app.
Qed.

(** X15: The loadable keys of a family, as [__init_loadable_keys] makes
    them for a family whose group names end in a digit: a list without
    repetitions that holds the mass, the canonical name of every dataset
    at any depth below a particle group of the family in any file, the
    softening if every such group has a softening class in the
    parameters, and nothing else. *)
Theorem family_loadable_keys_lists_the_datasets fam names attrs :
  dict_get _family_to_group_map fam = Ok names →
  _get_hdf_parameter_attrs = Ok attrs →
  Forall (λ name, ∃ c t, py_last (list_ascii_of_string name) = Ok c ∧
                         py_int_of_char c = Ok t) names →
  let groups := names ≫= iter_particle_groups_with_name cls d hdf_files in
  ∃ keys, keys_of_family fam = Ok keys ∧ NoDup keys ∧
    ∀ k, k ∈ keys ↔
      k = _mass_pynbody_name ∨
      (∃ g p dt shape data ds_attrs,
         g ∈ groups ∧
         resolve d (Ref (r_file g) (r_mode g) (r_path g ++ p))
         = Some (Dataset dt shape data ds_attrs) ∧
         k = _translate_array_name_reverse (py_join "/" p)) ∨
      (k = _eps_pynbody_name ∧ ∀ g, g ∈ groups → have_softening g = Ok true).
Proof.
  intros Hnames Hattrs Hdigits groups.
  assert (Hks : Forall (λ g, ∃ ks, _get_hdf_allarray_keys d g = Ok ks) groups).
  { apply Forall_forall. intros g Hg.
    apply family_groups_inv in Hg
      as (name & file & mode & path & a & kids & _ & -> & Hres).
    destruct (allarray_keys_elem _ _ _ _ _ _ Hres) as (ks & Hks & _). by eauto. }
  assert (Hhave : Forall (λ g, ∃ b, have_softening g = Ok b) groups).
  { apply Forall_forall. intros g Hg.
    apply family_groups_inv in Hg
      as (name & file & mode & path & a & kids & Hname & -> & _).
    rewrite Forall_forall in Hdigits.
    destruct (Hdigits name Hname) as (c & t & Hc & Ht).
    eexists. by eapply have_softening_ok. }
  destruct (groups_loop_keys groups ({[ _mass_pynbody_name ]}, true) Hks Hhave)
    as (st' & Hloop & Hkeys & Heps).
  unfold family_loadable_keys.
  unfold _all_hdf_groups_in_family. rewrite Hnames. cbn [mbind result_bind].
  fold groups. rewrite Hloop. cbn [mbind result_bind].
  eexists. split; [done|]. split; [apply NoDup_elements|].
  intros k. rewrite elem_of_elements.
  cbn [fst snd] in Hkeys, Heps.
  assert (Hds : k ∈ st'.1 ↔
                k = _mass_pynbody_name ∨
                ∃ g p dt shape data ds_attrs,
                  g ∈ groups ∧
                  resolve d (Ref (r_file g) (r_mode g) (r_path g ++ p))
                  = Some (Dataset dt shape data ds_attrs) ∧
                  k = _translate_array_name_reverse (py_join "/" p)).
  { rewrite Hkeys, elem_of_singleton. split.
    - intros [?|(g & ks & k1 & Hg & Hall & Hk1 & ->)]; [by left|right].
      pose proof Hg as Hg'.
      apply family_groups_inv in Hg'
        as (name & file & mode & path & a & kids & _ & -> & Hres).
      destruct (allarray_keys_elem _ _ _ _ _ _ Hres) as (ks' & Hks' & Hel).
      rewrite Hall in Hks'. injection Hks' as <-.
      apply Hel in Hk1 as (p & dt & sh & da & at' & -> & Hp).
      exists (Ref file mode (path ++ [name])), p, dt, sh, da, at'. done.
    - intros [?|(g & p & dt & sh & da & at' & Hg & Hp & ->)]; [by left|right].
      pose proof Hg as Hg'.
      apply family_groups_inv in Hg'
        as (name & file & mode & path & a & kids & _ & -> & Hres).
      destruct (allarray_keys_elem _ _ _ _ _ _ Hres) as (ks' & Hks' & Hel).
      exists (Ref file mode (path ++ [name])), ks', (py_join "/" p).
      do 2 (split; [done|]). split; [|done].
      apply Hel. by eauto 10. }
  destruct (st'.2) eqn:Hb.
  - rewrite elem_of_union, elem_of_singleton, Hds.
    assert (∀ g, g ∈ groups → have_softening g = Ok true) as Hall
      by (by apply Heps).
    split.
    + intros [->|[?|?]]; [right; right; done|by left|by right; left].
    + intros [?|[?|[-> _]]]; [by right; left|by right; right|by left].
  - rewrite Hds. split.
    + intros [?|?]; [by left|by right; left].
    + intros [?|[?|[_ Hall]]]; [by left|by right|].
      assert (false = true) by (apply Heps; done). done.
Qed.

Lemma dict_get_set {A} (m : list (string * A)) k v k' :
  dict_get (dict_set m k v) k'
  = if decide (k = k') then Ok v else dict_get m k'.
Proof.
  induction m as [|[k0 a] m IH]; cbn [dict_set dict_get].
  - done.
  - destruct (decide (k0 = k)) as [->|Hne]; cbn [dict_get].
    + by destruct (decide (k = k')).
    + rewrite IH. destruct (decide (k0 = k')) as [->|]; [|done].
      by destruct (decide (k = k')).
Qed.

Lemma dict_set_keys {A} (m : list (string * A)) k v k' :
  k' ∈ (dict_set m k v).*1 ↔ k' = k ∨ k' ∈ m.*1.
Proof.
  induction m as [|[k0 a] m IH]; cbn [dict_set].
  - simpl. rewrite list_elem_of_singleton. split; [by left|].
    by intros [?|?%elem_of_nil].
  - destruct (decide (k0 = k)) as [->|Hne]; simpl; rewrite !elem_of_cons.
    + tauto.
    + rewrite IH. tauto.
Qed.

Lemma dict_set_nodup {A} (m : list (string * A)) k v :
  NoDup m.*1 → NoDup (dict_set m k v).*1.
Proof.
  induction m as [|[k0 a] m IH]; cbn [dict_set]; intros Hnd.
  - simpl. apply NoDup_singleton.
  - simpl in Hnd. apply NoDup_cons in Hnd as [Hk0 Hnd].
    destruct (decide (k0 = k)) as [->|Hne]; simpl.
    + by apply NoDup_cons.
    + apply NoDup_cons. split; [|by apply IH].
      rewrite dict_set_keys. intros [?|?]; done.
Qed.

(** In a dict, the items are what the lookups give. *)
Lemma dict_get_items {A} (m : list (string * A)) k v :
  NoDup m.*1 → (k, v) ∈ m ↔ dict_get m k = Ok v.
Proof.
  induction m as [|[k0 a] m IH]; intros Hnd; cbn [dict_get].
  - split; [by intros ?%elem_of_nil|done].
  - simpl in Hnd. apply NoDup_cons in Hnd as [Hk0 Hnd].
    rewrite elem_of_cons, (IH Hnd).
    destruct (decide (k0 = k)) as [->|Hne].
    + split; [|by intros [= ->]; left].
      intros [[= ->]|Hget]; [done|].
      apply IH in Hget; [|done]. exfalso. apply Hk0.
      apply list_elem_of_fmap. by exists (k, v).
    + split; [|by right]. intros [[= -> ->]|?]; done.
Qed.

(** The loop over the families. *)
Lemma families_loop_keys (fams : list family) (acc : list (family * list string)) :
  NoDup acc.*1 →
  (∀ fam, fam ∈ fams → ∃ ks, keys_of_family fam = Ok ks) →
  ∃ fk, for_each (λ fam family_keys,
                    keys ← keys_of_family fam;
                    Ok (dict_set family_keys fam keys)) fams acc = Ok fk ∧
    NoDup fk.*1 ∧
    ∀ fam, dict_get fk fam
           = if decide (fam ∈ fams) then keys_of_family fam else dict_get acc fam.
Proof.
  revert acc. induction fams as [|fam0 fams IH]; intros acc Hnd Hok.
  - exists acc. split; [done|]. split; [done|]. intros fam.
    destruct (decide (fam ∈ [])) as [?%elem_of_nil|]; done.
  - destruct (Hok fam0 ltac:(by left)) as [ks Hks].
    cbn [for_each]. rewrite Hks. cbn [mbind result_bind].
    destruct (IH (dict_set acc fam0 ks) (dict_set_nodup _ _ _ Hnd)) as (fk & Hfk & Hnd' & Hget).
    { intros fam Hin. apply Hok. by right. }
    exists fk. split; [done|]. split; [done|]. intros fam.
    rewrite Hget, dict_get_set.
    destruct (decide (fam ∈ fams)) as [Hin|Hnin].
    + rewrite decide_True; [done|by right].
    + destruct (decide (fam0 = fam)) as [->|Hne].
      * rewrite decide_True; [done|by left].
      * rewrite decide_False; [done|].
        intros [->|?]%elem_of_cons; done.
Qed.

Lemma intersect_all_elem (l : list (list string)) (s : gset string) k :
  k ∈ foldl (λ keys (fam_keys : list string), keys ∩ list_to_set fam_keys) s l ↔
  k ∈ s ∧ ∀ ks, ks ∈ l → k ∈ ks.
Proof.
  revert s. induction l as [|ks0 l IH]; intros s; cbn [foldl].
  - split; [|by intros [? _]]. intros ?. split; [done|].
    by intros ? ?%elem_of_nil.
  - rewrite IH, elem_of_intersection, elem_of_list_to_set. split.
    + intros [[? ?] Hall]. split; [done|].
      intros ks [->|?]%elem_of_cons; [done|by apply Hall].
    + intros [? Hall]. split; [split; [done|apply Hall; by left]|].
      intros ks ?. apply Hall. by right.
Qed.

(** X16: [__init_loadable_keys] on a snapshot with families: each family
    gets its own keys, and the keys of the snapshot are, without
    repetitions, the keys that every family has. *)
Theorem loadable_keys_are_common_to_all_families fam0 fams :
  (∀ fam, fam ∈ fam0 :: fams → ∃ ks, keys_of_family fam = Ok ks) →
  ∃ fk keys,
    __init_loadable_keys scls cls d hdf_files _get_hdf_parameter_attrs
                         _family_to_group_map (fam0 :: fams)
    = Ok (fk, Some keys) ∧
    (∀ fam, fam ∈ fam0 :: fams → dict_get fk fam = keys_of_family fam) ∧
    (∀ fam, fam ∉ fam0 :: fams → dict_get fk fam = Raise KeyError) ∧
    NoDup keys ∧
    ∀ k, k ∈ keys ↔
         ∀ fam ks, fam ∈ fam0 :: fams → keys_of_family fam = Ok ks → k ∈ ks.
Proof.
  intros Hok.
  destruct (families_loop_keys (fam0 :: fams) [] (NoDup_nil_2) Hok)
    as (fk & Hfk & Hnd & Hget).
  destruct (Hok fam0 ltac:(by left)) as [ks0 Hks0].
  assert (Hfirst : dict_get fk fam0 = Ok ks0).
  { rewrite Hget, decide_True; [done|by left]. }
  unfold __init_loadable_keys. rewrite Hfk. cbn [mbind result_bind].
  rewrite Hfirst. cbn [mbind result_bind].
  eexists _, _. split; [done|]. split; [|split; [|split]].
  - intros fam Hin. by rewrite Hget, decide_True.
  - intros fam Hnin. by rewrite Hget, decide_False.
  - apply NoDup_elements.
  - intros k. rewrite elem_of_elements, intersect_all_elem, elem_of_list_to_set.
    split.
    + intros [_ Hall] fam ks Hin Hks. apply Hall.
      apply list_elem_of_fmap. exists (fam, ks). split; [done|].
      apply dict_get_items; [done|]. by rewrite Hget, decide_True.
    + intros Hall. split; [by apply (Hall fam0 ks0); [left|]|].
      intros ks ([fam ks'] & -> & Hin)%list_elem_of_fmap. simpl.
      apply dict_get_items in Hin; [|done]. rewrite Hget in Hin.
      destruct (decide (fam ∈ fam0 :: fams)); [|done].
      by apply (Hall fam).
Qed.

End LoadableKeysFacts.

Lemma family_loadable_keys_lists_the_datasets_witness :
  let attrs : gmap string attr := {[ "SofteningTypeOfPartType1" := AInt 1 ]} in
  let have_softening :=
    _have_softening_for_particle_group GadgetHDFSnap (Ok attrs) in
  let groups :=
    ["PartType1"] ≫= iter_particle_groups_with_name
                       _GadgetHdfMultiFileManager Example.files Example.hdf_files in
  ∃ keys,
    family_loadable_keys (H := Example.names) GadgetHDFSnap
      _GadgetHdfMultiFileManager Example.files Example.hdf_files (Ok attrs)
      Example._family_to_group_map "dm" = Ok keys ∧
    NoDup keys ∧
    ∀ k, k ∈ keys ↔
      k = _mass_pynbody_name ∨
      (∃ g p dt shape data ds_attrs,
         g ∈ groups ∧
         resolve Example.files (Ref (r_file g) (r_mode g) (r_path g ++ p))
         = Some (Dataset dt shape data ds_attrs) ∧
         k = _translate_array_name_reverse (NameMapper := Example.names)
               (py_join "/" p)) ∨
      (k = _eps_pynbody_name ∧ ∀ g, g ∈ groups → have_softening g = Ok true).
Proof.
  intros attrs have_softening groups.
  apply (family_loadable_keys_lists_the_datasets (H := Example.names)
           GadgetHDFSnap _GadgetHdfMultiFileManager Example.files
           Example.hdf_files (Ok attrs) Example._family_to_group_map
           "dm" ["PartType1"] attrs); [reflexivity|reflexivity|].
  repeat constructor. exists "1"%char, 1%nat. split; reflexivity.
Defined.

Lemma loadable_keys_are_common_to_all_families_witness :
  let keys_of_family :=
    family_loadable_keys (H := Example.names) GadgetHDFSnap
      _GadgetHdfMultiFileManager Example.files Example.hdf_files (Ok ∅)
      Example._family_to_group_map in
  ∃ fk keys,
    __init_loadable_keys (H := Example.names) GadgetHDFSnap
      _GadgetHdfMultiFileManager Example.files Example.hdf_files (Ok ∅)
      Example._family_to_group_map ["gas"; "dm"; "star"]
    = Ok (fk, Some keys) ∧
    (∀ fam, fam ∈ ["gas"; "dm"; "star"] → dict_get fk fam = keys_of_family fam) ∧
    (∀ fam, fam ∉ ["gas"; "dm"; "star"] → dict_get fk fam = Raise KeyError) ∧
    NoDup keys ∧
    ∀ k, k ∈ keys ↔
         ∀ fam ks, fam ∈ ["gas"; "dm"; "star"] →
                   keys_of_family fam = Ok ks → k ∈ ks.
Proof.
  intros keys_of_family. subst keys_of_family.
  apply (loadable_keys_are_common_to_all_families (H := Example.names)).
  intros fam Hin.
  repeat (apply elem_of_cons in Hin as [->|Hin]);
    [eexists; vm_compute; reflexivity ..|by apply elem_of_nil in Hin].
Defined.
